(** * Attendance system: face pipeline and attendance marking

    A shallow embedding of the Python sources

      - [face_recognition/face_encoder.py]   (FaceEncoder)
      - [face_recognition/face_detector.py]  (FaceDetector)
      - [simple_camera.py]                   (SimpleCamera)
      - [database/models.py], [utils/helpers.py], [app.py] (routes)

    Part I gives the data model and the operations as executable
    definitions; Part II states and proves the properties.

    Conventions.  Python objects that are shared and mutated (numpy
    frames) live in an explicit heap.  Calls into OpenCV and numpy are
    the fields of the interface [Vision].  Clock reads ([date.today()],
    [datetime.now()]) are arguments of the operation that performs them.
    A Python exception that is caught by the enclosing [try] is an
    [option] (or a dedicated constructor) in the embedding. *)

From Stdlib Require Import ZArith Lia Bool Ascii.
From Stdlib Require Import Floats.SpecFloat.
From stdpp Require Import base option list gmap strings pretty.

Local Open Scope string_scope.
Local Open Scope list_scope.
Local Open Scope Z_scope.

(* ===================================================================== *)
(** * Part I. The model                                                   *)
(* ===================================================================== *)

(** ** Machine integers (numpy [int32]) *)

Module Int32.

Definition modulus : Z := 2 ^ 32.
Definition half : Z := 2 ^ 31.

(** Wrap-around to the signed 32-bit range. *)
Definition wrap (z : Z) : Z := (z + half) mod modulus - half.

Definition add (a b : Z) : Z := wrap (a + b).
Definition sub (a b : Z) : Z := wrap (a - b).
Definition mul (a b : Z) : Z := wrap (a * b).

Definition in_range (z : Z) : Prop := - half <= z < half.

End Int32.

(** ** IEEE-754 values (Python [float], numpy [float32]/[float64]) *)

Module IEEE.

Abbreviation float := spec_float.

(** Python's [0] used where a float is expected. *)
Definition zero : float := S754_zero false.

(** The literal [0.3]: the binary64 nearest to 3/10, that is
    5404319552844595 * 2^-54. *)
Definition lit_0_3 : float := S754_finite false 5404319552844595 (-54).

(** The literal [1.0]. *)
Definition lit_1_0 : float := S754_finite false 4503599627370496 (-52).

(** [np.isnan]. *)
Definition isnan (x : float) : bool :=
  match x with S754_nan => true | _ => false end.

(** Python [x > y] on floats: false as soon as one side is NaN. *)
Definition gt (x y : float) : bool := SFltb y x.

(** Python [x <= y]. *)
Definition le (x y : float) : bool := SFleb x y.

(** [ndarray.astype(np.float32)] on a [uint8] value: exact. *)
Definition of_uint8 (v : Z) : float := binary_normalize 24 128 v 0 false.

End IEEE.

Abbreviation float := IEEE.float.

(** ** Images *)

(** A BGR pixel, three 8-bit channels. *)
Definition pixel : Type := Z * Z * Z.

(** A colour frame: rows of pixels (height x width x 3). *)
Definition frame : Type := list (list pixel).

(** A grayscale image: rows of 8-bit values. *)
Definition gray : Type := list (list Z).

(** A face region [(x, y, w, h)], components are [int32]. *)
Definition rect : Type := Z * Z * Z * Z.

(** An encoding: a flat vector of floating-point values. *)
Definition encoding : Type := list float.

Definition height {A} (img : list (list A)) : nat := length img.

Definition width {A} (img : list (list A)) : nat :=
  match img with
  | [] => 0%nat
  | row :: _ => length row
  end.

(** [ndarray.shape] restricted to the two spatial axes; the row lengths
    are kept for every row. *)
Definition shape {A} (img : list (list A)) : list nat := map length img.

(** [Mat::empty()]: no element at all. *)
Definition is_empty {A} (img : list (list A)) : bool :=
  match img with
  | [] => true
  | [] :: _ => true
  | _ => false
  end.

(** [ndarray.flatten()]: row-major. *)
Definition flatten {A} (img : list (list A)) : list A := concat img.

(** *** Python slicing [l[start:stop]] *)

Definition slice_index (i n : Z) : Z :=
  if i <? 0 then Z.max (i + n) 0 else Z.min i n.

Definition slice {A} (start stop : Z) (l : list A) : list A :=
  let n := Z.of_nat (length l) in
  let a := slice_index start n in
  let b := slice_index stop n in
  take (Z.to_nat (b - a)) (drop (Z.to_nat a) l).

(** [img[y:y+h, x:x+w]] with [int32] arithmetic on the bounds. *)
Definition crop {A} (img : list (list A)) (r : rect) : list (list A) :=
  let '(x, y, w, h) := r in
  map (slice x (Int32.add x w)) (slice y (Int32.add y h) img).

(** Build a [rows] x [cols] image from its pixel function. *)
Definition tabulate {A} (rows cols : nat) (f : nat -> nat -> A) : list (list A) :=
  map (fun i => map (fun j => f i j) (seq 0 cols)) (seq 0 rows).

(** Overwrite with [c] the pixels selected by [cover x y] (column, row);
    this is how every OpenCV drawing primitive acts on its target. *)
Definition paint (cover : Z -> Z -> bool) (c : pixel) (f : frame) : frame :=
  imap (fun y row =>
          imap (fun x p => if cover (Z.of_nat x) (Z.of_nat y) then c else p) row) f.

(** ** Dates and times ([datetime.date], [datetime.datetime]) *)

Record date := Date { d_year : Z; d_month : Z; d_day : Z }.

Record datetime := DateTime {
  dt_date : date;
  dt_hour : Z;
  dt_minute : Z;
  dt_second : Z;
  dt_microsecond : Z
}.

#[global] Instance date_eq_dec : EqDecision date.
Proof. solve_decision. Defined.

#[global] Instance datetime_eq_dec : EqDecision datetime.
Proof. solve_decision. Defined.

(** Lexicographic comparison, most significant component first. *)
Fixpoint lex_leb (a b : list Z) : bool :=
  match a, b with
  | x :: a', y :: b' => (x <? y) || ((x =? y) && lex_leb a' b')
  | _, _ => true
  end.

Definition datetime_key (t : datetime) : list Z :=
  [d_year (dt_date t); d_month (dt_date t); d_day (dt_date t);
   dt_hour t; dt_minute t; dt_second t; dt_microsecond t].

(** [a <= b] on naive datetimes. *)
Definition datetime_leb (a b : datetime) : bool :=
  lex_leb (datetime_key a) (datetime_key b).

(** Two decimal digits, as [%H], [%M] and [%S] print them. *)
Definition two_digits (n : Z) : string :=
  if n <? 10 then "0" +:+ pretty n else pretty n.

(** [t.strftime('%H:%M:%S')]. *)
Definition strftime_HMS (t : datetime) : string :=
  two_digits (dt_hour t) +:+ ":" +:+ two_digits (dt_minute t) +:+ ":" +:+
  two_digits (dt_second t).

(** ** The OpenCV / numpy collaborators

    The routines below belong to libraries outside the repository.  They
    are deterministic functions of their arguments; nothing else is
    assumed about them here. *)

Class Vision := {
  (** Decoder behind [cv2.imread]: [None] for bytes that are no image. *)
  imdecode : list Byte.byte -> option frame;
  (** [cv2.cvtColor(img, cv2.COLOR_BGR2GRAY)]. *)
  cvtColor_BGR2GRAY : frame -> gray;
  (** [face_cascade.detectMultiScale(gray, 1.3, 5)], in scan order. *)
  detectMultiScale : gray -> list rect;
  (** Interpolated value of pixel (row, column) of
      [cv2.resize(src, (cols, rows))]. *)
  resize_sample : gray -> nat -> nat -> nat -> nat -> Z;
  (** [np.corrcoef(a, b)[0, 1]]; [None] when numpy raises (operands of
      different length). *)
  corrcoef : encoding -> encoding -> option float;
  (** Pixels covered by [cv2.rectangle(_, pt1, pt2, _, thickness)]. *)
  rectangle_cover : Z * Z -> Z * Z -> Z -> Z -> Z -> bool;
  (** Pixels covered by
      [cv2.putText(_, text, org, FONT_HERSHEY_SIMPLEX, 0.6, _, 2)]. *)
  putText_cover : string -> Z * Z -> Z -> Z -> bool;
  (** The format [f"{x:.1%}"]. *)
  format_percent : float -> string
}.

(** [cv2.resize(src, (cols, rows))]: an OpenCV error on an empty source. *)
Definition resize `{Vision} (src : gray) (cols rows : nat) : option gray :=
  if is_empty src then None
  else Some (tabulate rows cols (resize_sample src rows cols)).

(** [cv2.rectangle(img, pt1, pt2, color, thickness)]. *)
Definition rectangle `{Vision} (img : frame) (pt1 pt2 : Z * Z) (color : pixel)
    (thickness : Z) : frame :=
  paint (rectangle_cover pt1 pt2 thickness) color img.

(** [cv2.putText(img, text, org, FONT_HERSHEY_SIMPLEX, 0.6, color, 2)]. *)
Definition putText `{Vision} (img : frame) (text : string) (org : Z * Z)
    (color : pixel) : frame :=
  paint (putText_cover text org) color img.

(** Python's [max(first :: rest, key=key)]: the first element whose key
    is not exceeded later on. *)
Fixpoint py_max {A} (key : A -> Z) (best : A) (rest : list A) : A :=
  match rest with
  | [] => best
  | x :: rest' => if key best <? key x then py_max key x rest' else py_max key best rest'
  end.

(** ** face_encoder.py *)

Module FaceEncoder.
Section FaceEncoder.
Context `{Vision}.

(** [lambda f: f[2] * f[3]] on a row of the [int32] result array. *)
Definition area (f : rect) : Z :=
  let '(_, _, w, h) := f in Int32.mul w h.

(** The steps of [encode_face_from_image] once the image is loaded. *)
Definition encode_image (image : frame) : option encoding :=
  let gray := cvtColor_BGR2GRAY image in
  let faces := detectMultiScale gray in
  match faces with
  | [] => None                                   (* len(faces) == 0 *)
  | f0 :: rest =>
      let largest_face := py_max area f0 rest in
      let face_roi := crop gray largest_face in
      match resize face_roi 100 100 with
      | None => None                             (* except Exception *)
      | Some face_roi' => Some (map IEEE.of_uint8 (flatten face_roi'))
      end
  end.

(** [FaceEncoder.encode_face_from_image]; the file system maps a path
    to the bytes stored there. *)
Definition encode_face_from_image (fs : gmap string (list Byte.byte))
    (image_path : string) : option encoding :=
  match fs !! image_path with
  | None => None                                 (* not os.path.exists *)
  | Some bytes =>
      match imdecode bytes with
      | None => None                             (* image is None *)
      | Some image => encode_image image
      end
  end.

End FaceEncoder.
End FaceEncoder.

(** ** The process: heap of frames, worker threads, event trace *)

(** A reference to a numpy array. *)
Definition loc : Type := positive.

(** Things the process does that leave no mark on the objects. *)
Inductive event :=
  | Ev_sleep (milliseconds : Z)                  (* time.sleep *)
  | Ev_print (text : string)                     (* print / logger; the text
                                                    of a caught exception,
                                                    where one is appended,
                                                    is left out *)
  | Ev_open (index : Z) (ok : bool)              (* cv2.VideoCapture(index) *)
  | Ev_release                                   (* cap.release() *)
  | Ev_rectangle (target : loc) (pt1 pt2 : Z * Z) (color : pixel) (thickness : Z)
  | Ev_putText (target : loc) (text : string) (org : Z * Z) (color : pixel).

(** Outcome of one [cap.read()]. *)
Inductive read_result :=
  | Read_ok (f : frame)        (* ret is True *)
  | Read_fail                  (* ret is False *)
  | Read_raise.                (* the call raised *)

(** One located and matched face, the dictionary built by
    [_detect_faces]: keys ['student_id'], ['name'], ['confidence'],
    ['location'], ['timestamp']. *)
Record detection := Detection {
  det_student_id : option Z;
  det_name : string;
  det_confidence : float;
  det_location : rect;
  det_timestamp : datetime
}.

(** The body a thread was created for. *)
Inductive target :=
  | FaceDetector_capture_frames
  | FaceDetector_detect_faces
  | SimpleCamera_capture_frames.

(** Where a worker stands: at the test of its [while], between the read
    and the store of one iteration, or past the end of its body. *)
Inductive pc :=
  | At_head
  | Got_read (r : read_result)
  | Got_detections (ds : list detection)
  | Finished.

Record worker := Worker { w_target : target; w_pc : pc }.

Record world := World {
  heap : gmap loc frame;
  threads : list worker;          (* every thread started so far *)
  device_present : bool;          (* can the camera be opened? *)
  trace : list event              (* most recent first *)
}.

Definition emit (e : event) (w : world) : world :=
  {| heap := heap w; threads := threads w;
     device_present := device_present w; trace := e :: trace w |}.

Definition set_heap (h : gmap loc frame) (w : world) : world :=
  {| heap := h; threads := threads w;
     device_present := device_present w; trace := trace w |}.

Definition set_threads (ts : list worker) (w : world) : world :=
  {| heap := heap w; threads := ts;
     device_present := device_present w; trace := trace w |}.

(** [frame.copy()]: a new array with the same contents. *)
Definition alloc (f : frame) (w : world) : loc * world :=
  let l := fresh (dom (heap w)) in
  (l, set_heap (<[l := f]> (heap w)) w).

(** [threading.Thread(target=...)] followed by [start()]. *)
Definition spawn (t : target) (w : world) : nat * world :=
  (length (threads w), set_threads (threads w ++ [Worker t At_head]) w).

Definition set_pc (tid : nat) (p : pc) (w : world) : world :=
  set_threads (alter (fun k => Worker (w_target k) p) tid (threads w)) w.

(** A [cv2.VideoCapture] object. *)
Record capture := Capture {
  cap_isOpened : bool;
  cap_props : list (string * Z)     (* cap.set(prop, value) so far *)
}.

Definition cap_set (prop : string) (v : Z) (c : capture) : capture :=
  {| cap_isOpened := cap_isOpened c; cap_props := (prop, v) :: cap_props c |}.

(** [cv2.VideoCapture(index)]. *)
Definition VideoCapture (index : Z) (w : world) : capture * world :=
  (Capture (device_present w) [], emit (Ev_open index (device_present w)) w).

(** Truth value of [face['student_id']]: [None] and [0] are false. *)
Definition truthy_id (o : option Z) : bool :=
  match o with
  | Some z => negb (z =? 0)
  | None => false
  end.

(** ** face_detector.py *)

Module FaceDetector.

(** An entry of [known_faces]: keys ['id'], ['name'], ['student_id'],
    ['face_encoding']. *)
Record known_face := Known {
  kf_id : Z;
  kf_name : string;
  kf_student_id : string;
  kf_face_encoding : option encoding
}.

Record t := Make {
  camera_index : Z;
  cap : option capture;
  is_running : bool;
  current_frame : option loc;
  detected_faces : list detection;
  known_faces : list known_face;
  capture_thread : option nat;
  detection_thread : option nat
}.

(** [__init__]. *)
Definition init (camera_index : Z) : t :=
  Make camera_index None false None [] [] None None.

Definition set_cap (c : option capture) (d : t) : t :=
  Make (camera_index d) c (is_running d) (current_frame d) (detected_faces d)
       (known_faces d) (capture_thread d) (detection_thread d).

Definition set_is_running (b : bool) (d : t) : t :=
  Make (camera_index d) (cap d) b (current_frame d) (detected_faces d)
       (known_faces d) (capture_thread d) (detection_thread d).

Definition set_current_frame (f : option loc) (d : t) : t :=
  Make (camera_index d) (cap d) (is_running d) f (detected_faces d)
       (known_faces d) (capture_thread d) (detection_thread d).

Definition set_detected_faces (ds : list detection) (d : t) : t :=
  Make (camera_index d) (cap d) (is_running d) (current_frame d) ds
       (known_faces d) (capture_thread d) (detection_thread d).

Definition set_known_faces (ks : list known_face) (d : t) : t :=
  Make (camera_index d) (cap d) (is_running d) (current_frame d) (detected_faces d)
       ks (capture_thread d) (detection_thread d).

Definition set_capture_thread (th : option nat) (d : t) : t :=
  Make (camera_index d) (cap d) (is_running d) (current_frame d) (detected_faces d)
       (known_faces d) th (detection_thread d).

Definition set_detection_thread (th : option nat) (d : t) : t :=
  Make (camera_index d) (cap d) (is_running d) (current_frame d) (detected_faces d)
       (known_faces d) (capture_thread d) th.

(** [load_known_faces]: the list is rebuilt entry by entry (the [print]
    of its length is left out). *)
Definition load_known_faces (students_data : list known_face) (d : t) : t :=
  set_known_faces
    (map (fun student => Known (kf_id student) (kf_name student)
                               (kf_student_id student) (kf_face_encoding student))
         students_data) d.

(** [start_detection]. *)
Definition start_detection (d : t) (w : world) : bool * t * world :=
  if is_running d then (true, d, w)
  else
    let '(c, w) := VideoCapture (camera_index d) w in
    let d := set_cap (Some c) d in
    if negb (cap_isOpened c) then (false, d, w)
    else
      let c := cap_set "CAP_PROP_FRAME_WIDTH" 640 c in
      let c := cap_set "CAP_PROP_FRAME_HEIGHT" 480 c in
      let d := set_cap (Some c) d in
      let d := set_is_running true d in
      let '(th, w) := spawn FaceDetector_capture_frames w in
      let d := set_capture_thread (Some th) d in
      let '(th, w) := spawn FaceDetector_detect_faces w in
      let d := set_detection_thread (Some th) d in
      (true, d, w).

Section Matching.
Context `{Vision}.

(** One turn of [for known_face in self.known_faces]; the pair is
    [(best_match, best_confidence)].  [None]: [np.corrcoef] raised. *)
Definition match_step (face_encoding : encoding)
    (best : option known_face * float) (kf : known_face)
    : option (option known_face * float) :=
  match kf_face_encoding kf with
  | None => Some best
  | Some known_encoding =>
      match corrcoef face_encoding known_encoding with
      | None => None
      | Some correlation =>
          if negb (IEEE.isnan correlation)
             && IEEE.gt correlation (snd best)
             && IEEE.gt correlation IEEE.lit_0_3
          then Some (Some kf, correlation)
          else Some best
      end
  end.

Fixpoint match_loop (face_encoding : encoding) (known : list known_face)
    (best : option known_face * float) : option (option known_face * float) :=
  match known with
  | [] => Some best
  | kf :: known' =>
      match match_step face_encoding best kf with
      | None => None
      | Some best' => match_loop face_encoding known' best'
      end
  end.

(** The matcher: from a live encoding and the enrolled faces to the
    dictionary appended to [detected_faces_data]. *)
Definition match_face (known : list known_face) (face_encoding : encoding)
    (location : rect) (now : datetime) : option detection :=
  match match_loop face_encoding known (None, IEEE.zero) with
  | None => None
  | Some (Some best_match, best_confidence) =>
      Some (Detection (Some (kf_id best_match)) (kf_name best_match)
                      best_confidence location now)
  | Some (None, _) =>
      Some (Detection None "Unknown" IEEE.zero location now)
  end.

(** The body of [for (x, y, w, h) in faces]. *)
Definition detect_face (known : list known_face) (gray : gray)
    (now : datetime) (location : rect) : option detection :=
  match resize (crop gray location) 100 100 with
  | None => None
  | Some face_roi =>
      match_face known (map IEEE.of_uint8 (flatten face_roi)) location now
  end.

(** One detection cycle on a copied frame.  [None]: an exception
    reached the [except] of the loop body.  [now] stands for the clock
    readings taken for the faces of the cycle. *)
Definition detect_cycle (known : list known_face) (frame : frame)
    (now : datetime) : option (list detection) :=
  let gray := cvtColor_BGR2GRAY frame in
  let faces := detectMultiScale gray in
  mapM (detect_face known gray now) faces.

(** *** The two worker loops, one program point at a time *)

(** The threads this object starts. *)
Definition owns (tg : target) : bool :=
  match tg with
  | FaceDetector_capture_frames | FaceDetector_detect_faces => true
  | SimpleCamera_capture_frames => false
  end.

(** The test of [while] in [_capture_frames] and in [_detect_faces]. *)
Definition guard (tg : target) (d : t) : bool :=
  match tg with
  | FaceDetector_capture_frames => is_running d && bool_decide (is_Some (cap d))
  | _ => is_running d
  end.

(** From the head of the loop: leave it, or run the first half of an
    iteration.  [r] is what [cap.read()] returns if it is called,
    [now] the clock. *)
Definition enter_iteration (r : read_result) (now : datetime) (tid : nat)
    (tg : target) (d : t) (w : world) : t * world :=
  if negb (guard tg d) then (d, set_pc tid Finished w)
  else
    match tg with
    | FaceDetector_capture_frames => (d, set_pc tid (Got_read r) w)
    | _ =>
        match current_frame d with
        | None => (d, emit (Ev_sleep 100) w)
        | Some l =>
            match heap w !! l with
            | None => (d, w)
            | Some f =>
                let '(_, w) := alloc f w in
                match detect_cycle (known_faces d) f now with
                | Some ds => (d, set_pc tid (Got_detections ds) w)
                | None =>
                    (d, emit (Ev_sleep 500)
                          (emit (Ev_print "Error in face detection: ") w))
                end
            end
        end
    end.

(** The second half of an iteration: store what the first half
    obtained, pause, and return to the head. *)
Definition complete_iteration (tid : nat) (p : pc) (d : t) (w : world)
    : t * world :=
  match p with
  | Got_read (Read_ok f) =>
      let '(l, w) := alloc f w in
      (set_current_frame (Some l) d, set_pc tid At_head w)
  | Got_read Read_fail =>
      (d, set_pc tid At_head (emit (Ev_sleep 100) w))
  | Got_read Read_raise =>
      (d, set_pc tid At_head
            (emit (Ev_sleep 100) (emit (Ev_print "Error capturing frame: ") w)))
  | Got_detections ds =>
      (set_detected_faces ds d, set_pc tid At_head (emit (Ev_sleep 200) w))
  | At_head | Finished => (d, w)
  end.

(** One scheduling step of worker [tid]. *)
Definition worker_step (r : read_result) (now : datetime) (tid : nat)
    (d : t) (w : world) : t * world :=
  match threads w !! tid with
  | Some (Worker tg p) =>
      if negb (owns tg) then (d, w)
      else
        match p with
        | At_head => enter_iteration r now tid tg d w
        | _ => complete_iteration tid p d w
        end
  | None => (d, w)
  end.

(** [_capture_frames] as run by worker [tid] against the successive
    results of [cap.read()]: one full iteration per result. *)
Fixpoint capture_frames (reads : list read_result) (now : datetime)
    (tid : nat) (d : t) (w : world) : t * world :=
  match reads with
  | [] => (d, w)
  | r :: reads' =>
      let '(d, w) := worker_step r now tid d w in
      let '(d, w) := worker_step r now tid d w in
      capture_frames reads' now tid d w
  end.

(** [thread.join(timeout=2)]: the caller waits until worker [tid] has
    returned or two seconds have passed, whichever comes first.
    [steps] is what the worker gets to do in the meantime: one entry
    per scheduling step, with what [cap.read()] and the clock would
    give it.  A worker that has returned ignores further steps; one
    that has not when the steps are used up is left where it stands,
    and runs on after the caller has gone ahead. *)
Fixpoint join (steps : list (read_result * datetime)) (tid : nat) (d : t)
    (w : world) : t * world :=
  match steps with
  | [] => (d, w)
  | (r, now) :: steps' =>
      let '(d, w) := worker_step r now tid d w in
      join steps' tid d w
  end.

(** [stop_detection]; [during_capture] and [during_detection] are the
    steps the two workers take while they are waited for. *)
Definition stop_detection (during_capture during_detection : list (read_result * datetime))
    (d : t) (w : world) : bool * t * world :=
  let d := set_is_running false d in
  let '(d, w) :=
    match capture_thread d with
    | Some th => join during_capture th d w
    | None => (d, w)
    end in
  let '(d, w) :=
    match detection_thread d with
    | Some th => join during_detection th d w
    | None => (d, w)
    end in
  let '(d, w) :=
    match cap d with
    | Some _ => (set_cap None d, emit Ev_release w)
    | None => (d, w)
    end in
  let d := set_detected_faces [] d in
  let d := set_current_frame None d in
  (true, d, w).

(** *** Annotation *)

Definition draw_rectangle (l : loc) (pt1 pt2 : Z * Z) (color : pixel)
    (thickness : Z) (w : world) : world :=
  emit (Ev_rectangle l pt1 pt2 color thickness)
    (set_heap (alter (fun f => rectangle f pt1 pt2 color thickness) l (heap w)) w).

Definition draw_putText (l : loc) (text : string) (org : Z * Z)
    (color : pixel) (w : world) : world :=
  emit (Ev_putText l text org color)
    (set_heap (alter (fun f => putText f text org color) l (heap w)) w).

(** The body of [for face in detected_faces]; [l] is the local
    [frame]. *)
Definition annotate_face (l : loc) (w0 : world) (face : detection) : world :=
  let '(x, y, w, h) := det_location face in
  let '(color, label) :=
    if truthy_id (det_student_id face)
    then ((0, 255, 0),
          det_name face +:+ " (" +:+ format_percent (det_confidence face) +:+ ")")
    else ((0, 0, 255), "Unknown") in
  let w0 := draw_rectangle l (x, y) (Int32.add x w, Int32.add y h) color 2 w0 in
  let w0 := draw_rectangle l (x, Int32.sub y 30) (Int32.add x w, y) color (-1) w0 in
  draw_putText l label (Int32.add x 5, Int32.sub y 10) (255, 255, 255) w0.

(** [get_current_frame_with_annotations]: the reference returned, if
    any, and the process afterwards.  The drawing calls do not raise,
    so the [except] clause is never entered. *)
Definition get_current_frame_with_annotations (d : t) (w : world)
    : option loc * world :=
  match current_frame d with
  | None => (None, w)
  | Some l0 =>
      match heap w !! l0 with
      | None => (None, w)
      | Some f =>
          let '(l, w) := alloc f w in
          let detected := detected_faces d in
          (Some l, foldl (annotate_face l) w detected)
      end
  end.

(** [get_detected_faces]. *)
Definition get_detected_faces (d : t) : list detection := detected_faces d.

End Matching.

End FaceDetector.

(** ** simple_camera.py *)

Module SimpleCamera.

Record t := Make {
  camera_index : Z;
  cap : option capture;
  running : bool;
  current_frame : option loc;
  capture_thread : option nat      (* [None]: the attribute is not set *)
}.

(** [__init__]. *)
Definition init (camera_index : Z) : t := Make camera_index None false None None.

Definition set_cap (c : option capture) (s : t) : t :=
  Make (camera_index s) c (running s) (current_frame s) (capture_thread s).

Definition set_running (b : bool) (s : t) : t :=
  Make (camera_index s) (cap s) b (current_frame s) (capture_thread s).

Definition set_current_frame (f : option loc) (s : t) : t :=
  Make (camera_index s) (cap s) (running s) f (capture_thread s).

Definition set_capture_thread (th : option nat) (s : t) : t :=
  Make (camera_index s) (cap s) (running s) (current_frame s) th.

(** [start_camera]. *)
Definition start_camera (s : t) (w : world) : bool * t * world :=
  let '(c, w) := VideoCapture (camera_index s) w in
  let s := set_cap (Some c) s in
  if negb (cap_isOpened c) then
    (false, s, emit (Ev_print ("Cannot open camera " +:+ pretty (camera_index s))) w)
  else
    let c := cap_set "CAP_PROP_FRAME_WIDTH" 640 c in
    let c := cap_set "CAP_PROP_FRAME_HEIGHT" 480 c in
    let c := cap_set "CAP_PROP_FPS" 30 c in
    let s := set_cap (Some c) s in
    let s := set_running true s in
    let '(th, w) := spawn SimpleCamera_capture_frames w in
    let s := set_capture_thread (Some th) s in
    (true, s,
     emit (Ev_print ("Camera " +:+ pretty (camera_index s) +:+ " started successfully")) w).

(** [is_running], and the test of [while] in [_capture_frames]. *)
Definition is_running (s : t) : bool :=
  running s && match cap s with Some c => cap_isOpened c | None => false end.

(** From the head of the loop in [_capture_frames]. *)
Definition enter_iteration (r : read_result) (tid : nat) (s : t) (w : world)
    : t * world :=
  if is_running s then (s, set_pc tid (Got_read r) w)
  else (s, set_pc tid Finished w).

(** The rest of the iteration: a read that fails or raises ends the
    loop ([break]). *)
Definition complete_iteration (tid : nat) (p : pc) (s : t) (w : world)
    : t * world :=
  match p with
  | Got_read (Read_ok f) =>
      let '(l, w) := alloc f w in
      (set_current_frame (Some l) s, set_pc tid At_head (emit (Ev_sleep 33) w))
  | Got_read Read_fail =>
      (s, set_pc tid Finished (emit (Ev_print "Failed to read frame from camera") w))
  | Got_read Read_raise =>
      (s, set_pc tid Finished (emit (Ev_print "Error capturing frame: ") w))
  | _ => (s, w)
  end.

Definition worker_step (r : read_result) (tid : nat) (s : t) (w : world)
    : t * world :=
  match threads w !! tid with
  | Some (Worker SimpleCamera_capture_frames At_head) => enter_iteration r tid s w
  | Some (Worker SimpleCamera_capture_frames p) => complete_iteration tid p s w
  | _ => (s, w)
  end.

(** [_capture_frames] as run by worker [tid] against the successive
    results of [cap.read()]. *)
Fixpoint capture_frames (reads : list read_result) (tid : nat) (s : t)
    (w : world) : t * world :=
  match reads with
  | [] => (s, w)
  | r :: reads' =>
      let '(s, w) := worker_step r tid s w in
      let '(s, w) := worker_step r tid s w in
      capture_frames reads' tid s w
  end.

(** [thread.join(timeout=2)], as for the detector: [steps] holds what
    [cap.read()] would give the worker at each step it takes during the
    wait. *)
Fixpoint join (steps : list read_result) (tid : nat) (s : t) (w : world)
    : t * world :=
  match steps with
  | [] => (s, w)
  | r :: steps' =>
      let '(s, w) := worker_step r tid s w in
      join steps' tid s w
  end.

(** [get_frame]: a copy of the stored frame. *)
Definition get_frame (s : t) (w : world) : option loc * world :=
  match current_frame s with
  | None => (None, w)
  | Some l0 =>
      match heap w !! l0 with
      | None => (None, w)
      | Some f => let '(l, w) := alloc f w in (Some l, w)
      end
  end.

(** [stop_camera]; [during] are the steps the worker takes while it is
    waited for. *)
Definition stop_camera (during : list read_result) (s : t) (w : world)
    : bool * t * world :=
  let s := set_running false s in
  let '(s, w) :=
    match capture_thread s with
    | Some th => join during th s w
    | None => (s, w)
    end in
  let '(s, w) :=
    match cap s with
    | Some _ => (set_cap None s, emit Ev_release w)
    | None => (s, w)
    end in
  let s := set_current_frame None s in
  (true, s, emit (Ev_print "Camera stopped successfully") w).

End SimpleCamera.

(** ** database/models.py and the SQLAlchemy session *)

Module Db.

(** Table [students].  The audit columns [created_at] and
    [updated_at] play no part in the routes below and are left out. *)
Record Student := MkStudent {
  s_id : Z;
  s_student_id : string;
  s_name : string;
  s_email : string;
  s_phone : option string;
  s_department : option string;
  s_year : option string;
  s_section : option string;
  s_face_encoding : option encoding;      (* JSON text of the vector *)
  s_image_path : option string;
  s_is_active : bool
}.

(** Table [attendance_records] (without [created_at]). *)
Record AttendanceRecord := MkAttendance {
  a_id : Z;
  a_student_id : Z;
  a_date : date;
  a_time_in : datetime;
  a_time_out : option datetime;
  a_status : string;
  a_confidence_score : option float
}.

(** The store as one request sees it.  Rows added with
    [db.session.add] sit in the open transaction until [commit]; the
    session flushes them before each query, so queries see them. *)
Record t := Make {
  students : list Student;                      (* committed *)
  attendance_records : list AttendanceRecord;   (* committed *)
  new_students : list Student;                  (* open transaction *)
  new_attendance : list AttendanceRecord;       (* open transaction *)
  commits : nat                                 (* COMMITs issued so far *)
}.

Definition empty : t := Make [] [] [] [] 0.

(** The rows a query ranges over. *)
Definition all_students (db : t) : list Student :=
  students db ++ new_students db.

Definition all_attendance (db : t) : list AttendanceRecord :=
  attendance_records db ++ new_attendance db.

(** [Student.get_face_encoding]. *)
Definition get_face_encoding (s : Student) : option encoding := s_face_encoding s.

(** [Student.query.get(id)]. *)
Definition get_student (id : Z) (db : t) : option Student :=
  find (fun s => bool_decide (s_id s = id)) (all_students db).

(** [Student.query.filter_by(student_id=sid).first()]. *)
Definition student_by_student_id (sid : string) (db : t) : option Student :=
  find (fun s => bool_decide (s_student_id s = sid)) (all_students db).

(** [Student.query.filter_by(student_id=sid, is_active=True).first()]. *)
Definition active_student_by_student_id (sid : string) (db : t) : option Student :=
  find (fun s => bool_decide (s_student_id s = sid) && s_is_active s) (all_students db).

(** [Student.query.filter_by(is_active=True).all()]. *)
Definition active_students (db : t) : list Student :=
  filter (fun s => s_is_active s = true) (all_students db).

Definition on_day (student_id : Z) (day : date) (r : AttendanceRecord) : bool :=
  bool_decide (a_student_id r = student_id) && bool_decide (a_date r = day).

(** [AttendanceRecord.query.filter_by(student_id=.., date=..).first()]. *)
Definition attendance_on (student_id : Z) (day : date) (db : t)
    : option AttendanceRecord :=
  find (on_day student_id day) (all_attendance db).

(** The key the database assigns to the next row. *)
Definition next_id (ids : list Z) : Z := foldr Z.max 0 ids + 1.

(** [db.session.add(AttendanceRecord(student_id=.., date=.., time_in=..,
    status=.., confidence_score=..))]. *)
Definition add_attendance (student_id : Z) (day : date) (time_in : datetime)
    (status : string) (confidence_score : option float) (db : t) : t :=
  let id := next_id (map a_id (all_attendance db)) in
  Make (students db) (attendance_records db) (new_students db)
       (new_attendance db ++
          [MkAttendance id student_id day time_in None status confidence_score])
       (commits db).

(** [db.session.add(student)]; the key is assigned by the database. *)
Definition add_student (mk : Z -> Student) (db : t) : t :=
  let id := next_id (map s_id (all_students db)) in
  Make (students db) (attendance_records db) (new_students db ++ [mk id])
       (new_attendance db) (commits db).

(** [db.session.commit()]. *)
Definition commit (db : t) : t :=
  Make (all_students db) (all_attendance db) [] [] (S (commits db)).

(** The rows of [(student, day)]. *)
Definition records_of (student_id : Z) (day : date) (db : t)
    : list AttendanceRecord :=
  filter (fun r => on_day student_id day r = true) (all_attendance db).

End Db.

(** ** utils/helpers.py *)

Module Helpers.

(** [c in s]. *)
Fixpoint contains (c : ascii) (s : string) : bool :=
  match s with
  | EmptyString => false
  | String c' s' => bool_decide (c = c') || contains c s'
  end.

Definition lower_ascii (c : ascii) : ascii :=
  let n := Ascii.nat_of_ascii c in
  if ((65 <=? n) && (n <=? 90))%nat then Ascii.ascii_of_nat (n + 32) else c.

(** [s.lower()] on ASCII text. *)
Fixpoint lower (s : string) : string :=
  match s with
  | EmptyString => EmptyString
  | String c s' => String (lower_ascii c) (lower s')
  end.

(** [s.rsplit('.', 1)[1]] for an [s] that contains a dot: the text
    after the last dot. *)
Fixpoint after_last_dot (s : string) (current : string) : string :=
  match s with
  | EmptyString => current
  | String c s' =>
      if bool_decide (c = "."%char) then after_last_dot s' s'
      else after_last_dot s' current
  end.

(** [allowed_file] with its default set of extensions. *)
Definition allowed_file (filename : string) : bool :=
  contains "."%char filename &&
  bool_decide (lower (after_last_dot filename "") ∈ ["png"; "jpg"; "jpeg"; "gif"]).

(** Python's truth value of [data.get(field)]. *)
Definition filled (v : option string) : bool :=
  match v with
  | Some s => negb (bool_decide (s = ""))
  | None => false
  end.

(** The registration form: [data] in [register_student]. *)
Record student_data := StudentData {
  f_student_id : option string;
  f_name : option string;
  f_email : option string;
  f_phone : option string;
  f_department : option string;
  f_year : option string;
  f_section : option string
}.

(** Text is held as its UTF-8 bytes.  A byte starts a character unless
    it is a continuation byte, [10xxxxxx]. *)
Definition starts_character (c : ascii) : bool :=
  let n := Ascii.nat_of_ascii c in (n <? 128)%nat || (192 <=? n)%nat.

(** [len(s)]: Python counts characters, not bytes. *)
Fixpoint py_len (s : string) : nat :=
  match s with
  | EmptyString => 0%nat
  | String c s' => ((if starts_character c then 1 else 0) + py_len s')%nat
  end.

(** [validate_student_data]. *)
Definition validate_student_data (data : student_data) : list string :=
  (if filled (f_student_id data) then [] else ["Student Id is required"]) ++
  (if filled (f_name data) then [] else ["Name is required"]) ++
  (if filled (f_email data) then [] else ["Email is required"]) ++
  (if filled (f_department data) then [] else ["Department is required"]) ++
  (match f_email data with
   | Some email =>
       if filled (Some email) && negb (contains "@"%char email)
       then ["Invalid email format"] else []
   | None => []
   end) ++
  (match f_student_id data with
   | Some student_id =>
       if filled (Some student_id) && (py_len student_id <? 3)%nat
       then ["Student ID must be at least 3 characters"] else []
   | None => []
   end).

(** [t.strftime("%Y%m%d_%H%M%S")]. *)
Definition strftime_stamp (t : datetime) : string :=
  pretty (d_year (dt_date t)) +:+ two_digits (d_month (dt_date t)) +:+
  two_digits (d_day (dt_date t)) +:+ "_" +:+ two_digits (dt_hour t) +:+
  two_digits (dt_minute t) +:+ two_digits (dt_second t).

(** An uploaded file ([werkzeug.FileStorage]). *)
Record upload := Upload { up_filename : string; up_content : list Byte.byte }.

(** The file system as [file.save] meets it: whether a file can be
    created at a path (its directory exists, the process may write
    there).  [file.save(filepath)] raises where it cannot. *)
Class Disk := { writable : string -> bool }.

(** [save_uploaded_file]: the path written, if any, and the file
    system afterwards.  [secure_filename] is werkzeug's.  When
    [file.save] raises, the [except] clause answers [None] and nothing
    has been written. *)
Definition save_uploaded_file `{Disk} (secure_filename : string -> string)
    (file : upload) (upload_folder prefix : string) (now : datetime)
    (fs : gmap string (list Byte.byte))
    : option string * gmap string (list Byte.byte) :=
  if negb (bool_decide (up_filename file = "")) && allowed_file (up_filename file)
  then
    let secure_name :=
      prefix +:+ strftime_stamp now +:+ "_" +:+ secure_filename (up_filename file) in
    let filepath := upload_folder +:+ "/" +:+ secure_name in
    if writable filepath
    then (Some filepath, <[filepath := up_content file]> fs)
    else (None, fs)                                  (* except Exception *)
  else (None, fs).

(** [get_attendance_status] with [late_threshold_minutes = 15]. *)
Definition get_attendance_status (time_in : option datetime) : string :=
  match time_in with
  | None => "Absent"
  | Some time_in =>
      let class_start_time := DateTime (dt_date time_in) 9 0 0 0 in
      if datetime_leb time_in class_start_time then "Present"
      else if datetime_leb time_in (DateTime (dt_date time_in) 9 15 0 0) then "Late"
      else "Absent"
  end.

End Helpers.

(** ** app.py *)

Module App.

(** The module-level state of [app.py] together with the database,
    the files on disk and the process. *)
Record t := Make {
  FACE_RECOGNITION_AVAILABLE : bool;
  STUDENT_IMAGES_FOLDER : string;
  face_detector : option FaceDetector.t;    (* [None] without the libraries *)
  simple_camera : SimpleCamera.t;
  detection_active : bool;
  face_recognition_active : bool;
  db : Db.t;
  fs : gmap string (list Byte.byte);
  process : world
}.

Definition set_db (x : Db.t) (a : t) : t :=
  Make (FACE_RECOGNITION_AVAILABLE a) (STUDENT_IMAGES_FOLDER a) (face_detector a)
       (simple_camera a) (detection_active a) (face_recognition_active a)
       x (fs a) (process a).

Definition set_fs (x : gmap string (list Byte.byte)) (a : t) : t :=
  Make (FACE_RECOGNITION_AVAILABLE a) (STUDENT_IMAGES_FOLDER a) (face_detector a)
       (simple_camera a) (detection_active a) (face_recognition_active a)
       (db a) x (process a).

Definition set_detector (d : FaceDetector.t) (w : world) (a : t) : t :=
  Make (FACE_RECOGNITION_AVAILABLE a) (STUDENT_IMAGES_FOLDER a) (Some d)
       (simple_camera a) (detection_active a) (face_recognition_active a)
       (db a) (fs a) w.

Definition set_camera (s : SimpleCamera.t) (w : world) (a : t) : t :=
  Make (FACE_RECOGNITION_AVAILABLE a) (STUDENT_IMAGES_FOLDER a) (face_detector a)
       s (detection_active a) (face_recognition_active a)
       (db a) (fs a) w.

Definition set_detection_active (b : bool) (a : t) : t :=
  Make (FACE_RECOGNITION_AVAILABLE a) (STUDENT_IMAGES_FOLDER a) (face_detector a)
       (simple_camera a) b (face_recognition_active a)
       (db a) (fs a) (process a).

Definition set_face_recognition_active (b : bool) (a : t) : t :=
  Make (FACE_RECOGNITION_AVAILABLE a) (STUDENT_IMAGES_FOLDER a) (face_detector a)
       (simple_camera a) (detection_active a) b
       (db a) (fs a) (process a).

(** An entry of [marked_students] in [auto_mark_attendance]. *)
Record marked := Marked {
  m_name : string;
  m_student_id : string;
  m_status : string;
  m_confidence : float
}.

(** What a route answers.  A flash is a message with its category. *)
Inductive reply :=
  | Json (success : bool) (message : string)
  | Json_present (message student_name status time : string)
  | Json_marked (message : string) (marked_students : list marked)
  | Redirect (endpoint : string) (flashes : list (string * string))
  | Render (template : string) (flashes : list (string * string)).

(** The request of [register_student]. *)
Record registration := Registration {
  rq_is_get : bool;
  rq_data : Helpers.student_data;
  rq_image : option Helpers.upload           (* request.files['image'] *)
}.

(** A request of one of the two "mark present" routes. *)
Inductive mark_call :=
  | Manual (student_id : option string)                           (* form field *)
  | Detected (student_id : option Z) (confidence : option float). (* JSON body *)

Section Routes.
Context `{Vision} `{Helpers.Disk}.
Variable secure_filename : string -> string.

(** [start_detection]: the plain camera. *)
Definition start_detection (a : t) : reply * t :=
  if detection_active a then (Json false "Camera already active", a)
  else
    let '(ok, s, w) := SimpleCamera.start_camera (simple_camera a) (process a) in
    let a := set_camera s w a in
    if ok then (Json true "Camera started successfully", set_detection_active true a)
    else (Json false "Failed to start camera. Please check if camera is available.", a).

(** [stop_detection]; [during] as in [SimpleCamera.stop_camera]. *)
Definition stop_detection (during : list read_result) (a : t) : reply * t :=
  let '(_, s, w) := SimpleCamera.stop_camera during (simple_camera a) (process a) in
  (Json true "Camera stopped", set_detection_active false (set_camera s w a)).

(** [students_data] as built by [start_face_recognition]. *)
Definition students_data (x : Db.t) : list FaceDetector.known_face :=
  omap (fun student =>
          match Db.get_face_encoding student with
          | Some face_encoding =>
              Some (FaceDetector.Known (Db.s_id student) (Db.s_name student)
                      (Db.s_student_id student) (Some face_encoding))
          | None => None
          end)
       (Db.active_students x).

(** [start_face_recognition]. *)
Definition start_face_recognition (a : t) : reply * t :=
  if negb (FACE_RECOGNITION_AVAILABLE a) then
    (Json false "Face recognition libraries not installed. Please run setup_face_recognition.py", a)
  else if face_recognition_active a then
    (Json false "Face recognition already active", a)
  else
    match face_detector a with
    | None => (Json false "Face detector not initialized", a)
    | Some d =>
        let data := students_data (db a) in
        match data with
        | [] => (Json false "No students with face encodings found. Please register students first.", a)
        | _ :: _ =>
            let d := FaceDetector.load_known_faces data d in
            let '(ok, d, w) := FaceDetector.start_detection d (process a) in
            let a := set_detector d w a in
            if ok then
              (Json true ("Face recognition started with " +:+
                          pretty (length data) +:+ " known faces"),
               set_face_recognition_active true a)
            else (Json false "Failed to start face recognition", a)
        end
    end.

(** [stop_face_recognition]; the two lists as in
    [FaceDetector.stop_detection]. *)
Definition stop_face_recognition
    (during_capture during_detection : list (read_result * datetime)) (a : t)
    : reply * t :=
  let a :=
    match face_detector a with
    | Some d =>
        if FACE_RECOGNITION_AVAILABLE a then
          let '(_, d, w) :=
            FaceDetector.stop_detection during_capture during_detection d (process a) in
          set_detector d w a
        else a
    | None => a
    end in
  (Json true "Face recognition stopped", set_face_recognition_active false a).

(** [mark_manual_attendance]; [today] and [now] are the two clock
    reads of the request. *)
Definition mark_manual_attendance (student_id : option string)
    (today : date) (now : datetime) (a : t) : reply * t :=
  if negb (Helpers.filled student_id) then
    (Redirect "mark_attendance" [("Student ID is required", "error")], a)
  else
    let student_id := default "" student_id in
    match Db.active_student_by_student_id student_id (db a) with
    | None =>
        (Redirect "mark_attendance"
           [("Student with ID " +:+ student_id +:+ " not found", "error")], a)
    | Some student =>
        match Db.attendance_on (Db.s_id student) today (db a) with
        | Some _ =>
            (Redirect "mark_attendance"
               [(Db.s_name student +:+ " already marked present today", "warning")], a)
        | None =>
            let status := "Present" in
            let x := Db.add_attendance (Db.s_id student) today now status
                       (Some IEEE.lit_1_0) (db a) in
            let x := Db.commit x in
            (Redirect "mark_attendance"
               [(Db.s_name student +:+ " marked " +:+ Helpers.lower status +:+
                 " at " +:+ strftime_HMS now, "success")],
             set_db x a)
        end
    end.

(** [mark_student_present]. *)
Definition mark_student_present (student_id : option Z)
    (confidence : option float) (today : date) (now : datetime) (a : t)
    : reply * t :=
  let confidence := default IEEE.zero confidence in
  if negb (truthy_id student_id) then (Json false "Student ID required", a)
  else
    let student_id := default 0 student_id in
    match Db.get_student student_id (db a) with
    | None => (Json false "Student not found", a)
    | Some student =>
        match Db.attendance_on student_id today (db a) with
        | Some _ =>
            (Json false (Db.s_name student +:+ " already marked present today"), a)
        | None =>
            let status := "Present" in
            let x := Db.add_attendance student_id today now status
                       (Some confidence) (db a) in
            let x := Db.commit x in
            (Json_present (Db.s_name student +:+ " marked " +:+ Helpers.lower status)
               (Db.s_name student) status (strftime_HMS now),
             set_db x a)
        end
    end.

(** Either route, by the shape of the request. *)
Definition mark_present (c : mark_call) (today : date) (now : datetime)
    (a : t) : reply * t :=
  match c with
  | Manual student_id => mark_manual_attendance student_id today now a
  | Detected student_id confidence =>
      mark_student_present student_id confidence today now a
  end.


(** The body of [for face in detected_faces] in
    [auto_mark_attendance]; the pair is the session and
    [marked_students].  The source reads the clock in every turn of the
    loop; one reading, [today] and [now], stands for all of them. *)
Definition auto_mark_face (today : date) (now : datetime)
    (acc : Db.t * list marked) (face : detection) : Db.t * list marked :=
  let '(x, marked_students) := acc in
  if truthy_id (det_student_id face)
     && IEEE.gt (det_confidence face) IEEE.lit_0_3
  then
    let student_id := default 0 (det_student_id face) in
    match Db.get_student student_id x with
    | None => acc                                            (* continue *)
    | Some student =>
        match Db.attendance_on student_id today x with
        | Some _ => acc                                      (* continue *)
        | None =>
            let status := "Present" in
            (Db.add_attendance student_id today now status
               (Some (det_confidence face)) x,
             (marked_students ++
                [Marked (Db.s_name student) (Db.s_student_id student) status
                        (det_confidence face)])%list)
        end
    end
  else acc.

(** [auto_mark_attendance]. *)
Definition auto_mark_attendance (today : date) (now : datetime) (a : t)
    : reply * t :=
  if negb (FACE_RECOGNITION_AVAILABLE a) then
    (Json false "Face recognition not available", a)
  else
    match face_detector a with
    | Some d =>
        if negb (face_recognition_active a) then
          (Json false "Face recognition not active", a)
        else
          let detected_faces := FaceDetector.get_detected_faces d in
          let '(x, marked_students) :=
            foldl (auto_mark_face today now) (db a, []) detected_faces in
          match marked_students with
          | _ :: _ =>
              (Json_marked ("Marked " +:+ pretty (length marked_students) +:+
                            " students present") marked_students,
               set_db (Db.commit x) a)
          | [] => (Json false "No new students to mark present", set_db x a)
          end
    | None => (Json false "Face recognition not active", a)
    end.

(** [register_student]. *)
Definition register_student (rq : registration) (now : datetime) (a : t)
    : reply * t :=
  let page := "register_student.html" in
  if rq_is_get rq then (Render page [], a)
  else
    let data := rq_data rq in
    let errors := Helpers.validate_student_data data in
    match errors with
    | _ :: _ => (Render page (map (fun e => (e, "error")) errors), a)
    | [] =>
        let student_id := default "" (Helpers.f_student_id data) in
        match Db.student_by_student_id student_id (db a) with
        | Some _ => (Render page [("Student ID already exists", "error")], a)
        | None =>
            match rq_image rq with
            | None => (Render page [("Student photo is required", "error")], a)
            | Some file =>
                if bool_decide (Helpers.up_filename file = "") then
                  (Render page [("No image selected", "error")], a)
                else
                  match Helpers.save_uploaded_file secure_filename file
                          (STUDENT_IMAGES_FOLDER a)
                          ("student_" +:+ student_id +:+ "_") now (fs a) with
                  | (None, _) => (Render page [("Error uploading image", "error")], a)
                  | (Some image_path, files) =>
                      let a := set_fs files a in
                      let face_encoding :=
                        if FACE_RECOGNITION_AVAILABLE a
                        then FaceEncoder.encode_face_from_image files image_path
                        else None in
                      if FACE_RECOGNITION_AVAILABLE a
                         && bool_decide (face_encoding = None)
                      then
                        (Render page
                           [("No face detected in the image. Please upload a clear photo.",
                             "error")],
                         set_fs (delete image_path files) a)  (* os.remove *)
                      else
                        let email := default "" (Helpers.f_email data) in
                        if bool_decide (email ∈ map Db.s_email (Db.all_students (db a)))
                        then
                          (* the unique index on [email] makes the commit raise *)
                          (Render page [("Error registering student", "error")], a)
                        else
                          let student id :=
                            Db.MkStudent id student_id
                              (default "" (Helpers.f_name data)) email
                              (Helpers.f_phone data) (Helpers.f_department data)
                              (Helpers.f_year data) (Helpers.f_section data)
                              face_encoding (Some image_path) true in
                          let x := Db.commit (Db.add_student student (db a)) in
                          (Redirect "students"
                             [("Student registered successfully!", "success")],
                           set_db x a)
                  end
            end
        end
    end.

End Routes.

End App.

(** ** The remaining routes of app.py: the model *)

Module Admin.
Import Db.

(** A JSON answer with its HTTP status; [flashed] is the flash the route
    leaves, if any.  Where the source appends the text of a caught
    exception to the message, that text is left out. *)
Record reply := Reply {
  code : Z;
  success : bool;
  message : string;
  flashed : option (string * string)
}.

(** [valid_statuses]. *)
Definition valid_statuses : list string := ["Present"; "Absent"; "Late"; "Excused"].

(** [', '.join(valid_statuses)]. *)
Definition valid_statuses_text : string := "Present, Absent, Late, Excused".

(** *** Rows *)

Definition with_status (status : string) (r : AttendanceRecord) : AttendanceRecord :=
  MkAttendance (a_id r) (a_student_id r) (a_date r) (a_time_in r) (a_time_out r)
               status (a_confidence_score r).

Definition with_time_out (t : datetime) (r : AttendanceRecord) : AttendanceRecord :=
  MkAttendance (a_id r) (a_student_id r) (a_date r) (a_time_in r) (Some t)
               (a_status r) (a_confidence_score r).

Definition deactivated (s : Student) : Student :=
  MkStudent (s_id s) (s_student_id s) (s_name s) (s_email s) (s_phone s)
            (s_department s) (s_year s) (s_section s) (s_face_encoding s)
            (s_image_path s) false.

(** [AttendanceRecord.query.get(id)]. *)
Definition get_attendance (id : Z) (x : Db.t) : option AttendanceRecord :=
  find (fun r => bool_decide (a_id r = id)) (all_attendance x).

(** An attribute assignment on a loaded row, as the next flush writes
    it: [UPDATE attendance_records SET ... WHERE id = ?]. *)
Definition update_attendance (id : Z) (f : AttendanceRecord -> AttendanceRecord)
    (x : Db.t) : Db.t :=
  let upd r := if bool_decide (a_id r = id) then f r else r in
  Db.Make (students x) (map upd (attendance_records x)) (new_students x)
          (map upd (new_attendance x)) (commits x).

(** [UPDATE students SET ... WHERE id = ?]. *)
Definition update_student (id : Z) (f : Student -> Student) (x : Db.t) : Db.t :=
  let upd s := if bool_decide (s_id s = id) then f s else s in
  Db.Make (map upd (students x)) (attendance_records x) (map upd (new_students x))
          (new_attendance x) (commits x).

(** [db.session.delete(record)]. *)
Definition delete_attendance_row (id : Z) (x : Db.t) : Db.t :=
  Db.Make (students x) (filter (fun r => a_id r <> id) (attendance_records x))
          (new_students x) (filter (fun r => a_id r <> id) (new_attendance x))
          (commits x).

(** [AttendanceRecord.query.filter_by(student_id=id).delete()]. *)
Definition delete_attendance_of (student_id : Z) (x : Db.t) : Db.t :=
  Db.Make (students x)
          (filter (fun r => a_student_id r <> student_id) (attendance_records x))
          (new_students x)
          (filter (fun r => a_student_id r <> student_id) (new_attendance x))
          (commits x).

(** [db.session.delete(student)]. *)
Definition delete_student_row (id : Z) (x : Db.t) : Db.t :=
  Db.Make (filter (fun s => s_id s <> id) (students x)) (attendance_records x)
          (filter (fun s => s_id s <> id) (new_students x)) (new_attendance x)
          (commits x).

(** [record.student]: the row the foreign key points to. *)
Definition student_of (r : AttendanceRecord) (x : Db.t) : option Student :=
  get_student (a_student_id r) x.

(** *** Routes.  [get_or_404] raises inside the [try] of the route, so a
    missing row is answered by the [except] clause, with status 500. *)

(** [delete_student]: the soft delete. *)
Definition delete_student (student_id : Z) (a : App.t) : reply * App.t :=
  match get_student student_id (App.db a) with
  | None => (Reply 500 false "Error deleting student: " None, a)
  | Some student =>
      let x := update_student student_id deactivated (App.db a) in
      let x := commit x in
      let text := "Student " +:+ s_name student +:+ " deleted successfully" in
      (Reply 200 true text (Some (text, "success")), App.set_db x a)
  end.

(** [permanently_delete_student]. *)
Definition permanently_delete_student (student_id : Z) (a : App.t) : reply * App.t :=
  match get_student student_id (App.db a) with
  | None => (Reply 500 false "Error permanently deleting student: " None, a)
  | Some student =>
      let x := delete_attendance_of student_id (App.db a) in
      let files :=
        match s_image_path student with
        | Some path =>
            if negb (bool_decide (path = "")) && bool_decide (is_Some (App.fs a !! path))
            then delete path (App.fs a) else App.fs a
        | None => App.fs a
        end in
      let x := delete_student_row student_id x in
      let x := commit x in
      let text := "Student " +:+ s_name student +:+ " permanently deleted" in
      (Reply 200 true text (Some (text, "success")), App.set_fs files (App.set_db x a))
  end.

(** [update_attendance_status]; the arguments are the two fields of the
    JSON body. *)
Definition update_attendance_status (record_id : option Z)
    (new_status : option string) (a : App.t) : reply * App.t :=
  if negb (truthy_id record_id) || negb (Helpers.filled new_status) then
    (Reply 400 false "Record ID and status are required" None, a)
  else
    let record_id := default 0 record_id in
    let new_status := default "" new_status in
    if negb (bool_decide (new_status ∈ valid_statuses)) then
      (Reply 400 false ("Invalid status. Must be one of: " +:+ valid_statuses_text) None, a)
    else
      match get_attendance record_id (App.db a) with
      | None => (Reply 500 false "Error updating status: " None, a)
      | Some attendance_record =>
          match student_of attendance_record (App.db a) with
          | None => (Reply 404 false "Student not found for this record" None, a)
          | Some student =>
              let old_status := a_status attendance_record in
              let x := update_attendance record_id (with_status new_status) (App.db a) in
              let x := commit x in
              (Reply 200 true
                 ("Updated " +:+ s_name student +:+ " status from " +:+ old_status +:+
                  " to " +:+ new_status) None,
               App.set_db x a)
          end
      end.

(** [mark_student_status].  The branch for a student without a record
    calls [AttendanceRecord(..., marked_by='Manual')]; the table has no
    such column, the constructor raises, and the [except] clause
    answers. *)
Definition mark_student_status (student_id : Z) (status : string) (today : date)
    (a : App.t) : reply * App.t :=
  if negb (bool_decide (status ∈ valid_statuses)) then
    (Reply 400 false ("Invalid status. Must be one of: " +:+ valid_statuses_text) None, a)
  else
    match get_student student_id (App.db a) with
    | None => (Reply 404 false "Student not found" None, a)
    | Some student =>
        match attendance_on student_id today (App.db a) with
        | Some attendance_record =>
            let x := update_attendance (a_id attendance_record) (with_status status)
                       (App.db a) in
            let text := "Updated " +:+ s_name student +:+ " status to " +:+ status in
            let x := commit x in
            (Reply 200 true text (Some (text, "success")), App.set_db x a)
        | None => (Reply 500 false "Error marking status: " None, a)
        end
    end.

(** [mark_time_out]. *)
Definition mark_time_out (record_id : Z) (now : datetime) (a : App.t)
    : reply * App.t :=
  match get_attendance record_id (App.db a) with
  | None => (Reply 500 false "Error marking time out: " None, a)
  | Some record =>
      match a_time_out record with
      | Some _ => (Reply 400 false "Time out already marked for this record" None, a)
      | None =>
          let x := update_attendance record_id (with_time_out now) (App.db a) in
          let x := commit x in
          (Reply 200 true ("Time out marked at " +:+ strftime_HMS now) None,
           App.set_db x a)
      end
  end.

(** [delete_attendance]. *)
Definition delete_attendance (record_id : Z) (a : App.t) : reply * App.t :=
  match get_attendance record_id (App.db a) with
  | None => (Reply 500 false "Error deleting record: " None, a)
  | Some record =>
      let student_name :=
        match student_of record (App.db a) with
        | Some student => s_name student
        | None => "Unknown"
        end in
      let x := delete_attendance_row record_id (App.db a) in
      let x := commit x in
      (Reply 200 true
         ("Attendance record for " +:+ student_name +:+ " deleted successfully") None,
       App.set_db x a)
  end.

End Admin.

(** *** Any request, and runs of requests *)

(** The requests that act on the store or on a session.  A stop request
    comes with the steps its workers take while the route waits for
    them. *)
Inductive request :=
  | Rq_register (rq : App.registration)
  | Rq_mark (c : App.mark_call)
  | Rq_auto_mark
  | Rq_delete_student (student_id : Z)
  | Rq_permanently_delete_student (student_id : Z)
  | Rq_update_attendance_status (record_id : option Z) (status : option string)
  | Rq_mark_student_status (student_id : Z) (status : string)
  | Rq_mark_time_out (record_id : Z)
  | Rq_delete_attendance (record_id : Z)
  | Rq_start_detection
  | Rq_stop_detection (during : list read_result)
  | Rq_start_face_recognition
  | Rq_stop_face_recognition
      (during_capture during_detection : list (read_result * datetime)).

Section Requests.
Context `{Vision} `{Helpers.Disk}.
Variable secure_filename : string -> string.

(** The state after a request, served with the clock at [today], [now]. *)
Definition handle (rq : request) (today : date) (now : datetime) (a : App.t) : App.t :=
  match rq with
  | Rq_register r => (App.register_student secure_filename r now a).2
  | Rq_mark c => (App.mark_present c today now a).2
  | Rq_auto_mark => (App.auto_mark_attendance today now a).2
  | Rq_delete_student id => (Admin.delete_student id a).2
  | Rq_permanently_delete_student id => (Admin.permanently_delete_student id a).2
  | Rq_update_attendance_status id st => (Admin.update_attendance_status id st a).2
  | Rq_mark_student_status id st => (Admin.mark_student_status id st today a).2
  | Rq_mark_time_out id => (Admin.mark_time_out id now a).2
  | Rq_delete_attendance id => (Admin.delete_attendance id a).2
  | Rq_start_detection => (App.start_detection a).2
  | Rq_stop_detection during => (App.stop_detection during a).2
  | Rq_start_face_recognition => (App.start_face_recognition a).2
  | Rq_stop_face_recognition during_capture during_detection =>
      (App.stop_face_recognition during_capture during_detection a).2
  end.

(** Requests served one after the other. *)
Fixpoint run (rqs : list (request * date * datetime)) (a : App.t) : App.t :=
  match rqs with
  | [] => a
  | (rq, today, now) :: rqs' => run rqs' (handle rq today now a)
  end.

End Requests.

(** *** Requests and workers interleaved *)

(** What can happen next in the process: a request is served, or one of
    the worker threads is scheduled for one step.  [r] is what
    [cap.read()] returns if the step calls it. *)
Inductive action :=
  | Act_request (rq : request) (today : date) (now : datetime)
  | Act_detector_worker (r : read_result) (now : datetime) (tid : nat)
  | Act_camera_worker (r : read_result) (tid : nat).

Section Play.
Context `{Vision} `{Helpers.Disk}.
Variable secure_filename : string -> string.

Definition act (x : action) (a : App.t) : App.t :=
  match x with
  | Act_request rq today now => handle secure_filename rq today now a
  | Act_detector_worker r now tid =>
      match App.face_detector a with
      | Some d =>
          let '(d, w) := FaceDetector.worker_step r now tid d (App.process a) in
          App.set_detector d w a
      | None => a
      end
  | Act_camera_worker r tid =>
      let '(s, w) :=
        SimpleCamera.worker_step r tid (App.simple_camera a) (App.process a) in
      App.set_camera s w a
  end.

(** A schedule played from state [a]. *)
Fixpoint play (xs : list action) (a : App.t) : App.t :=
  match xs with
  | [] => a
  | x :: xs' => play xs' (act x a)
  end.

End Play.

(** ** The video feed: [get_frame_with_overlay] and [generate_frames] *)

Module Feed.

Section Feed.
Context `{Vision}.

(** Pixels covered by
    [cv2.putText(_, text, org, FONT_HERSHEY_SIMPLEX, 0.7, _, 2)]. *)
Variable putText_cover_large : string -> Z * Z -> Z -> Z -> bool.

(** [cv2.imencode('.jpg', frame)]: the buffer, [None] when [ret] is
    false. *)
Variable imencode_jpg : frame -> option (list Byte.byte).

(** [time.strftime("%Y-%m-%d %H:%M:%S")]. *)
Definition strftime_full (t : datetime) : string :=
  pretty (d_year (dt_date t)) +:+ "-" +:+ two_digits (d_month (dt_date t)) +:+ "-" +:+
  two_digits (d_day (dt_date t)) +:+ " " +:+ strftime_HMS t.

(** The first [cv2.putText] of the overlay, at scale 0.7. *)
Definition draw_putText_large (l : loc) (text : string) (org : Z * Z)
    (color : pixel) (w : world) : world :=
  emit (Ev_putText l text org color)
    (set_heap (alter (paint (putText_cover_large text org) color) l (heap w)) w).

(** [SimpleCamera.get_frame_with_overlay]. *)
Definition get_frame_with_overlay (now : datetime) (s : SimpleCamera.t) (w : world)
    : option loc * world :=
  match SimpleCamera.get_frame s w with
  | (Some frame, w) =>
      let timestamp := strftime_full now in
      let w := draw_putText_large frame timestamp (10, 30) (0, 255, 0) w in
      let w := FaceDetector.draw_putText frame "Camera Active - Manual Attendance Mode"
                 (10, 60) (255, 255, 255) w in
      (Some frame, w)
  | (None, w) => (None, w)
  end.

(** [if face_recognition_active and FACE_RECOGNITION_AVAILABLE and
    face_detector: frame = ...], from [frame = None]. *)
Definition recognition_frame (a : App.t) (w : world) : option loc * world :=
  match App.face_detector a with
  | Some d =>
      if App.face_recognition_active a && App.FACE_RECOGNITION_AVAILABLE a
      then FaceDetector.get_current_frame_with_annotations d w
      else (None, w)
  | None => (None, w)
  end.

(** [if frame is None and detection_active and simple_camera and
    simple_camera.is_running(): frame = ...]. *)
Definition camera_frame (now : datetime) (a : App.t) (frame : option loc) (w : world)
    : option loc * world :=
  match frame with
  | Some _ => (frame, w)
  | None =>
      if App.detection_active a && SimpleCamera.is_running (App.simple_camera a)
      then get_frame_with_overlay now (App.simple_camera a) w
      else (None, w)
  end.

(** One turn of [while] in [generate_frames].  [None]: the test of the
    loop fails and the generator ends.  Otherwise the JPEG bytes of the
    part yielded, if one is, and the state after the pause. *)
Definition generate_frames_turn (now : datetime) (a : App.t)
    : option (option (list Byte.byte) * App.t) :=
  if negb (App.detection_active a || App.face_recognition_active a) then None
  else
    let '(frame, w) := recognition_frame a (App.process a) in
    let '(frame, w) := camera_frame now a frame w in
    let part :=
      match frame with
      | Some l =>
          match heap w !! l with
          | Some f => imencode_jpg f
          | None => None
          end
      | None => None
      end in
    Some (part, App.set_camera (App.simple_camera a) (emit (Ev_sleep 33) w) a).

End Feed.

End Feed.

(* ===================================================================== *)
(** * Part II. Properties                                                 *)
(* ===================================================================== *)

(** ** Order facts on IEEE values *)

Module IEEE_facts.
Import IEEE.

Ltac cmp_cases :=
  repeat match goal with
    | |- context [Z.compare ?x ?y] => destruct (Z.compare_spec x y); subst
    | |- context [Pos.compare_cont Eq ?x ?y] =>
        change (Pos.compare_cont Eq x y) with (Pos.compare x y);
        destruct (Pos.compare_spec x y); subst
    | H : context [Z.compare ?x ?y] |- _ => destruct (Z.compare_spec x y); subst
    | H : context [Pos.compare_cont Eq ?x ?y] |- _ =>
        change (Pos.compare_cont Eq x y) with (Pos.compare x y) in H;
        destruct (Pos.compare_spec x y); subst
    end.

(** Case analysis on signs, classes, exponents and mantissas. *)
Ltac float_order :=
  unfold gt, le, isnan, SFltb, SFleb, SFcompare;
  repeat match goal with
    | x : spec_float |- _ => destruct x as [[]|[]| |[] ? ?]
    end;
  intros; simpl in *; try congruence;
  cmp_cases; simpl in *; try congruence; try lia;
  try (left; congruence); try (right; congruence);
  try (left; lia); try (right; lia).

Lemma gt_irrefl a : gt a a = false.
Proof. float_order. Qed.

Lemma gt_trans a b c : gt a b = true -> gt b c = true -> gt a c = true.
Proof. float_order. Qed.

(** [gt] is a strict weak order on the values that are not NaN. *)
Lemma gt_cotrans a b c :
  isnan b = false -> gt a c = true -> gt a b = true \/ gt b c = true.
Proof. float_order. Qed.

Lemma gt_not_nan a b : gt a b = true -> isnan a = false /\ isnan b = false.
Proof. float_order; split; congruence. Qed.

Lemma gt_not_le a b : gt a b = true -> le a b = false.
Proof. float_order. Qed.

Lemma not_nan_gt_or_le a b :
  isnan a = false -> isnan b = false -> gt a b = true \/ le a b = true.
Proof. float_order. Qed.

Lemma lit_0_3_positive : gt lit_0_3 zero = true.
Proof. reflexivity. Qed.

Lemma gt_lit_0_3_gt_zero c : gt c lit_0_3 = true -> gt c zero = true.
Proof. intros Hc. exact (gt_trans _ _ _ Hc lit_0_3_positive). Qed.

End IEEE_facts.

(** ** The matcher *)

Section MatcherSpec.
Context `{Vision}.
Import FaceDetector.

(** The correlation of an enrolled face with the live encoding, when
    there is one: the face has an encoding and numpy returns. *)
Definition correlation (live : encoding) (k : known_face) : option float :=
  match kf_face_encoding k with
  | Some e => corrcoef live e
  | None => None
  end.

(** A correlation that is a number and exceeds the threshold. *)
Definition candidate (c : float) : Prop :=
  IEEE.isnan c = false /\ IEEE.gt c IEEE.lit_0_3 = true.

(** numpy raised on one of the enrolled faces. *)
Definition raised (live : encoding) (known : list known_face) : Prop :=
  exists k e, k ∈ known /\ kf_face_encoding k = Some e /\ corrcoef live e = None.

(** No enrolled face is a candidate. *)
Definition no_candidate (live : encoding) (known : list known_face) : Prop :=
  forall k c, k ∈ known -> correlation live k = Some c -> ~ candidate c.

(** Entry [i] of [known], with correlation [c], is the candidate of
    highest correlation, and the first such. *)
Definition first_best (live : encoding) (known : list known_face)
    (i : nat) (k : known_face) (c : float) : Prop :=
  known !! i = Some k /\ correlation live k = Some c /\ candidate c /\
  (forall j k' c', known !! j = Some k' -> correlation live k' = Some c' ->
                   candidate c' -> IEEE.gt c' c = false) /\
  (forall j k' c', (j < i)%nat -> known !! j = Some k' ->
                   correlation live k' = Some c' -> candidate c' ->
                   IEEE.gt c c' = true).

(** What [(best_match, best_confidence)] is once [seen] has been
    scanned. *)
Definition scanned (live : encoding) (seen : list known_face)
    (best : option known_face * float) : Prop :=
  match best with
  | (None, c) => c = IEEE.zero /\ no_candidate live seen
  | (Some k, c) => exists i, first_best live seen i k c
  end.

Lemma scanned_nil live : scanned live [] (None, IEEE.zero).
Proof.
  split; [reflexivity|]. intros k c Hk. apply elem_of_nil in Hk. destruct Hk.
Qed.

Lemma match_step_correlation live best k best' :
  match_step live best k = Some best' ->
  best' = best /\ (forall c, correlation live k = Some c ->
                    ~ (candidate c /\ IEEE.gt c (snd best) = true))
  \/ exists c, correlation live k = Some c /\ candidate c /\
               IEEE.gt c (snd best) = true /\ best' = (Some k, c).
Proof.
  unfold match_step, correlation.
  destruct (kf_face_encoding k) as [e|]; [|intros [= <-]; left; split; [done|congruence]].
  destruct (corrcoef live e) as [c|]; [|discriminate].
  destruct (IEEE.isnan c) eqn:Hnan; simpl.
  - intros [= <-]. left. split; [done|].
    intros c' [= <-] [[Hn _] _]. congruence.
  - destruct (IEEE.gt c (snd best)) eqn:Hgt; simpl.
    + destruct (IEEE.gt c IEEE.lit_0_3) eqn:Hthr; intros [= <-].
      * right. exists c. repeat split; done.
      * left. split; [done|]. intros c' [= <-] [[_ Ht] _]. congruence.
    + intros [= <-]. left. split; [done|].
      intros c' [= <-] [_ Hg]. congruence.
Qed.

Lemma match_step_scanned live seen best k best' :
  scanned live seen best ->
  match_step live best k = Some best' ->
  scanned live (seen ++ [k]) best'.
Proof.
  intros Hinv Hstep.
  destruct (match_step_correlation _ _ _ _ Hstep) as [[-> Hno]|(c & Hc & Hcand & Hgt & ->)].
  - (* the entry does not replace the best so far *)
    destruct best as [[kb|] cb]; simpl in *.
    + destruct Hinv as (i & Hi & Hcb & Hcandb & Hmax & Hfirst).
      exists i. split; [|split; [done|split; [done|split]]].
      * apply lookup_app_l_Some. exact Hi.
      * intros j k' c' Hj Hk' Hc'.
        apply lookup_app_Some in Hj as [Hj|[_ Hj]]; [eauto|].
        apply list_lookup_singleton_Some in Hj as [_ <-].
        destruct (IEEE.gt c' cb) eqn:E; [|done].
        destruct (Hno c' Hk'). split; done.
      * intros j k' c' Hlt Hj Hk' Hc'.
        apply lookup_app_Some in Hj as [Hj|[Hge _]]; [eauto|].
        apply lookup_lt_Some in Hi. lia.
    + destruct Hinv as [-> Hnone]. split; [done|].
      intros k' c' Hin Hk' Hc'.
      apply elem_of_app in Hin as [Hin|Hin]; [exact (Hnone _ _ Hin Hk' Hc')|].
      apply list_elem_of_singleton in Hin as ->.
      apply (Hno c' Hk'). split; [done|].
      apply IEEE_facts.gt_lit_0_3_gt_zero, Hc'.
  - (* the entry becomes the best *)
    exists (length seen). split; [|split; [done|split; [done|split]]].
    + rewrite lookup_app_r by lia. by rewrite Nat.sub_diag.
    + intros j k' c' Hj Hk' Hc'.
      apply lookup_app_Some in Hj as [Hj|[_ Hj]].
      * destruct best as [[kb|] cb]; simpl in *.
        -- destruct Hinv as (i & _ & _ & _ & Hmax & _).
           destruct (IEEE.gt c' c) eqn:E; [|done].
           rewrite <- (Hmax _ _ _ Hj Hk' Hc').
           symmetry. exact (IEEE_facts.gt_trans _ _ _ E Hgt).
        -- destruct Hinv as [_ Hnone].
           destruct (Hnone k' c'); [|done..].
           eapply list_elem_of_lookup_2, Hj.
      * apply list_lookup_singleton_Some in Hj as [_ <-].
        assert (c' = c) as -> by congruence. apply IEEE_facts.gt_irrefl.
    + intros j k' c' Hlt Hj Hk' Hc'.
      apply lookup_app_Some in Hj as [Hj|[Hge _]]; [|lia].
      destruct best as [[kb|] cb]; simpl in *.
      * destruct Hinv as (i & _ & _ & _ & Hmax & _).
        destruct (IEEE_facts.gt_cotrans c c' cb (proj1 Hc') Hgt) as [?|Hbad]; [done|].
        rewrite (Hmax _ _ _ Hj Hk' Hc') in Hbad. discriminate.
      * destruct Hinv as [_ Hnone].
        destruct (Hnone k' c'); [|done..].
        eapply list_elem_of_lookup_2, Hj.
Qed.

Lemma match_loop_scanned live known : forall seen best best',
  scanned live seen best ->
  match_loop live known best = Some best' ->
  scanned live (seen ++ known) best'.
Proof.
  induction known as [|k known IH]; intros seen best best' Hinv; simpl.
  - intros [= <-]. by rewrite app_nil_r.
  - destruct (match_step live best k) as [best1|] eqn:Hstep; [|discriminate].
    intros Hloop. rewrite cons_middle, app_assoc.
    eapply IH; [|exact Hloop]. eapply match_step_scanned; eauto.
Qed.

Lemma match_loop_raised live known : forall best,
  match_loop live known best = None -> raised live known.
Proof.
  induction known as [|k known IH]; intros best; simpl; [discriminate|].
  destruct (match_step live best k) as [best1|] eqn:Hstep.
  - intros Hloop. destruct (IH _ Hloop) as (k' & e & Hin & He & Hc).
    exists k', e. split; [apply elem_of_cons; by right|done].
  - intros _. unfold match_step in Hstep.
    destruct (kf_face_encoding k) as [e|] eqn:He; [|discriminate].
    destruct (corrcoef live e) as [c|] eqn:Hc.
    + destruct (_ && _); discriminate.
    + exists k, e. split; [apply elem_of_cons; by left|done].
Qed.

(** C1.  The matcher on a live encoding and the enrolled faces.  When
    it produces a detection, either no enrolled face has a correlation
    that is a number above 0.3 and the detection is the unknown one
    (no student id, name "Unknown", confidence 0), or the detection
    names the enrolled face whose correlation is a number, is above
    0.3 (so neither NaN nor at or below the threshold), is not
    exceeded by any other candidate, and strictly exceeds that of
    every candidate listed earlier; its confidence is that
    correlation.  It produces no detection only when numpy raised. *)
Theorem match_face_selects known live location now :
  match match_face known live location now with
  | None => raised live known
  | Some d =>
      (no_candidate live known ->
       d = Detection None "Unknown" IEEE.zero location now) /\
      ((no_candidate live known /\
        d = Detection None "Unknown" IEEE.zero location now)
       \/ exists i k c,
            first_best live known i k c /\
            IEEE.isnan c = false /\ IEEE.le c IEEE.lit_0_3 = false /\
            d = Detection (Some (kf_id k)) (kf_name k) c location now)
  end.
Proof.
  unfold match_face.
  destruct (match_loop live known (None, IEEE.zero)) as [[best c]|] eqn:Hloop.
  - pose proof (match_loop_scanned live known [] _ _ (scanned_nil live) Hloop) as Hinv.
    simpl in Hinv. destruct best as [k|].
    + destruct Hinv as (i & Hbest). split.
      * intros Hnone. destruct Hbest as (Hi & Hc & Hcand & _).
        destruct (Hnone k c); [|done..]. eapply list_elem_of_lookup_2, Hi.
      * right. exists i, k, c. split; [done|].
        destruct Hbest as (_ & _ & [Hnan Hgt] & _).
        split; [done|]. split; [|done]. by apply IEEE_facts.gt_not_le.
    + destruct Hinv as [-> Hnone]. split; [done|]. left. done.
  - eapply match_loop_raised, Hloop.
Qed.

End MatcherSpec.

(** ** The encoder *)

Section PyMax.
Context {A : Type} (key : A -> Z).

(** [l !! i] is the first element of [l] of greatest key. *)
Definition first_max (l : list A) (i : nat) (x : A) : Prop :=
  l !! i = Some x /\
  (forall j y, l !! j = Some y -> key y <= key x) /\
  (forall j y, (j < i)%nat -> l !! j = Some y -> key y < key x).

Lemma py_max_first_max_from rest : forall seen i best,
  first_max seen i best ->
  exists i', first_max (seen ++ rest) i' (py_max key best rest).
Proof.
  induction rest as [|x rest IH]; intros seen i best Hbest; simpl.
  - exists i. by rewrite app_nil_r.
  - destruct Hbest as (Hi & Hmax & Hfirst).
    rewrite cons_middle, app_assoc.
    destruct (Z.ltb_spec (key best) (key x)) as [Hlt|Hge].
    + apply (IH (seen ++ [x]) (length seen)). split; [|split].
      * rewrite lookup_app_r by lia. by rewrite Nat.sub_diag.
      * intros j y Hj. apply lookup_app_Some in Hj as [Hj|[_ Hj]].
        -- specialize (Hmax _ _ Hj). lia.
        -- apply list_lookup_singleton_Some in Hj as [_ <-]. lia.
      * intros j y Hlt' Hj. apply lookup_app_Some in Hj as [Hj|[Hge _]]; [|lia].
        specialize (Hmax _ _ Hj). lia.
    + apply (IH (seen ++ [x]) i). split; [|split].
      * by apply lookup_app_l_Some.
      * intros j y Hj. apply lookup_app_Some in Hj as [Hj|[_ Hj]]; [eauto|].
        apply list_lookup_singleton_Some in Hj as [_ <-]. lia.
      * intros j y Hlt' Hj. apply lookup_app_Some in Hj as [Hj|[Hge' _]]; [eauto|].
        apply lookup_lt_Some in Hi. lia.
Qed.

Lemma py_max_first_max x rest :
  exists i, first_max (x :: rest) i (py_max key x rest).
Proof.
  apply (py_max_first_max_from rest [x] 0%nat x). split; [done|split].
  - intros j y Hj. apply list_lookup_singleton_Some in Hj as [_ <-]. lia.
  - intros j y Hlt. lia.
Qed.

End PyMax.

Lemma first_max_ext {A} (key key' : A -> Z) (l : list A) i x :
  (forall y, y ∈ l -> key y = key' y) ->
  first_max key l i x -> first_max key' l i x.
Proof.
  intros Heq (Hi & Hmax & Hfirst).
  assert (key x = key' x) as Hx by (eapply Heq, list_elem_of_lookup_2, Hi).
  split; [done|split].
  - intros j y Hj. rewrite <- Hx, <- (Heq y) by (eapply list_elem_of_lookup_2, Hj). eauto.
  - intros j y Hlt Hj. rewrite <- Hx, <- (Heq y) by (eapply list_elem_of_lookup_2, Hj). eauto.
Qed.

Lemma wrap_in_range z : Int32.in_range z -> Int32.wrap z = z.
Proof.
  unfold Int32.in_range, Int32.wrap, Int32.half, Int32.modulus. intros Hz.
  rewrite Z.mod_small; lia.
Qed.

Lemma length_tabulate {A} rows cols (f : nat -> nat -> A) :
  length (tabulate rows cols f) = rows.
Proof. unfold tabulate. by rewrite length_map, length_seq. Qed.

Lemma Forall_length_tabulate {A} rows cols (f : nat -> nat -> A) :
  Forall (fun row => length row = cols) (tabulate rows cols f).
Proof.
  unfold tabulate. apply Forall_map, Forall_forall. intros i _. simpl.
  by rewrite length_map, length_seq.
Qed.

Lemma length_flatten_uniform {A} (img : list (list A)) cols :
  Forall (fun row => length row = cols) img ->
  length (flatten img) = (length img * cols)%nat.
Proof.
  unfold flatten. induction 1 as [|row img Hrow _ IH]; simpl; [done|].
  rewrite length_app, IH, Hrow. lia.
Qed.

Lemma lookup_flatten_rows {A} cols (f : nat -> nat -> A) j n : forall a i,
  (i < n)%nat -> (j < cols)%nat ->
  flatten (map (fun i => map (fun j => f i j) (seq 0 cols)) (seq a n))
    !! (i * cols + j)%nat = Some (f (a + i)%nat j).
Proof.
  unfold flatten. induction n as [|n IH]; intros a i Hi Hj; [lia|]. simpl.
  destruct i as [|i].
  - rewrite lookup_app_l by (by rewrite length_map, length_seq).
    rewrite Nat.add_0_r. simpl. change (map ?g ?l !! j) with ((g <$> l) !! j).
    rewrite list_lookup_fmap.
    by rewrite (proj2 (lookup_seq 0 cols j j)) by (split; [done|lia]).
  - rewrite lookup_app_r by (rewrite length_map, length_seq; simpl; lia).
    rewrite length_map, length_seq.
    replace (S i * cols + j - cols)%nat with (i * cols + j)%nat by (simpl; lia).
    rewrite (IH (S a) i) by lia. do 2 f_equal. lia.
Qed.

(** Entry [i * cols + j] of the flattened image is pixel (i, j). *)
Lemma lookup_flatten_tabulate {A} rows cols (f : nat -> nat -> A) i j :
  (i < rows)%nat -> (j < cols)%nat ->
  flatten (tabulate rows cols f) !! (i * cols + j)%nat = Some (f i j).
Proof. intros Hi Hj. unfold tabulate. by rewrite (lookup_flatten_rows cols f j rows 0 i). Qed.

(** A slice whose bounds lie inside the list. *)
Lemma slice_within {A} a b (l : list A) :
  0 <= a <= b -> b <= Z.of_nat (length l) ->
  slice a b l = take (Z.to_nat (b - a)) (drop (Z.to_nat a) l).
Proof.
  intros Hab Hb. unfold slice, slice_index.
  rewrite !(proj2 (Z.ltb_ge _ 0)) by lia. by rewrite !Z.min_l by lia.
Qed.

Lemma length_slice_within {A} a b (l : list A) :
  0 <= a <= b -> b <= Z.of_nat (length l) ->
  length (slice a b l) = Z.to_nat (b - a).
Proof.
  intros Hab Hb. rewrite slice_within by done.
  rewrite length_take, length_drop. lia.
Qed.

Lemma lookup_slice_within {A} a b (l : list A) i :
  0 <= a <= b -> b <= Z.of_nat (length l) -> (i < Z.to_nat (b - a))%nat ->
  slice a b l !! i = l !! (Z.to_nat a + i)%nat.
Proof.
  intros Hab Hb Hi. rewrite slice_within by done.
  by rewrite lookup_take_lt, lookup_drop.
Qed.

Section EncoderSpec.
Context `{Vision}.
Import FaceEncoder.

(** The area [w * h] of a region, as a number. *)
Definition true_area (r : rect) : Z := let '(_, _, w, h) := r in w * h.

(** A region reported on [g] is not degenerate: its sides are positive,
    its area fits the 32-bit result type, and it covers at least one
    pixel of [g]. *)
Definition window_ok (g : gray) (r : rect) : Prop :=
  let '(_, _, w, h) := r in
  0 < w /\ 0 < h /\ w * h < Int32.half /\ is_empty (crop g r) = false.

(** The cascade detector reports such regions only. *)
Definition detector_sound : Prop :=
  forall g r, r ∈ detectMultiScale g -> window_ok g r.

Lemma area_true_area g r : window_ok g r -> area r = true_area r.
Proof.
  destruct r as [[[x y] w] h]. unfold window_ok, area, true_area, Int32.mul.
  intros (Hw & Hh & Harea & _). apply wrap_in_range.
  unfold Int32.in_range, Int32.half in *. nia.
Qed.

(** The vector computed from a region of [g]: crop, resize to 100 x 100,
    flatten, cast. *)
Definition encoding_of (g : gray) (r : rect) : option encoding :=
  match resize (crop g r) 100 100 with
  | Some face_roi => Some (map IEEE.of_uint8 (flatten face_roi))
  | None => None
  end.

Lemma encoding_of_length g r v : encoding_of g r = Some v -> length v = (100 * 100)%nat.
Proof.
  unfold encoding_of, resize. destruct (is_empty (crop g r)); [discriminate|].
  intros Hv. apply (inj Some) in Hv. subst v. rewrite length_map.
  rewrite (length_flatten_uniform _ 100) by apply Forall_length_tabulate.
  by rewrite length_tabulate.
Qed.

Lemma encoding_of_window_ok g r : window_ok g r -> is_Some (encoding_of g r).
Proof.
  destruct r as [[[x y] w] h]. intros (_ & _ & _ & Hne).
  unfold encoding_of, resize. rewrite Hne. eauto.
Qed.

(** What [encode_image] selects and returns. *)
Lemma encode_image_spec image :
  detector_sound ->
  let g := cvtColor_BGR2GRAY image in
  match detectMultiScale g with
  | [] => encode_image image = None
  | faces =>
      exists i r v,
        first_max true_area faces i r /\
        encoding_of g r = Some v /\ length v = (100 * 100)%nat /\
        encode_image image = Some v
  end.
Proof.
  intros Hsound g. unfold encode_image. fold g.
  destruct (detectMultiScale g) as [|f0 rest] eqn:Hfaces; [done|].
  destruct (py_max_first_max area f0 rest) as (i & Hmax).
  set (r := py_max area f0 rest) in *.
  assert (forall y, y ∈ f0 :: rest -> window_ok g y) as Hok.
  { intros y Hy. apply Hsound. by rewrite Hfaces. }
  assert (window_ok g r) as Hr.
  { apply Hok. eapply list_elem_of_lookup_2, (proj1 Hmax). }
  destruct (encoding_of_window_ok g r Hr) as [v Hv].
  exists i, r, v. split; [|split; [done|split; [by eapply encoding_of_length|]]].
  - eapply first_max_ext; [|exact Hmax]. intros y Hy. eapply area_true_area, Hok, Hy.
  - unfold encoding_of in Hv. destruct (resize (crop g r) 100 100); [done|discriminate].
Qed.

Lemma encoding_of_entries g r v i j :
  encoding_of g r = Some v -> (i < 100)%nat -> (j < 100)%nat ->
  v !! (i * 100 + j)%nat
    = Some (IEEE.of_uint8 (resize_sample (crop g r) 100 100 i j)).
Proof.
  unfold encoding_of, resize. destruct (is_empty (crop g r)); [discriminate|].
  intros Hv Hi Hj. apply (inj Some) in Hv. subst v.
  change (map ?f ?l !! ?k) with ((f <$> l) !! k).
  by rewrite list_lookup_fmap, lookup_flatten_tabulate.
Qed.

(** Pixel (row, column) of a grayscale image. *)
Definition at_pixel (g : list (list Z)) (i j : nat) : option Z :=
  g !! i ≫= fun row => row !! j.

(** The region lies inside the image, its far corner included, and the
    coordinates of that corner fit the 32-bit type of the region. *)
Definition inside (g : gray) (r : rect) : Prop :=
  let '(x, y, w, h) := r in
  0 <= x /\ 0 <= y /\ 0 < w /\ 0 < h /\
  x + w < Int32.half /\ y + h < Int32.half /\
  y + h <= Z.of_nat (height g) /\
  Forall (fun row => x + w <= Z.of_nat (length row)) g.

(** [patch] is the window of [g] of [h] rows and [w] columns whose
    top-left pixel is pixel (y, x) of [g]. *)
Definition patch_of (g : gray) (r : rect) (patch : gray) : Prop :=
  let '(x, y, w, h) := r in
  length patch = Z.to_nat h /\
  Forall (fun row => length row = Z.to_nat w) patch /\
  forall i j, (i < Z.to_nat h)%nat -> (j < Z.to_nat w)%nat ->
    exists v, at_pixel patch i j = Some v /\
              at_pixel g (Z.to_nat y + i) (Z.to_nat x + j) = Some v.

(** [x] is the binary32 number equal to the integer [n]: positive zero
    for 0, otherwise a mantissa [m] of exactly 24 bits and an exponent
    [e] with [m * 2^e = n]. *)
Definition float32_of_integer (n : Z) (x : float) : Prop :=
  match x with
  | S754_zero false => n = 0
  | S754_finite false m e =>
      e <= 0 /\ Z.pos m = n * 2 ^ (- e) /\ 2 ^ 23 <= Z.pos m < 2 ^ 24
  | _ => False
  end.

Definition float32_of_integer_b (n : Z) (x : float) : bool :=
  match x with
  | S754_zero false => n =? 0
  | S754_finite false m e =>
      (e <=? 0) && (Z.pos m =? n * 2 ^ (- e)) &&
      (2 ^ 23 <=? Z.pos m) && (Z.pos m <? 2 ^ 24)
  | _ => false
  end.

Lemma float32_of_integer_b_true n x :
  float32_of_integer_b n x = true -> float32_of_integer n x.
Proof.
  unfold float32_of_integer_b, float32_of_integer.
  destruct x as [[]| | |[] m e]; try discriminate.
  - apply Z.eqb_eq.
  - rewrite !andb_true_iff, Z.leb_le, Z.eqb_eq, Z.leb_le, Z.ltb_lt. tauto.
Qed.

(** The cast of a byte to [float32] is exact. *)
Lemma of_uint8_exact n :
  0 <= n <= 255 -> float32_of_integer n (IEEE.of_uint8 n).
Proof.
  intros Hn. apply float32_of_integer_b_true.
  assert (forallb (fun k => float32_of_integer_b (Z.of_nat k) (IEEE.of_uint8 (Z.of_nat k)))
            (seq 0 256) = true) as Hall by (vm_compute; reflexivity).
  rewrite forallb_forall in Hall. specialize (Hall (Z.to_nat n)).
  rewrite Z2Nat.id in Hall by lia. apply Hall, in_seq. lia.
Qed.

(** At most one binary32 number equals a given integer. *)
Lemma float32_of_integer_unique n x y :
  float32_of_integer n x -> float32_of_integer n y -> x = y.
Proof.
  assert (forall m1 e1 m2 e2,
            e1 <= 0 -> Z.pos m1 = n * 2 ^ (- e1) -> 2 ^ 23 <= Z.pos m1 < 2 ^ 24 ->
            e2 <= 0 -> Z.pos m2 = n * 2 ^ (- e2) -> 2 ^ 23 <= Z.pos m2 < 2 ^ 24 ->
            e1 <= e2) as Hle.
  { intros m1 e1 m2 e2 He1 Hm1 Hr1 He2 Hm2 Hr2.
    destruct (Z.le_gt_cases e1 e2) as [|Hlt]; [done|exfalso].
    assert (- e2 = - e1 + (e1 - e2)) as Hsplit by lia.
    rewrite Hsplit, Z.pow_add_r, Z.mul_assoc, <- Hm1 in Hm2 by lia.
    assert (2 <= 2 ^ (e1 - e2)) as Hpow.
    { change 2 with (2 ^ 1) at 1. apply Z.pow_le_mono_r; lia. }
    nia. }
  destruct x as [[]| | |[] m1 e1], y as [[]| | |[] m2 e2]; simpl; try done; try lia.
  intros (He1 & Hm1 & Hr1) (He2 & Hm2 & Hr2).
  assert (e1 = e2) as ->.
  { apply Z.le_antisymm; [eapply (Hle m1 e1 m2 e2)|eapply (Hle m2 e2 m1 e1)]; done. }
  f_equal. lia.
Qed.

(** Inside the image, the slices of [crop] cut out the window. *)
Lemma crop_inside g r : inside g r -> patch_of g r (crop g r).
Proof.
  destruct r as [[[x y] w] h].
  intros (Hx & Hy & Hw & Hh & Hxw & Hyh & Hrows & Hcols).
  unfold patch_of, crop, Int32.add, gray in *.
  rewrite !wrap_in_range by (unfold Int32.in_range, Int32.half in *; lia).
  unfold height in Hrows.
  assert (forall i, (i < Z.to_nat h)%nat ->
            exists row, g !! (Z.to_nat y + i)%nat = Some row /\
              slice y (y + h) g !! i = Some row) as Hrow.
  { intros i Hi. rewrite lookup_slice_within by lia.
    destruct (lookup_lt_is_Some_2 g (Z.to_nat y + i)) as [row Hrow]; [lia|]. eauto. }
  split; [|split].
  - rewrite length_map, length_slice_within by lia. f_equal. lia.
  - apply Forall_map, Forall_lookup. intros i row Hin. simpl.
    rewrite length_slice_within; [f_equal; lia|lia|].
    pose proof (lookup_lt_Some _ _ _ Hin) as Hi.
    rewrite length_slice_within in Hi by lia.
    rewrite lookup_slice_within in Hin by lia.
    rewrite Forall_lookup in Hcols. eapply Hcols, Hin.
  - intros i j Hi Hj. destruct (Hrow i Hi) as (row & Hg & Hs).
    assert (x + w <= Z.of_nat (length row)) as Hlen.
    { rewrite Forall_lookup in Hcols. eapply Hcols, Hg. }
    destruct (lookup_lt_is_Some_2 row (Z.to_nat x + j)) as [v Hv]; [lia|].
    exists v. unfold at_pixel.
    change (map ?f ?l !! ?k) with ((f <$> l) !! k).
    rewrite list_lookup_fmap, Hs, Hg. simpl. split; [|done].
    rewrite lookup_slice_within by lia. done.
Qed.

(** A window of an image is determined by the image and the region. *)
Lemma patch_of_unique g r p1 p2 : patch_of g r p1 -> patch_of g r p2 -> p1 = p2.
Proof.
  destruct r as [[[x y] w] h]. intros (Hl1 & Hr1 & He1) (Hl2 & Hr2 & He2).
  apply list_eq. intros i.
  destruct (decide (i < Z.to_nat h)%nat) as [Hi|Hi].
  2:{ by rewrite !lookup_ge_None_2 by lia. }
  destruct (lookup_lt_is_Some_2 p1 i) as [row1 Hrow1]; [lia|].
  destruct (lookup_lt_is_Some_2 p2 i) as [row2 Hrow2]; [lia|].
  rewrite Hrow1, Hrow2. f_equal.
  rewrite Forall_lookup in Hr1, Hr2.
  pose proof (Hr1 _ _ Hrow1) as Hlen1. pose proof (Hr2 _ _ Hrow2) as Hlen2.
  apply list_eq. intros j.
  destruct (decide (j < Z.to_nat w)%nat) as [Hj|Hj].
  2:{ by rewrite !lookup_ge_None_2 by lia. }
  destruct (He1 i j Hi Hj) as (v1 & Hp1 & Hg1).
  destruct (He2 i j Hi Hj) as (v2 & Hp2 & Hg2).
  unfold at_pixel in Hp1, Hp2. rewrite Hrow1 in Hp1. rewrite Hrow2 in Hp2.
  simpl in Hp1, Hp2. congruence.
Qed.

(** C6.  [encode_face_from_image] returns nothing exactly when the file
    is missing, is not a readable image, or shows no face.  Otherwise
    the vector returned comes from the region [(x, y, w, h)] of largest
    area [w * h], the first such in the detector's order, and has
    exactly 10000 entries.  When that region lies inside the grayscale
    image, the vector is made from the window of [h] rows and [w]
    columns whose top-left pixel is pixel (y, x) of the image: entry
    [100 * i + j] is the value that resizing the window to 100 x 100
    gives at row [i], column [j], as the binary32 number equal to that
    byte. *)
Theorem encode_face_from_image_largest fs image_path :
  detector_sound ->
  (encode_face_from_image fs image_path = None <->
     fs !! image_path = None \/
     (exists bytes, fs !! image_path = Some bytes /\ imdecode bytes = None) \/
     (exists bytes image, fs !! image_path = Some bytes /\
        imdecode bytes = Some image /\
        detectMultiScale (cvtColor_BGR2GRAY image) = [])) /\
  (forall v, encode_face_from_image fs image_path = Some v ->
     exists bytes image i r,
       fs !! image_path = Some bytes /\ imdecode bytes = Some image /\
       first_max true_area (detectMultiScale (cvtColor_BGR2GRAY image)) i r /\
       encoding_of (cvtColor_BGR2GRAY image) r = Some v /\
       length v = (100 * 100)%nat /\
       (inside (cvtColor_BGR2GRAY image) r ->
        exists patch,
          patch_of (cvtColor_BGR2GRAY image) r patch /\
          forall i j, (i < 100)%nat -> (j < 100)%nat ->
            exists x,
              v !! (i * 100 + j)%nat = Some x /\
              (0 <= resize_sample patch 100 100 i j <= 255 ->
               float32_of_integer (resize_sample patch 100 100 i j) x))).
Proof.
  intros Hsound. unfold encode_face_from_image.
  destruct (fs !! image_path) as [bytes|]; [|split; [split; eauto|discriminate]].
  destruct (imdecode bytes) as [image|] eqn:Hdec.
  - pose proof (encode_image_spec image Hsound) as Hspec. simpl in Hspec.
    destruct (detectMultiScale (cvtColor_BGR2GRAY image)) as [|f0 rest] eqn:Hfaces.
    + split; [split; [|done]|congruence].
      intros _. right. right. exists bytes, image. by rewrite Hdec.
    + destruct Hspec as (i & r & v & Hmax & Hv & Hlen & ->). split.
      * split; [discriminate|].
        intros [?|[(b & Hb & Hnone)|(b & im & Hb & Him & Hnil)]]; [done|congruence|].
        assert (im = image) as -> by congruence. congruence.
      * intros v' Hv'. apply (inj Some) in Hv'. subst v'.
        exists bytes, image, i, r. rewrite Hfaces.
        split; [done|]. split; [done|]. split; [done|]. split; [done|].
        split; [done|]. intros Hin.
        exists (crop (cvtColor_BGR2GRAY image) r). split; [by apply crop_inside|].
        intros i' j' Hi' Hj'. eexists. split; [by apply encoding_of_entries|].
        apply of_uint8_exact.
  - split; [split; [|done]|discriminate].
    intros _. right. left. eauto.
Qed.

End EncoderSpec.

(** ** Starting and stopping the detector *)

(** A process with a camera attached and nothing started yet. *)
Definition idle_world : world := World ∅ [] true [].

Section DetectorLifecycle.
Import FaceDetector.

Lemma start_detection_running d w :
  is_running d = true -> start_detection d w = (true, d, w).
Proof. unfold start_detection. by intros ->. Qed.

Lemma start_detection_true d w d1 w1 :
  start_detection d w = (true, d1, w1) -> is_running d1 = true.
Proof.
  unfold start_detection. destruct (is_running d) eqn:Hrun.
  - by intros [= <- <-].
  - unfold VideoCapture. simpl. destruct (device_present w); simpl.
    + by intros [= <- <-].
    + discriminate.
Qed.

(** A second [start_detection] on a running detector reports success. *)
Lemma start_detection_again_succeeds :
  ~ (forall d w d1 w1,
       start_detection d w = (true, d1, w1) ->
       (start_detection d1 w1).1.1 = false).
Proof.
  intros Hclaim.
  specialize (Hclaim (init 0) idle_world _ _ eq_refl). discriminate Hclaim.
Qed.

Lemma start_face_recognition_true a msg a1 :
  App.start_face_recognition a = (App.Json true msg, a1) ->
  App.FACE_RECOGNITION_AVAILABLE a1 = true /\ App.face_recognition_active a1 = true.
Proof.
  unfold App.start_face_recognition.
  destruct (App.FACE_RECOGNITION_AVAILABLE a) eqn:Hav; simpl; [|discriminate].
  destruct (App.face_recognition_active a); [discriminate|].
  destruct (App.face_detector a) as [d|]; [|discriminate].
  destruct (App.students_data (App.db a)) as [|s data]; [discriminate|].
  destruct (start_detection _ _) as [[[] d1] w1]; [|discriminate].
  intros [= _ <-]. simpl. done.
Qed.

(** C4 (as amended).  Once [start_detection] has succeeded, calling it
    again changes neither the detector nor the process (no thread is
    started, the camera is not opened again) and returns [True] again.
    At the web boundary, once [start_face_recognition] has succeeded the
    next such request is answered with [success = False], message
    "Face recognition already active", and changes nothing. *)
Theorem start_twice_no_second_pair :
  (forall d w d1 w1,
     start_detection d w = (true, d1, w1) ->
     start_detection d1 w1 = (true, d1, w1)) /\
  (forall a msg a1,
     App.start_face_recognition a = (App.Json true msg, a1) ->
     App.start_face_recognition a1 =
       (App.Json false "Face recognition already active", a1)).
Proof.
  split.
  - intros d w d1 w1 Hstart.
    apply start_detection_running. by eapply start_detection_true.
  - intros a msg a1 Hstart.
    destruct (start_face_recognition_true _ _ _ Hstart) as [Hav Hact].
    unfold App.start_face_recognition. by rewrite Hav, Hact.
Qed.

(** The detector once [stop_detection] has returned. *)
Definition stopped (d : t) : t :=
  Make (camera_index d) None false None [] (known_faces d)
       (capture_thread d) (detection_thread d).

(** Two detectors that differ at most by the stored frame and the
    published detections. *)
Definition same_wiring (d d' : t) : Prop :=
  camera_index d' = camera_index d /\ cap d' = cap d /\
  is_running d' = is_running d /\ known_faces d' = known_faces d /\
  capture_thread d' = capture_thread d /\ detection_thread d' = detection_thread d.

Lemma same_wiring_refl d : same_wiring d d.
Proof. by repeat split. Qed.

Lemma same_wiring_trans d1 d2 d3 :
  same_wiring d1 d2 -> same_wiring d2 d3 -> same_wiring d1 d3.
Proof. unfold same_wiring. intuition congruence. Qed.

Lemma complete_iteration_wiring tid p d w :
  same_wiring d (complete_iteration tid p d w).1.
Proof.
  destruct p as [|[f| |]|ds|]; simpl; try apply same_wiring_refl.
  - destruct (alloc f w) as [l w']. simpl. by repeat split.
  - by repeat split.
Qed.

Lemma enter_iteration_detector `{Vision} r now tid tg d w :
  (enter_iteration r now tid tg d w).1 = d.
Proof.
  unfold enter_iteration. destruct (negb (guard tg d)); [done|].
  destruct tg; try done;
    (destruct (current_frame d) as [l|]; [|done];
     destruct (heap w !! l) as [f|]; [|done];
     destruct (alloc f w) as [l' w'];
     by destruct (detect_cycle (known_faces d) f now)).
Qed.

Lemma worker_step_wiring `{Vision} r now tid d w :
  same_wiring d (worker_step r now tid d w).1.
Proof.
  unfold worker_step. destruct (threads w !! tid) as [[tg p]|];
    [|apply same_wiring_refl].
  destruct (negb (owns tg)); [apply same_wiring_refl|].
  destruct p; try apply complete_iteration_wiring.
  rewrite enter_iteration_detector. apply same_wiring_refl.
Qed.

Lemma join_wiring `{Vision} steps tid : forall d w,
  same_wiring d (join steps tid d w).1.
Proof.
  induction steps as [|[r now] steps IH]; intros d w; simpl;
    [apply same_wiring_refl|].
  pose proof (worker_step_wiring r now tid d w) as Hstep.
  destruct (worker_step r now tid d w) as [d1 w1].
  eapply same_wiring_trans; [exact Hstep|apply IH].
Qed.

(** Worker [tid] will never act on this detector again: it is not one of
    its threads, or it has returned. *)
Definition retired (tid : nat) (w : world) : Prop :=
  match threads w !! tid with
  | Some (Worker tg p) => owns tg = false \/ p = Finished
  | None => True
  end.

Lemma threads_set_pc tid p w tg q :
  threads w !! tid = Some (Worker tg q) ->
  threads (set_pc tid p w) !! tid = Some (Worker tg p).
Proof.
  intros Hth. unfold set_pc. simpl. by rewrite list_lookup_alter_eq, Hth.
Qed.

Lemma threads_set_pc_ne tid p w tid' :
  tid' <> tid -> threads (set_pc tid p w) !! tid' = threads w !! tid'.
Proof. intros Hne. unfold set_pc. simpl. by rewrite list_lookup_alter_ne. Qed.

Lemma threads_complete_iteration tid p d w tid' :
  tid' <> tid \/ p = At_head \/ p = Finished ->
  threads (complete_iteration tid p d w).2 !! tid' = threads w !! tid'.
Proof.
  intros Hcase.
  destruct p as [|[f| |]|ds|]; simpl; try done;
    (destruct Hcase as [Hne|[?|?]]; [|discriminate..]);
    by rewrite list_lookup_alter_ne.
Qed.

Lemma target_complete_iteration tid p d w tg q :
  threads w !! tid = Some (Worker tg q) ->
  exists q', threads (complete_iteration tid p d w).2 !! tid = Some (Worker tg q').
Proof.
  intros Hth.
  destruct p as [|[f| |]|ds|]; simpl; eauto;
    rewrite list_lookup_alter_eq, Hth; simpl; eauto.
Qed.

Lemma threads_enter_iteration `{Vision} r now tid tg d w tid' :
  tid' <> tid ->
  threads (enter_iteration r now tid tg d w).2 !! tid' = threads w !! tid'.
Proof.
  intros Hne. unfold enter_iteration.
  destruct (negb (guard tg d)); [by apply threads_set_pc_ne|].
  destruct tg; try (by apply threads_set_pc_ne);
    (destruct (current_frame d) as [l|]; [|done];
     destruct (heap w !! l) as [f|]; [|done];
     unfold alloc; simpl;
     destruct (detect_cycle (known_faces d) f now); [|done];
     exact (threads_set_pc_ne tid _ (set_heap _ w) tid' Hne)).
Qed.

(** A step of worker [tid] leaves the other entries of the pool alone. *)
Lemma threads_worker_step `{Vision} r now tid d w tid' :
  tid' <> tid ->
  threads (worker_step r now tid d w).2 !! tid' = threads w !! tid'.
Proof.
  intros Hne. unfold worker_step.
  destruct (threads w !! tid) as [[tg p]|]; [|done].
  destruct (negb (owns tg)); [done|].
  destruct p; try (apply threads_complete_iteration; by left).
  by apply threads_enter_iteration.
Qed.

Lemma worker_step_retired `{Vision} r now tid d w :
  retired tid w -> worker_step r now tid d w = (d, w).
Proof.
  unfold retired, worker_step. destruct (threads w !! tid) as [[tg p]|]; [|done].
  intros [->| ->]; [done|]. by destruct (owns tg).
Qed.

Lemma join_retired `{Vision} steps tid d w :
  retired tid w -> join steps tid d w = (d, w).
Proof.
  intros Hret. induction steps as [|[r now] steps IH]; simpl; [done|].
  by rewrite worker_step_retired.
Qed.

Lemma join_keeps_retired `{Vision} steps tid tid' : forall d w,
  retired tid' w -> retired tid' (join steps tid d w).2.
Proof.
  induction steps as [|[r now] steps IH]; intros d w Hret; simpl; [done|].
  destruct (decide (tid' = tid)) as [->|Hne].
  - rewrite worker_step_retired by done. by apply IH.
  - pose proof (threads_worker_step r now tid d w tid' Hne) as Hth.
    destruct (worker_step r now tid d w) as [d1 w1]. simpl in Hth.
    apply IH. unfold retired in *. by rewrite Hth.
Qed.

(** With the running flag down, one step takes a worker that holds
    something to the head of its loop, and a worker at the head out of
    it. *)
Lemma worker_step_leaving `{Vision} r now tid d w tg p :
  is_running d = false ->
  threads w !! tid = Some (Worker tg p) -> owns tg = true ->
  exists p',
    threads (worker_step r now tid d w).2 !! tid = Some (Worker tg p') /\
    (p' = At_head \/ p' = Finished) /\
    (p = At_head \/ p = Finished -> p' = Finished).
Proof.
  intros Hrun Hth Hown. unfold worker_step. rewrite Hth, Hown. simpl.
  assert (guard tg d = false) as Hguard by (destruct tg; simpl; by rewrite Hrun).
  destruct p as [|[f| |]|ds|].
  - unfold enter_iteration. rewrite Hguard. simpl.
    exists Finished. split; [by eapply threads_set_pc|]. split; [by right|done].
  - simpl. exists At_head. rewrite list_lookup_alter_eq. simpl in *. rewrite Hth.
    split; [done|]. split; [by left|]. by intros [|].
  - simpl. exists At_head. rewrite list_lookup_alter_eq, Hth.
    split; [done|]. split; [by left|]. by intros [|].
  - simpl. exists At_head. rewrite list_lookup_alter_eq, Hth.
    split; [done|]. split; [by left|]. by intros [|].
  - simpl. exists At_head. rewrite list_lookup_alter_eq, Hth.
    split; [done|]. split; [by left|]. by intros [|].
  - simpl. exists Finished. split; [done|]. split; [by right|done].
Qed.

(** A worker that gets two steps while it is waited for, the running
    flag being down, has returned when the wait ends. *)
Lemma join_retires `{Vision} steps tid d w :
  is_running d = false -> (2 <= length steps)%nat ->
  retired tid (join steps tid d w).2.
Proof.
  intros Hrun Hlen.
  destruct steps as [|[r1 now1] [|[r2 now2] steps]]; simpl in Hlen; try lia.
  destruct (threads w !! tid) as [[tg p]|] eqn:Hth.
  2:{ rewrite join_retired; unfold retired; simpl; by rewrite Hth. }
  destruct (owns tg) eqn:Hown.
  2:{ rewrite join_retired; unfold retired; simpl; rewrite Hth; by left. }
  simpl.
  destruct (worker_step_leaving r1 now1 tid d w tg p Hrun Hth Hown)
    as (p1 & Hth1 & Hp1 & _).
  pose proof (worker_step_wiring r1 now1 tid d w) as (_ & _ & Hrun1 & _).
  destruct (worker_step r1 now1 tid d w) as [d1 w1]. simpl in *.
  rewrite Hrun in Hrun1.
  destruct (worker_step_leaving r2 now2 tid d1 w1 tg p1 Hrun1 Hth1 Hown)
    as (p2 & Hth2 & _ & Hp2).
  destruct (worker_step r2 now2 tid d1 w1) as [d2 w2]. simpl in *.
  apply join_keeps_retired. unfold retired. rewrite Hth2. right. by apply Hp2.
Qed.

(** The threads recorded in the detector. *)
Definition own_thread (d : t) (tid : nat) : Prop :=
  capture_thread d = Some tid \/ detection_thread d = Some tid.

(** [stop_detection] always answers [True] and leaves the detector
    cleared.  Each worker that got its two steps has returned. *)
Lemma stop_detection_stopped `{Vision} s1 s2 d w :
  exists w',
    stop_detection s1 s2 d w = (true, stopped d, w') /\
    ((2 <= length s1)%nat -> forall tid, capture_thread d = Some tid -> retired tid w') /\
    ((2 <= length s2)%nat -> forall tid, detection_thread d = Some tid -> retired tid w').
Proof.
  unfold stop_detection.
  set (d0 := set_is_running false d).
  assert (camera_index d0 = camera_index d /\ known_faces d0 = known_faces d /\
          capture_thread d0 = capture_thread d /\
          detection_thread d0 = detection_thread d) as (Hi0 & Hk0 & Hc0 & Hd0) by done.
  assert (exists d1 w1,
            match capture_thread d0 with
            | Some th => join s1 th d0 w
            | None => (d0, w)
            end = (d1, w1) /\ same_wiring d0 d1 /\
            ((2 <= length s1)%nat ->
             forall tid, capture_thread d = Some tid -> retired tid w1))
    as (d1 & w1 & -> & H1 & Hq1).
  { rewrite Hc0. destruct (capture_thread d) as [th|].
    - pose proof (join_wiring s1 th d0 w).
      pose proof (fun Hlen => join_retires s1 th d0 w eq_refl Hlen) as Hret.
      destruct (join s1 th d0 w) as [d1 w1]. exists d1, w1.
      split; [done|]. split; [done|]. intros Hlen tid [= <-]. by apply Hret.
    - eexists _, _. split; [done|]. split; [apply same_wiring_refl|done]. }
  assert (is_running d1 = false) as Hr1 by (by rewrite (proj1 (proj2 (proj2 H1)))).
  assert (exists d2 w2,
            match detection_thread d1 with
            | Some th => join s2 th d1 w1
            | None => (d1, w1)
            end = (d2, w2) /\ same_wiring d1 d2 /\
            ((2 <= length s1)%nat ->
             forall tid, capture_thread d = Some tid -> retired tid w2) /\
            ((2 <= length s2)%nat ->
             forall tid, detection_thread d = Some tid -> retired tid w2))
    as (d2 & w2 & -> & H2 & Hq2 & Hq3).
  { destruct H1 as (_ & _ & _ & _ & _ & Hd1). rewrite Hd1, Hd0.
    destruct (detection_thread d) as [th|] eqn:Hth.
    - pose proof (join_wiring s2 th d1 w1).
      pose proof (fun Hlen => join_retires s2 th d1 w1 Hr1 Hlen) as Hret.
      pose proof (join_keeps_retired s2 th) as Hkeep.
      destruct (join s2 th d1 w1) as [d2 w2] eqn:Hjoin. exists d2, w2.
      split; [done|]. split; [done|]. split.
      + intros Hlen tid Hc. specialize (Hkeep tid d1 w1 (Hq1 Hlen tid Hc)).
        by rewrite Hjoin in Hkeep.
      + intros Hlen tid [= <-]. by apply Hret.
    - eexists _, _. split; [done|]. split; [apply same_wiring_refl|].
      split; [exact Hq1|]. by intros _ tid. }
  destruct (same_wiring_trans _ _ _ H1 H2) as (Hi & _ & Hr & Hk & Hc & Hd).
  assert (forall c, set_current_frame None (set_detected_faces [] (set_cap c d2))
                    = Make (camera_index d) c false None [] (known_faces d)
                           (capture_thread d) (detection_thread d)) as Hfinal.
  { intros c. unfold set_current_frame, set_detected_faces, set_cap. simpl.
    by rewrite Hi, Hr, Hk, Hc, Hd. }
  destruct (cap d2) as [c|] eqn:Hcap.
  - eexists. split; [by rewrite Hfinal|]. split; [exact Hq2|exact Hq3].
  - eexists. split; [|split; [exact Hq2|exact Hq3]]. unfold stopped.
    rewrite <- (Hfinal None).
    unfold set_current_frame, set_detected_faces, set_cap. simpl.
    by rewrite Hcap.
Qed.

End DetectorLifecycle.

(** The camera once [stop_camera] has returned. *)
Definition camera_stopped (s : SimpleCamera.t) : SimpleCamera.t :=
  SimpleCamera.Make (SimpleCamera.camera_index s) None false None
                    (SimpleCamera.capture_thread s).

(** Worker [tid] will never act on the camera again. *)
Definition camera_retired (tid : nat) (w : world) : Prop :=
  match threads w !! tid with
  | Some (Worker SimpleCamera_capture_frames p) => p = Finished
  | _ => True
  end.

(** What a worker of the camera can hold: a read, never a list of
    detections. *)
Definition camera_placed (tid : nat) (w : world) : Prop :=
  forall ds, threads w !! tid <> Some (Worker SimpleCamera_capture_frames (Got_detections ds)).

Lemma camera_worker_step_retired r tid s w :
  camera_retired tid w -> SimpleCamera.worker_step r tid s w = (s, w).
Proof.
  unfold camera_retired, SimpleCamera.worker_step.
  destruct (threads w !! tid) as [[[] p]|]; try done. by intros ->.
Qed.

Lemma camera_join_retired steps tid s w :
  camera_retired tid w -> SimpleCamera.join steps tid s w = (s, w).
Proof.
  intros Hret. induction steps as [|r steps IH]; simpl; [done|].
  by rewrite camera_worker_step_retired.
Qed.

Lemma camera_worker_step_wiring r tid s w :
  SimpleCamera.camera_index (SimpleCamera.worker_step r tid s w).1
    = SimpleCamera.camera_index s /\
  SimpleCamera.cap (SimpleCamera.worker_step r tid s w).1 = SimpleCamera.cap s /\
  SimpleCamera.capture_thread (SimpleCamera.worker_step r tid s w).1
    = SimpleCamera.capture_thread s /\
  SimpleCamera.running (SimpleCamera.worker_step r tid s w).1 = SimpleCamera.running s.
Proof.
  unfold SimpleCamera.worker_step.
  destruct (threads w !! tid) as [[[] p]|]; try done.
  destruct p as [|[f| |]|ds|]; try done.
  unfold SimpleCamera.enter_iteration. by destruct (SimpleCamera.is_running s).
Qed.

Lemma camera_join_wiring steps tid : forall s w,
  SimpleCamera.camera_index (SimpleCamera.join steps tid s w).1
    = SimpleCamera.camera_index s /\
  SimpleCamera.cap (SimpleCamera.join steps tid s w).1 = SimpleCamera.cap s /\
  SimpleCamera.capture_thread (SimpleCamera.join steps tid s w).1
    = SimpleCamera.capture_thread s /\
  SimpleCamera.running (SimpleCamera.join steps tid s w).1 = SimpleCamera.running s.
Proof.
  induction steps as [|r steps IH]; intros s w; simpl; [done|].
  pose proof (camera_worker_step_wiring r tid s w) as (Hi & Hc & Ht & Hr).
  destruct (SimpleCamera.worker_step r tid s w) as [s1 w1]. simpl in *.
  destruct (IH s1 w1) as (Hi' & Hc' & Ht' & Hr').
  repeat split; congruence.
Qed.

(** With the running flag down, a worker that holds a read is out of its
    loop, or back at its head, after one step; a worker at the head is
    out of it. *)
Lemma camera_worker_step_leaving r tid s w p :
  SimpleCamera.running s = false ->
  threads w !! tid = Some (Worker SimpleCamera_capture_frames p) ->
  (forall ds, p <> Got_detections ds) ->
  exists p',
    threads (SimpleCamera.worker_step r tid s w).2 !! tid
      = Some (Worker SimpleCamera_capture_frames p') /\
    (p' = At_head \/ p' = Finished) /\
    (p = At_head \/ p = Finished -> p' = Finished).
Proof.
  intros Hrun Hth Hplaced. unfold SimpleCamera.worker_step. rewrite Hth.
  destruct p as [|[f| |]|ds|].
  - unfold SimpleCamera.enter_iteration, SimpleCamera.is_running. rewrite Hrun. simpl.
    exists Finished. rewrite list_lookup_alter_eq, Hth.
    split; [done|]. split; [by right|done].
  - simpl. exists At_head. rewrite list_lookup_alter_eq. simpl in *. rewrite Hth.
    split; [done|]. split; [by left|]. by intros [|].
  - simpl. exists Finished. rewrite list_lookup_alter_eq, Hth.
    split; [done|]. split; [by right|done].
  - simpl. exists Finished. rewrite list_lookup_alter_eq, Hth.
    split; [done|]. split; [by right|done].
  - by destruct (Hplaced ds).
  - simpl. exists Finished. split; [done|]. split; [by right|done].
Qed.

Lemma camera_join_retires steps tid s w :
  SimpleCamera.running s = false -> camera_placed tid w ->
  (2 <= length steps)%nat ->
  camera_retired tid (SimpleCamera.join steps tid s w).2.
Proof.
  intros Hrun Hplaced Hlen.
  destruct steps as [|r1 [|r2 steps]]; simpl in Hlen; try lia.
  destruct (threads w !! tid) as [[tg p]|] eqn:Hth.
  2:{ rewrite camera_join_retired; unfold camera_retired; simpl; by rewrite Hth. }
  destruct tg;
    try (rewrite camera_join_retired; unfold camera_retired; simpl; by rewrite Hth).
  simpl.
  assert (forall ds, p <> Got_detections ds) as Hp.
  { intros ds ->. by apply (Hplaced ds). }
  destruct (camera_worker_step_leaving r1 tid s w p Hrun Hth Hp) as (p1 & Hth1 & Hp1 & _).
  pose proof (camera_worker_step_wiring r1 tid s w) as (_ & _ & _ & Hrun1).
  destruct (SimpleCamera.worker_step r1 tid s w) as [s1 w1]. simpl in *.
  rewrite Hrun in Hrun1.
  assert (forall ds, p1 <> Got_detections ds) as Hp1'.
  { intros ds ->. by destruct Hp1. }
  destruct (camera_worker_step_leaving r2 tid s1 w1 p1 Hrun1 Hth1 Hp1')
    as (p2 & Hth2 & _ & Hp2).
  destruct (SimpleCamera.worker_step r2 tid s1 w1) as [s2 w2]. simpl in *.
  rewrite camera_join_retired; unfold camera_retired; simpl; rewrite Hth2; by apply Hp2.
Qed.

(** [stop_camera] always answers [True] and leaves the camera cleared.
    A worker that got its two steps has returned. *)
Lemma stop_camera_stopped steps s w :
  exists w',
    SimpleCamera.stop_camera steps s w = (true, camera_stopped s, w') /\
    ((2 <= length steps)%nat ->
     forall tid, SimpleCamera.capture_thread s = Some tid -> camera_placed tid w ->
                 camera_retired tid w').
Proof.
  unfold SimpleCamera.stop_camera.
  set (s0 := SimpleCamera.set_running false s).
  assert (exists s1 w1,
            match SimpleCamera.capture_thread s0 with
            | Some th => SimpleCamera.join steps th s0 w
            | None => (s0, w)
            end = (s1, w1) /\
            SimpleCamera.camera_index s1 = SimpleCamera.camera_index s /\
            SimpleCamera.capture_thread s1 = SimpleCamera.capture_thread s /\
            SimpleCamera.running s1 = false /\
            ((2 <= length steps)%nat ->
             forall tid, SimpleCamera.capture_thread s = Some tid ->
                         camera_placed tid w -> camera_retired tid w1))
    as (s1 & w1 & -> & Hi & Hc & Hr & Hq).
  { change (SimpleCamera.capture_thread s0) with (SimpleCamera.capture_thread s).
    destruct (SimpleCamera.capture_thread s) as [th|] eqn:Hth; [|by eexists _, _].
    destruct (camera_join_wiring steps th s0 w) as (Hi & _ & Hc & Hr).
    pose proof (fun Hp Hlen => camera_join_retires steps th s0 w eq_refl Hp Hlen) as Hret.
    destruct (SimpleCamera.join steps th s0 w) as [s1 w1]. simpl in *. exists s1, w1.
    split; [done|]. split; [exact Hi|]. split; [by rewrite Hc|]. split; [exact Hr|].
    intros Hlen tid [= <-] Hp. by apply Hret. }
  destruct (SimpleCamera.cap s1) as [c|] eqn:Hcap; eexists;
    (split;
     [unfold camera_stopped, SimpleCamera.set_current_frame, SimpleCamera.set_cap;
      simpl; rewrite ?Hr, ?Hcap, Hi, Hc; reflexivity
     |exact Hq]).
Qed.

Section StopSpec.
Context `{Vision}.
Import FaceDetector.

(** C5 (as amended).  Whatever the detector and the process were, and
    whatever the workers got to do while they were waited for,
    [stop_detection] returns [True] and leaves a detector whose
    annotated-frame getter answers [None] and whose detected-faces
    query answers the empty list; a second [stop_detection] returns
    [True] again and leaves the same detector.  If each worker got the
    two steps it needs to finish its iteration and leave before the
    wait of two seconds ran out, the workers recorded in the detector
    have returned: scheduling them again changes nothing, so no frame
    or detection of the session turns up later.  The same holds of
    [SimpleCamera.stop_camera] and [get_frame]. *)
Theorem stop_clears_state :
  (forall s1 s2 d w,
     exists w1,
       stop_detection s1 s2 d w = (true, stopped d, w1) /\
       (get_current_frame_with_annotations (stopped d) w1).1 = None /\
       get_detected_faces (stopped d) = [] /\
       ((2 <= length s1)%nat -> (2 <= length s2)%nat ->
        forall r now tid, own_thread d tid ->
          worker_step r now tid (stopped d) w1 = (stopped d, w1)) /\
       forall t1 t2, exists w2,
         stop_detection t1 t2 (stopped d) w1 = (true, stopped d, w2) /\
         (get_current_frame_with_annotations (stopped d) w2).1 = None) /\
  (forall steps s w,
     exists w1,
       SimpleCamera.stop_camera steps s w = (true, camera_stopped s, w1) /\
       (SimpleCamera.get_frame (camera_stopped s) w1).1 = None /\
       ((2 <= length steps)%nat ->
        forall r tid, SimpleCamera.capture_thread s = Some tid -> camera_placed tid w ->
          SimpleCamera.worker_step r tid (camera_stopped s) w1 = (camera_stopped s, w1)) /\
       forall again, exists w2,
         SimpleCamera.stop_camera again (camera_stopped s) w1
           = (true, camera_stopped s, w2) /\
         (SimpleCamera.get_frame (camera_stopped s) w2).1 = None).
Proof.
  split.
  - intros s1 s2 d w. destruct (stop_detection_stopped s1 s2 d w) as (w1 & H1 & Hc & Hd).
    exists w1. split; [done|]. split; [done|]. split; [done|]. split.
    + intros Hlen1 Hlen2 r now tid [Hown|Hown]; apply worker_step_retired; eauto.
    + intros t1 t2.
      destruct (stop_detection_stopped t1 t2 (stopped d) w1) as (w2 & H2 & _).
      by exists w2.
  - intros steps s w. destruct (stop_camera_stopped steps s w) as (w1 & H1 & Hq).
    exists w1. split; [done|]. split; [done|]. split.
    + intros Hlen r tid Hth Hp. by apply camera_worker_step_retired, Hq.
    + intros again.
      destruct (stop_camera_stopped again (camera_stopped s) w1) as (w2 & H2 & _).
      by exists w2.
Qed.

End StopSpec.

(** ** The capture loops *)

Section CaptureLoops.
Context `{Vision}.

(** Worker [tid] runs the given loop and stands at the given point. *)
Definition stands_at (tg : target) (p : pc) (tid : nat) (w : world) : Prop :=
  threads w !! tid = Some (Worker tg p).

(** What an iteration whose read did not give a frame leaves on the
    trace of the detector's loop: the pause, after the printed message
    when the read raised. *)
Definition detector_failure_trace (r : read_result) (tr : list event) : list event :=
  match r with
  | Read_raise => Ev_sleep 100 :: Ev_print "Error capturing frame: " :: tr
  | _ => Ev_sleep 100 :: tr
  end.

(** One iteration of the detector's capture loop: the loop goes on,
    whatever the read gave. *)
Lemma detector_capture_iteration r now tid d w :
  stands_at FaceDetector_capture_frames At_head tid w ->
  FaceDetector.is_running d = true -> is_Some (FaceDetector.cap d) ->
  exists d' w',
    FaceDetector.capture_frames [r] now tid d w = (d', w') /\
    stands_at FaceDetector_capture_frames At_head tid w' /\
    same_wiring d d' /\
    (r = Read_fail \/ r = Read_raise ->
     d' = d /\ heap w' = heap w /\
     trace w' = detector_failure_trace r (trace w)).
Proof.
  intros Hat Hrun Hcap. unfold FaceDetector.capture_frames.
  assert (FaceDetector.worker_step r now tid d w
          = (d, set_pc tid (Got_read r) w)) as ->.
  { unfold FaceDetector.worker_step. rewrite Hat. simpl.
    unfold FaceDetector.enter_iteration. simpl.
    by rewrite Hrun, (bool_decide_eq_true_2 _ Hcap). }
  pose proof (threads_set_pc tid (Got_read r) w _ _ Hat) as Hat1.
  unfold FaceDetector.worker_step. rewrite Hat1. simpl.
  destruct r as [f| |]; simpl.
  - eexists _, _. split; [done|]. split; [|split; [by repeat split|by intros [|]]].
    eapply threads_set_pc. simpl. exact Hat1.
  - eexists _, _. split; [done|]. split; [|split; [apply same_wiring_refl|done]].
    eapply threads_set_pc. simpl. exact Hat1.
  - eexists _, _. split; [done|]. split; [|split; [apply same_wiring_refl|done]].
    eapply threads_set_pc. simpl. exact Hat1.
Qed.

Lemma detector_capture_frames_cons r reads now tid d w :
  FaceDetector.capture_frames (r :: reads) now tid d w =
  let '(d', w') := FaceDetector.capture_frames [r] now tid d w in
  FaceDetector.capture_frames reads now tid d' w'.
Proof.
  simpl. destruct (FaceDetector.worker_step r now tid d w) as [d1 w1].
  by destruct (FaceDetector.worker_step r now tid d1 w1) as [d2 w2].
Qed.

Lemma detector_capture_frames_loops reads : forall now tid d w,
  stands_at FaceDetector_capture_frames At_head tid w ->
  FaceDetector.is_running d = true -> is_Some (FaceDetector.cap d) ->
  exists d' w',
    FaceDetector.capture_frames reads now tid d w = (d', w') /\
    stands_at FaceDetector_capture_frames At_head tid w' /\
    same_wiring d d'.
Proof.
  induction reads as [|r reads IH]; intros now tid d w Hat Hrun Hcap.
  - exists d, w. split; [done|]. split; [done|apply same_wiring_refl].
  - destruct (detector_capture_iteration r now tid d w Hat Hrun Hcap)
      as (d1 & w1 & Hstep & Hat1 & Hw1 & _).
    rewrite detector_capture_frames_cons, Hstep.
    pose proof Hw1 as (_ & Hc & Hr & _).
    destruct (IH now tid d1 w1 Hat1) as (d2 & w2 & Hloop & Hat2 & Hw2).
    { by rewrite Hr. }
    { by rewrite Hc. }
    exists d2, w2. split; [done|]. split; [done|].
    eapply same_wiring_trans; [exact Hw1|exact Hw2].
Qed.

(** What the plain camera logs when a read did not give a frame. *)
Definition camera_failure_log (r : read_result) : string :=
  match r with
  | Read_raise => "Error capturing frame: "
  | _ => "Failed to read frame from camera"
  end.

(** The plain camera's loop returns at the first read that fails: the
    message is logged, nothing else happens, and later reads are never
    made. *)
Lemma camera_capture_stops reads : forall r tid s w,
  stands_at SimpleCamera_capture_frames At_head tid w ->
  SimpleCamera.is_running s = true ->
  r = Read_fail \/ r = Read_raise ->
  exists w',
    SimpleCamera.capture_frames (r :: reads) tid s w = (s, w') /\
    stands_at SimpleCamera_capture_frames Finished tid w' /\
    heap w' = heap w /\
    trace w' = Ev_print (camera_failure_log r) :: trace w.
Proof.
  intros r tid s w Hat Hrun Hr.
  assert (exists w1,
            SimpleCamera.capture_frames [r] tid s w = (s, w1) /\
            stands_at SimpleCamera_capture_frames Finished tid w1 /\
            heap w1 = heap w /\
            trace w1 = Ev_print (camera_failure_log r) :: trace w)
    as (w1 & Hstep & Hat1 & Hheap & Htrace).
  { simpl. unfold SimpleCamera.worker_step at 1. rewrite Hat.
    unfold SimpleCamera.enter_iteration. rewrite Hrun.
    pose proof (threads_set_pc tid (Got_read r) w _ _ Hat) as Hat1.
    unfold SimpleCamera.worker_step. rewrite Hat1.
    destruct Hr as [-> | ->]; simpl; eexists; (split; [done|]);
      (split; [eapply threads_set_pc; simpl; exact Hat1|done]). }
  simpl in Hstep. simpl.
  destruct (SimpleCamera.worker_step r tid s w) as [sa wa].
  destruct (SimpleCamera.worker_step r tid sa wa) as [sb wb].
  injection Hstep as -> ->. clear Hat Hrun. rewrite <- Hheap, <- Htrace.
  clear Hheap Htrace.
  revert w1 Hat1. induction reads as [|r' reads IH]; intros w1 Hat1; [by exists w1|].
  simpl. unfold SimpleCamera.worker_step. rewrite Hat1. simpl. rewrite Hat1. simpl.
  by apply IH.
Qed.

(** A running plain camera gives up on the first failed read. *)
Lemma camera_loop_exits_on_failed_read :
  let '(_, s, w) := SimpleCamera.start_camera (SimpleCamera.init 0) idle_world in
  stands_at SimpleCamera_capture_frames At_head 0 w /\
  SimpleCamera.is_running s = true /\
  let '(s', w') := SimpleCamera.capture_frames [Read_fail] 0 s w in
  SimpleCamera.is_running s' = true /\
  stands_at SimpleCamera_capture_frames Finished 0 w'.
Proof. repeat split. Qed.

(** C9 (as amended).  In the detector's capture loop, while
    [is_running] is set and the capture object is there, no read result
    makes the loop return: after any run of reads the worker is back at
    the head of the loop.  An iteration whose read fails leaves the
    detector as it was, touches no frame, and sleeps 0.1 s before the
    next iteration; an iteration whose read raises does the same after
    printing "Error capturing frame: ".  The plain camera's capture
    loop is the strict variant: at the first read that fails its worker
    logs "Failed to read frame from camera", at the first read that
    raises it logs "Error capturing frame: ", and in both cases it
    returns without a pause and without making the later reads; the
    camera object is untouched, so it is still flagged as running and
    keeps the frame it had. *)
Theorem capture_loops_on_failed_read :
  (forall reads now tid d w,
     stands_at FaceDetector_capture_frames At_head tid w ->
     FaceDetector.is_running d = true -> is_Some (FaceDetector.cap d) ->
     exists d' w',
       FaceDetector.capture_frames reads now tid d w = (d', w') /\
       stands_at FaceDetector_capture_frames At_head tid w' /\
       FaceDetector.is_running d' = true /\
       FaceDetector.cap d' = FaceDetector.cap d) /\
  (forall now tid d w,
     stands_at FaceDetector_capture_frames At_head tid w ->
     FaceDetector.is_running d = true -> is_Some (FaceDetector.cap d) ->
     exists w',
       FaceDetector.capture_frames [Read_fail] now tid d w = (d, w') /\
       stands_at FaceDetector_capture_frames At_head tid w' /\
       heap w' = heap w /\ trace w' = Ev_sleep 100 :: trace w) /\
  (forall now tid d w,
     stands_at FaceDetector_capture_frames At_head tid w ->
     FaceDetector.is_running d = true -> is_Some (FaceDetector.cap d) ->
     exists w',
       FaceDetector.capture_frames [Read_raise] now tid d w = (d, w') /\
       stands_at FaceDetector_capture_frames At_head tid w' /\
       heap w' = heap w /\
       trace w' = Ev_sleep 100 :: Ev_print "Error capturing frame: " :: trace w) /\
  (forall reads tid s w,
     stands_at SimpleCamera_capture_frames At_head tid w ->
     SimpleCamera.is_running s = true ->
     exists w',
       SimpleCamera.capture_frames (Read_fail :: reads) tid s w = (s, w') /\
       stands_at SimpleCamera_capture_frames Finished tid w' /\
       heap w' = heap w /\
       trace w' = Ev_print "Failed to read frame from camera" :: trace w) /\
  (forall reads tid s w,
     stands_at SimpleCamera_capture_frames At_head tid w ->
     SimpleCamera.is_running s = true ->
     exists w',
       SimpleCamera.capture_frames (Read_raise :: reads) tid s w = (s, w') /\
       stands_at SimpleCamera_capture_frames Finished tid w' /\
       heap w' = heap w /\
       trace w' = Ev_print "Error capturing frame: " :: trace w).
Proof.
  split; [|split; [|split; [|split]]].
  - intros reads now tid d w Hat Hrun Hcap.
    destruct (detector_capture_frames_loops reads now tid d w Hat Hrun Hcap)
      as (d' & w' & Hloop & Hat' & (_ & Hc & Hr & _)).
    exists d', w'. by rewrite Hr, Hc.
  - intros now tid d w Hat Hrun Hcap.
    destruct (detector_capture_iteration Read_fail now tid d w Hat Hrun Hcap)
      as (d' & w' & Hstep & Hat' & _ & Hfail).
    destruct (Hfail (or_introl eq_refl)) as (-> & Hheap & Htrace).
    by exists w'.
  - intros now tid d w Hat Hrun Hcap.
    destruct (detector_capture_iteration Read_raise now tid d w Hat Hrun Hcap)
      as (d' & w' & Hstep & Hat' & _ & Hfail).
    destruct (Hfail (or_intror eq_refl)) as (-> & Hheap & Htrace).
    by exists w'.
  - intros reads tid s w Hat Hrun.
    apply (camera_capture_stops reads Read_fail tid s w Hat Hrun). by left.
  - intros reads tid s w Hat Hrun.
    apply (camera_capture_stops reads Read_raise tid s w Hat Hrun). by right.
Qed.

End CaptureLoops.

(** ** The annotator *)

Lemma shape_imap {A} (g : nat -> list A -> list A) (img : list (list A)) :
  (forall i row, length (g i row) = length row) ->
  shape (imap g img) = shape img.
Proof.
  unfold shape. revert g. induction img as [|row img IH]; intros g Hg; simpl; [done|].
  rewrite Hg. f_equal. apply IH. intros i row'. apply Hg.
Qed.

Lemma shape_paint cover c (f : frame) : shape (paint cover c f) = shape f.
Proof. unfold paint. apply shape_imap. intros i row. apply length_imap. Qed.

Lemma shape_height {A} (a b : list (list A)) : shape a = shape b -> height a = height b.
Proof.
  unfold shape, height. intros Hs.
  by rewrite <- (length_map length a), <- (length_map length b), Hs.
Qed.

Lemma shape_width {A} (a b : list (list A)) : shape a = shape b -> width a = width b.
Proof.
  unfold shape, width. destruct a, b; simpl; intros Hs; try done; congruence.
Qed.

Section AnnotatorSpec.
Context `{Vision}.
Import FaceDetector.

(** Colour and label of a detection: green and the name with the
    confidence for a matched face, red and "Unknown" otherwise. *)
Definition style (face : detection) : pixel * string :=
  if truthy_id (det_student_id face)
  then ((0, 255, 0),
        det_name face +:+ " (" +:+ format_percent (det_confidence face) +:+ ")")
  else ((0, 0, 255), "Unknown").

(** The drawing calls made for one detection on the array [l]: the
    outline of the region, then the label (a filled bar above the
    region and the text on it). *)
Definition drawing_calls (l : loc) (face : detection) : list event :=
  let '(x, y, w, h) := det_location face in
  [Ev_rectangle l (x, y) (Int32.add x w, Int32.add y h) (style face).1 2;
   Ev_rectangle l (x, Int32.sub y 30) (Int32.add x w, y) (style face).1 (-1);
   Ev_putText l (style face).2 (Int32.add x 5, Int32.sub y 10) (255, 255, 255)].

(** What these calls make of a frame. *)
Definition annotated (f : frame) (face : detection) : frame :=
  let '(x, y, w, h) := det_location face in
  let f := rectangle f (x, y) (Int32.add x w, Int32.add y h) (style face).1 2 in
  let f := rectangle f (x, Int32.sub y 30) (Int32.add x w, y) (style face).1 (-1) in
  putText f (style face).2 (Int32.add x 5, Int32.sub y 10) (255, 255, 255).

Lemma shape_annotated f face : shape (annotated f face) = shape f.
Proof.
  unfold annotated, putText, rectangle.
  destruct (det_location face) as [[[x y] w] h]. by rewrite !shape_paint.
Qed.

Lemma shape_foldl_annotated faces : forall f,
  shape (foldl annotated f faces) = shape f.
Proof.
  induction faces as [|face faces IH]; intros f; simpl; [done|].
  by rewrite IH, shape_annotated.
Qed.

Lemma annotate_face_effect l w0 face g :
  heap w0 !! l = Some g ->
  let w1 := annotate_face l w0 face in
  heap w1 = <[l := annotated g face]> (heap w0) /\
  trace w1 = rev (drawing_calls l face) ++ trace w0 /\
  threads w1 = threads w0 /\ device_present w1 = device_present w0.
Proof.
  intros Hl. unfold annotate_face, annotated, drawing_calls, style.
  destruct (det_location face) as [[[x y] w] h].
  destruct (truthy_id (det_student_id face)); simpl;
    (split; [|done]); apply map_eq; intros l';
    (destruct (decide (l' = l)) as [->|Hne];
     [rewrite !lookup_alter_eq, Hl, lookup_insert_eq; done
     |rewrite !lookup_alter_ne, lookup_insert_ne by done; done]).
Qed.

Lemma annotate_faces_effect l faces : forall w0 g,
  heap w0 !! l = Some g ->
  let w1 := foldl (annotate_face l) w0 faces in
  heap w1 = <[l := foldl annotated g faces]> (heap w0) /\
  trace w1 = rev (concat (map (drawing_calls l) faces)) ++ trace w0 /\
  threads w1 = threads w0 /\ device_present w1 = device_present w0.
Proof.
  induction faces as [|face faces IH]; intros w0 g Hl; simpl.
  - split; [|done]. by rewrite insert_id.
  - destruct (annotate_face_effect l w0 face g Hl) as (Hh & Ht & Hth & Hd).
    destruct (IH (annotate_face l w0 face) (annotated g face)) as (Hh' & Ht' & Hth' & Hd').
    { rewrite Hh. apply lookup_insert_eq. }
    split; [|split; [|split]].
    + rewrite Hh', Hh. apply insert_insert_eq.
    + rewrite Ht', Ht, rev_app_distr, app_assoc. done.
    + congruence.
    + congruence.
Qed.

(** C8.  With a frame [f] stored at [l0], the annotator returns a new
    array [l], distinct from [l0] and from every array that existed.
    It holds [f] with the drawing of every published detection applied
    in order, it has the shape of [f] (so the same height and width),
    and the calls made are, per detection, one outline rectangle and one
    label.  Every array that existed, the stored frame among them, holds
    afterwards exactly what it held before. *)
Theorem annotation_preserves_stored_frame d w l0 f :
  current_frame d = Some l0 ->
  heap w !! l0 = Some f ->
  exists l w',
    get_current_frame_with_annotations d w = (Some l, w') /\
    l <> l0 /\ heap w !! l = None /\
    heap w' !! l = Some (foldl annotated f (detected_faces d)) /\
    shape (foldl annotated f (detected_faces d)) = shape f /\
    height (foldl annotated f (detected_faces d)) = height f /\
    width (foldl annotated f (detected_faces d)) = width f /\
    trace w' = rev (concat (map (drawing_calls l) (detected_faces d))) ++ trace w /\
    heap w' !! l0 = Some f /\
    (forall l', l' <> l -> heap w' !! l' = heap w !! l').
Proof.
  intros Hcur Hl0. unfold get_current_frame_with_annotations.
  rewrite Hcur, Hl0. unfold alloc.
  set (l := fresh (dom (heap w))).
  assert (heap w !! l = None) as Hfresh.
  { apply not_elem_of_dom. apply is_fresh. }
  assert (l <> l0) as Hne by congruence.
  set (w1 := set_heap (<[l := f]> (heap w)) w).
  destruct (annotate_faces_effect l (detected_faces d) w1 f) as (Hh & Ht & _).
  { apply lookup_insert_eq. }
  pose proof (shape_foldl_annotated (detected_faces d) f) as Hshape.
  exists l, (foldl (annotate_face l) w1 (detected_faces d)).
  split; [done|]. split; [done|]. split; [done|].
  split; [rewrite Hh; apply lookup_insert_eq|].
  split; [done|].
  split; [by apply shape_height|].
  split; [by apply shape_width|].
  split; [exact Ht|].
  assert (forall l', l' <> l ->
            heap (foldl (annotate_face l) w1 (detected_faces d)) !! l' = heap w !! l')
    as Hother.
  { intros l' Hl'. rewrite Hh. simpl. by rewrite !lookup_insert_ne. }
  split; [|exact Hother].
  rewrite Hother by done. exact Hl0.
Qed.

End AnnotatorSpec.

(** ** Attendance marking *)

Section AttendanceStore.
Import Db.

Lemma all_attendance_commit x : all_attendance (commit x) = all_attendance x.
Proof. unfold all_attendance, commit. simpl. by rewrite app_nil_r. Qed.

Lemma all_students_commit x : all_students (commit x) = all_students x.
Proof. unfold all_students, commit. simpl. by rewrite app_nil_r. Qed.

Lemma all_attendance_add sid day t status c x :
  exists id,
    all_attendance (add_attendance sid day t status c x) =
    all_attendance x ++ [MkAttendance id sid day t None status c].
Proof. eexists. unfold all_attendance, add_attendance. simpl. by rewrite app_assoc. Qed.

Lemma all_students_add_attendance sid day t status c x :
  all_students (add_attendance sid day t status c x) = all_students x.
Proof. done. Qed.

Lemma find_app_None {A} (p : A -> bool) (l k : list A) :
  find p (l ++ k) = None <-> find p l = None /\ find p k = None.
Proof.
  induction l as [|a l IH]; simpl.
  - split; [by intros ->|by intros [_ ->]].
  - destruct (p a); [|done]. split; [discriminate|by intros [? _]].
Qed.


Lemma find_None_filter {A} (p : A -> bool) (l : list A) :
  find p l = None <-> filter (fun a => p a = true) l = [].
Proof.
  induction l as [|a l IH]; simpl; [done|].
  rewrite filter_cons. destruct (p a) eqn:Hp.
  - rewrite decide_True by done. done.
  - rewrite decide_False by congruence. done.
Qed.

Lemma attendance_on_None sid day x :
  attendance_on sid day x = None <-> records_of sid day x = [].
Proof. apply find_None_filter. Qed.

Lemma get_student_id id x st : get_student id x = Some st -> s_id st = id.
Proof.
  unfold get_student. intros Hfind. apply find_some in Hfind as [_ Hid].
  by apply bool_decide_eq_true in Hid.
Qed.

(** At most one record per student and day. *)
Definition unique_per_day (x : Db.t) : Prop :=
  forall sid day, (length (records_of sid day x) <= 1)%nat.

Lemma records_of_snoc sid day x x' r :
  all_attendance x' = all_attendance x ++ [r] ->
  records_of sid day x' =
  records_of sid day x ++ (if on_day sid day r then [r] else []).
Proof.
  unfold records_of. intros ->. rewrite filter_app, filter_cons, filter_nil.
  destruct (on_day sid day r); [by rewrite decide_True|by rewrite decide_False].
Qed.

Lemma on_day_inv sid day sid' day' id t status c :
  on_day sid day (MkAttendance id sid' day' t None status c) = true ->
  sid' = sid /\ day' = day.
Proof.
  unfold on_day. simpl. intros Hb. apply andb_true_iff in Hb as [H1 H2].
  split; by eapply bool_decide_eq_true.
Qed.

End AttendanceStore.

Section MarkPresent.
Import Db App.

(** The student a request resolves to. *)
Definition resolved (c : mark_call) (x : Db.t) : option Student :=
  match c with
  | Manual student_id =>
      if Helpers.filled student_id
      then active_student_by_student_id (default "" student_id) x
      else None
  | Detected student_id _ =>
      if truthy_id student_id then get_student (default 0 student_id) x else None
  end.

(** The confidence a request stores. *)
Definition stored_confidence (c : mark_call) : float :=
  match c with
  | Manual _ => IEEE.lit_1_0
  | Detected _ confidence => default IEEE.zero confidence
  end.

(** The answer to a request for a student already marked that day. *)
Definition already_marked (c : mark_call) (st : Student) : reply :=
  match c with
  | Manual _ =>
      Redirect "mark_attendance"
        [(s_name st +:+ " already marked present today", "warning")]
  | Detected _ _ => Json false (s_name st +:+ " already marked present today")
  end.

(** The two outcomes of a request that resolves to a student. *)
Lemma mark_present_resolved c today now a st :
  resolved c (db a) = Some st ->
  match attendance_on (s_id st) today (db a) with
  | Some _ => mark_present c today now a = (already_marked c st, a)
  | None =>
      (mark_present c today now a).2 =
      set_db (commit (add_attendance (s_id st) today now "Present"
                        (Some (stored_confidence c)) (db a))) a
  end.
Proof.
  destruct c as [sid|sid conf]; simpl.
  - unfold mark_manual_attendance.
    destruct (Helpers.filled sid); simpl; [|discriminate].
    intros ->. by destruct (attendance_on (s_id st) today (db a)).
  - unfold mark_student_present.
    destruct (truthy_id sid); simpl; [|discriminate].
    intros Hget. rewrite Hget. apply get_student_id in Hget as ->.
    by destruct (attendance_on (default 0 sid) today (db a)).
Qed.

(** A request that resolves to no student changes nothing. *)
Lemma mark_present_unresolved c today now a :
  resolved c (db a) = None -> (mark_present c today now a).2 = a.
Proof.
  destruct c as [sid|sid conf]; simpl.
  - unfold mark_manual_attendance.
    destruct (Helpers.filled sid); simpl; [|done]. by intros ->.
  - unfold mark_student_present.
    destruct (truthy_id sid); simpl; [|done]. by intros ->.
Qed.

(** Either nothing changes, or one record with status 'Present' is
    appended for a student who had none that day. *)
Lemma mark_present_effect c today now a :
  (mark_present c today now a).2 = a \/
  exists st r,
    resolved c (db a) = Some st /\
    attendance_on (s_id st) today (db a) = None /\
    a_student_id r = s_id st /\ a_date r = today /\ a_status r = "Present" /\
    all_attendance (db (mark_present c today now a).2) = all_attendance (db a) ++ [r] /\
    all_students (db (mark_present c today now a).2) = all_students (db a).
Proof.
  destruct (resolved c (db a)) as [st|] eqn:Hres;
    [|left; by apply mark_present_unresolved].
  pose proof (mark_present_resolved c today now a st Hres) as Hcase.
  destruct (attendance_on (s_id st) today (db a)) eqn:Hon.
  - left. by rewrite Hcase.
  - right. rewrite Hcase. simpl.
    destruct (all_attendance_add (s_id st) today now "Present"
                (Some (stored_confidence c)) (db a)) as [id Hadd].
    exists st, (MkAttendance id (s_id st) today now None "Present"
                  (Some (stored_confidence c))).
    rewrite all_attendance_commit, all_students_commit. by repeat split.
Qed.

Lemma mark_present_unique c today now a :
  unique_per_day (db a) -> unique_per_day (db (mark_present c today now a).2).
Proof.
  intros Huniq.
  destruct (mark_present_effect c today now a)
    as [->|(st & r & _ & Hnone & Hsid & Hday & _ & Hall & _)]; [done|].
  intros sid day. rewrite (records_of_snoc sid day _ _ r Hall).
  destruct (on_day sid day r) eqn:Hon.
  - unfold on_day in Hon. apply andb_true_iff in Hon as [H1 H2].
    apply bool_decide_eq_true in H1, H2. subst sid day.
    rewrite Hsid, Hday. apply attendance_on_None in Hnone. rewrite Hnone. simpl. lia.
  - rewrite app_nil_r. apply Huniq.
Qed.



Lemma mark_present_students c today now a :
  all_students (db (mark_present c today now a).2) = all_students (db a).
Proof.
  destruct (mark_present_effect c today now a)
    as [->|(st & r & _ & _ & _ & _ & _ & _ & Hst)]; done.
Qed.


Lemma mark_present_marks c today now a st :
  resolved c (db a) = Some st ->
  is_Some (attendance_on (s_id st) today (db (mark_present c today now a).2)).
Proof.
  intros Hres. pose proof (mark_present_resolved c today now a st Hres) as Hcase.
  destruct (attendance_on (s_id st) today (db a)) eqn:Hon.
  - rewrite Hcase. simpl. by rewrite Hon.
  - rewrite Hcase. simpl. unfold attendance_on. rewrite all_attendance_commit.
    destruct (all_attendance_add (s_id st) today now "Present"
                (Some (stored_confidence c)) (db a)) as [id ->].
    destruct (find _ (_ ++ _)) eqn:Hfind; [done|].
    apply find_app_None in Hfind as [_ Hfind]. simpl in Hfind.
    unfold on_day in Hfind. simpl in Hfind.
    by rewrite !bool_decide_eq_true_2 in Hfind.
Qed.


End MarkPresent.

Section AutoMark.
Import Db App.

(** The key a detection is looked up and recorded under. *)
Definition face_id (face : detection) : Z := default 0 (det_student_id face).

(** The detection carries a student id and a confidence above 0.3. *)
Definition confident (face : detection) : Prop :=
  truthy_id (det_student_id face) = true /\
  IEEE.gt (det_confidence face) IEEE.lit_0_3 = true.

(** A confident detection of a student who is in the store and has no
    record for [today] in [x0]. *)
Definition eligible (x0 : Db.t) (today : date) (face : detection) : Prop :=
  confident face /\
  is_Some (get_student (face_id face) x0) /\
  attendance_on (face_id face) today x0 = None.

(** [r] is the record made for [face]. *)
Definition marks (today : date) (now : datetime) (face : detection)
    (r : AttendanceRecord) : Prop :=
  a_student_id r = face_id face /\ a_date r = today /\ a_time_in r = now /\
  a_time_out r = None /\ a_status r = "Present" /\
  a_confidence_score r = Some (det_confidence face).

(** The session and [marked_students] once [seen] has been gone
    through, starting from the session [x0]. *)
Definition auto_marked (x0 : Db.t) (today : date) (now : datetime)
    (seen : list detection) (acc : Db.t * list marked) : Prop :=
  exists added,
    acc.1 = Db.Make (students x0) (attendance_records x0) (new_students x0)
                 (new_attendance x0 ++ added) (commits x0) /\
    Forall (fun r => exists face,
              face ∈ seen /\ eligible x0 today face /\ marks today now face r) added /\
    NoDup (map a_student_id added) /\
    (forall face, face ∈ seen -> eligible x0 today face ->
                  face_id face ∈ map a_student_id added) /\
    length acc.2 = length added.

Lemma auto_marked_nil x0 today now : auto_marked x0 today now [] (x0, []).
Proof.
  exists []. simpl. rewrite app_nil_r. split; [by destruct x0|].
  split; [constructor|]. split; [constructor|]. split; [|done].
  intros face Hin. by apply elem_of_nil in Hin.
Qed.

Lemma find_on_day_added today now x0 (seen : list detection) added id :
  Forall (fun r => exists face,
            face ∈ seen /\ eligible x0 today face /\ marks today now face r) added ->
  find (on_day id today) added = None <-> id ∉ map a_student_id added.
Proof.
  induction 1 as [|r added (face & _ & _ & Hmarks) _ IH]; simpl.
  - split; [intros _ Hin; by apply elem_of_nil in Hin|done].
  - destruct Hmarks as (Hid & Hday & _). unfold on_day at 1. rewrite Hday.
    rewrite (bool_decide_eq_true_2 (today = today)) by done. rewrite andb_true_r.
    rewrite not_elem_of_cons. case_bool_decide as Heq.
    + split; [discriminate|]. intros [Hne _]. by destruct Hne.
    + rewrite IH. split; [intros ?; split; [congruence|done]|by intros [_ ?]].
Qed.

Lemma auto_mark_face_step x0 today now seen acc face :
  auto_marked x0 today now seen acc ->
  auto_marked x0 today now (seen ++ [face]) (auto_mark_face today now acc face).
Proof.
  destruct acc as [x marked_students].
  intros (added & Hx & Hfrom & Hnodup & Hall & Hlen). simpl in Hx, Hlen. subst x.
  assert (Forall (fun r => exists face0,
                    face0 ∈ seen ++ [face] /\ eligible x0 today face0 /\
                    marks today now face0 r) added) as Hfrom'.
  { eapply Forall_impl; [exact Hfrom|]. intros r (f0 & Hin & He & Hm).
    exists f0. split; [apply elem_of_app; by left|done]. }
  (* the loop body leaves the pair as it is *)
  assert ((eligible x0 today face -> face_id face ∈ map a_student_id added) ->
          auto_marked x0 today now (seen ++ [face])
            (Db.Make (students x0) (attendance_records x0) (new_students x0)
                  (new_attendance x0 ++ added) (commits x0), marked_students))
    as Hskip.
  { intros Hface. exists added. split; [done|]. split; [done|]. split; [done|].
    split; [|done]. intros f0 Hin He.
    apply elem_of_app in Hin as [Hin|Hin]; [by apply Hall|].
    apply list_elem_of_singleton in Hin as ->. by apply Hface. }
  unfold auto_mark_face.
  destruct (truthy_id (det_student_id face)) eqn:Hid; simpl;
    [|apply Hskip; intros ((Ht & _) & _); congruence].
  destruct (IEEE.gt (det_confidence face) IEEE.lit_0_3) eqn:Hconf; simpl;
    [|apply Hskip; intros ((_ & Hc) & _); congruence].
  fold (face_id face).
  change (get_student (face_id face) (Db.Make (students x0) (attendance_records x0)
            (new_students x0) (new_attendance x0 ++ added) (commits x0)))
    with (get_student (face_id face) x0).
  destruct (get_student (face_id face) x0) as [student|] eqn:Hst.
  2:{ apply Hskip. intros (_ & [s Hs] & _). congruence. }
  unfold attendance_on, all_attendance. simpl. rewrite app_assoc.
  fold (all_attendance x0).
  destruct (find (on_day (face_id face) today) (all_attendance x0 ++ added))
    as [r0|] eqn:Hfind.
  - (* a record for that day is already there *)
    apply Hskip. intros (_ & _ & Hnone).
    destruct (find (on_day (face_id face) today) added) as [r1|] eqn:Hadded.
    + apply find_some in Hadded as [Hin Hon].
      apply andb_true_iff in Hon as [Hon _]. apply bool_decide_eq_true in Hon.
      rewrite <- Hon. apply list_elem_of_fmap_2. by apply list_elem_of_In.
    + assert (find (on_day (face_id face) today) (all_attendance x0 ++ added) = None)
        as Hbad by (by apply find_app_None).
      congruence.
  - (* a record is added *)
    apply find_app_None in Hfind as [Hnone Hadded].
    apply (find_on_day_added today now x0 seen added) in Hadded; [|done].
    assert (eligible x0 today face) as Hel by (repeat split; eauto).
    unfold add_attendance. simpl.
    match goal with
    | |- context [MkAttendance ?i _ _ _ _ _ _] =>
        set (r := MkAttendance i (face_id face) today now None "Present"
                    (Some (det_confidence face)))
    end.
    exists (added ++ [r]). simpl. split; [by rewrite app_assoc|].
    split; [|split; [|split]].
    + apply Forall_app. split; [done|]. constructor; [|constructor].
      exists face. split; [apply elem_of_app; right; by apply list_elem_of_singleton|].
      by repeat split.
    + rewrite map_app. simpl. apply NoDup_app. split; [done|].
      split; [|apply NoDup_singleton].
      intros id Hin Hin'. apply list_elem_of_singleton in Hin' as ->. done.
    + intros f0 Hin He. rewrite map_app. apply elem_of_app.
      apply elem_of_app in Hin as [Hin|Hin]; [left; by apply Hall|].
      apply list_elem_of_singleton in Hin as ->. right. simpl.
      by apply list_elem_of_singleton.
    + rewrite !length_app. simpl. lia.
Qed.

Lemma auto_mark_loop x0 today now faces : forall seen acc,
  auto_marked x0 today now seen acc ->
  auto_marked x0 today now (seen ++ faces)
    (foldl (auto_mark_face today now) acc faces).
Proof.
  induction faces as [|face faces IH]; intros seen acc Hinv; simpl.
  - by rewrite app_nil_r.
  - rewrite cons_middle, app_assoc. apply IH. by apply auto_mark_face_step.
Qed.

End AutoMark.

(** Sample values: a clock reading and the floats 0.25 and 0.9. *)
Definition sample_day : date := Date 2024 3 11.
Definition sample_now : datetime := DateTime sample_day 10 0 0 0.
Definition lit_0_25 : float := S754_finite false 4503599627370496 (-54).
Definition lit_0_9 : float := S754_finite false 8106479329266893 (-53).

Section AutoMarkSpec.
Import Db App.

Lemma filter_by_key_nil {A} (f : A -> Z) (l : list A) (k : Z) :
  k ∉ map f l -> filter (fun y => f y = k) l = [].
Proof.
  induction l as [|x l IH]; simpl; intros Hk; [done|].
  apply not_elem_of_cons in Hk as [Hne Hk].
  rewrite filter_cons, decide_False by congruence. by apply IH.
Qed.

Lemma filter_by_key_length {A} (f : A -> Z) (l : list A) (k : Z) :
  NoDup (map f l) -> k ∈ map f l ->
  length (filter (fun y => f y = k) l) = 1%nat.
Proof.
  induction l as [|x l IH]; simpl; intros Hnd Hin; [by apply elem_of_nil in Hin|].
  apply NoDup_cons in Hnd as [Hx Hnd]. rewrite filter_cons.
  destruct (decide (f x = k)) as [Heq|Hne].
  - simpl. f_equal. subst k. by rewrite filter_by_key_nil.
  - apply IH; [done|]. apply elem_of_cons in Hin as [Hin|Hin]; [congruence|done].
Qed.

(** What [auto_mark_attendance] does to the store when face recognition
    is active. *)
Lemma auto_mark_attendance_active today now a d :
  FACE_RECOGNITION_AVAILABLE a = true ->
  face_detector a = Some d ->
  face_recognition_active a = true ->
  exists x marked_students,
    auto_marked (db a) today now (FaceDetector.get_detected_faces d)
      (x, marked_students) /\
    (auto_mark_attendance today now a).2 =
      set_db (match marked_students with [] => x | _ => commit x end) a.
Proof.
  intros Hav Hdet Hact. unfold auto_mark_attendance. rewrite Hav, Hdet, Hact. simpl.
  pose proof (auto_mark_loop (db a) today now (FaceDetector.get_detected_faces d)
                [] (db a, []) (auto_marked_nil _ _ _)) as Hloop.
  simpl in Hloop.
  destruct (foldl (auto_mark_face today now) (db a, [])
              (FaceDetector.get_detected_faces d)) as [x marked_students].
  exists x, marked_students. split; [done|]. by destruct marked_students.
Qed.

(** Otherwise it changes nothing. *)
Lemma auto_mark_attendance_inactive today now a :
  FACE_RECOGNITION_AVAILABLE a = false \/ face_detector a = None \/
  face_recognition_active a = false ->
  (auto_mark_attendance today now a).2 = a.
Proof.
  unfold auto_mark_attendance.
  destruct (FACE_RECOGNITION_AVAILABLE a); simpl; [|done].
  destruct (face_detector a) as [d|]; [|done].
  destruct (face_recognition_active a); simpl; [|done].
  intros [?|[?|?]]; discriminate.
Qed.

(** A confident detection of a student who has left the store is
    passed over, although no record of the day exists for that id. *)
Lemma auto_mark_skips_student_not_in_store :
  let face := Detection (Some 7) "Ann" lit_0_9 (0, 0, 10, 10) sample_now in
  let d := FaceDetector.set_detected_faces [face] (FaceDetector.init 0) in
  let a := App.Make true "student_images" (Some d) (SimpleCamera.init 0)
             false true Db.empty ∅ idle_world in
  confident face /\
  attendance_on (face_id face) sample_day (db a) = None /\
  all_attendance (db (auto_mark_attendance sample_day sample_now a).2) = [].
Proof. repeat split. Qed.

(** C2 (as amended).  With face recognition active, [auto_mark_attendance]
    appends records to the store and nothing else.  Every record it
    appends is the record of a published detection that carries a
    student id, has confidence above 0.3, names a student present in
    the store, and whose student had no record for the current date:
    status 'Present', that date, and the detection's confidence.  Each
    such detected student gets exactly one record.  A detection that
    fails one of these tests yields none.  When at least one record is
    appended they are all committed by one commit at the end; when none
    is, nothing is committed and the store is unchanged. *)
Theorem auto_mark_attendance_batch today now a d :
  FACE_RECOGNITION_AVAILABLE a = true ->
  face_detector a = Some d ->
  face_recognition_active a = true ->
  exists added,
    let faces := FaceDetector.get_detected_faces d in
    let a' := (auto_mark_attendance today now a).2 in
    all_attendance (db a') = all_attendance (db a) ++ added /\
    all_students (db a') = all_students (db a) /\
    Forall (fun r => exists face,
              face ∈ faces /\ eligible (db a) today face /\ marks today now face r)
           added /\
    (forall face, face ∈ faces -> eligible (db a) today face ->
       length (filter (fun r => a_student_id r = face_id face) added) = 1%nat) /\
    match added with
    | [] => db a' = db a
    | _ :: _ =>
        commits (db a') = S (commits (db a)) /\
        new_attendance (db a') = [] /\
        attendance_records (db a') = all_attendance (db a) ++ added
    end.
Proof.
  intros Hav Hdet Hact.
  destruct (auto_mark_attendance_active today now a d Hav Hdet Hact)
    as (x & ms & Hinv & ->).
  destruct Hinv as (added & Hx & Hfrom & Hnd & Hall & Hlen). simpl in Hx, Hlen.
  exists added. simpl. subst x.
  split; [|split; [|split; [done|split]]].
  - destruct ms; simpl; [|rewrite all_attendance_commit];
      unfold all_attendance; simpl; by rewrite app_assoc.
  - by destruct ms; simpl; [|rewrite all_students_commit].
  - intros face Hin He. apply filter_by_key_length; [done|by apply Hall].
  - destruct ms as [|m ms], added as [|r added]; try discriminate; simpl.
    + rewrite app_nil_r. by destruct (db a).
    + unfold all_attendance. simpl. by rewrite app_assoc.
Qed.

(** The store grows by records of status 'Present' only. *)
Definition appends_present (x x' : Db.t) : Prop :=
  exists added,
    all_attendance x' = all_attendance x ++ added /\
    Forall (fun r => a_status r = "Present") added.

Lemma appends_present_refl x : appends_present x x.
Proof. exists []. split; [by rewrite app_nil_r|constructor]. Qed.

Lemma mark_present_appends c today now a :
  appends_present (db a) (db (mark_present c today now a).2).
Proof.
  destruct (mark_present_effect c today now a)
    as [->|(st & r & _ & _ & _ & _ & Hst & Hall & _)]; [apply appends_present_refl|].
  exists [r]. split; [done|]. by repeat constructor.
Qed.

Lemma auto_mark_appends today now a :
  appends_present (db a) (db (auto_mark_attendance today now a).2).
Proof.
  destruct (FACE_RECOGNITION_AVAILABLE a) eqn:Hav;
    [|rewrite auto_mark_attendance_inactive by auto; apply appends_present_refl].
  destruct (face_detector a) as [d|] eqn:Hdet;
    [|rewrite auto_mark_attendance_inactive by auto; apply appends_present_refl].
  destruct (face_recognition_active a) eqn:Hact;
    [|rewrite auto_mark_attendance_inactive by auto; apply appends_present_refl].
  destruct (auto_mark_attendance_active today now a d Hav Hdet Hact)
    as (x & ms & Hinv & ->).
  destruct Hinv as (added & Hx & Hfrom & _). simpl in Hx. subst x.
  exists added. split.
  - destruct ms; simpl; [|rewrite all_attendance_commit];
      unfold all_attendance; simpl; by rewrite app_assoc.
  - eapply Forall_impl; [exact Hfrom|].
    intros r (face & _ & _ & (_ & _ & _ & _ & Hst & _)). exact Hst.
Qed.

Lemma get_attendance_status_samples day :
  Helpers.get_attendance_status (Some (DateTime day 8 59 0 0)) = "Present" /\
  Helpers.get_attendance_status (Some (DateTime day 9 10 0 0)) = "Late" /\
  Helpers.get_attendance_status (Some (DateTime day 10 0 0 0)) = "Absent".
Proof.
  unfold Helpers.get_attendance_status, datetime_leb, datetime_key. simpl.
  by rewrite !Z.ltb_irrefl, !Z.eqb_refl.
Qed.

(** C10.  Whatever the clock reads, each of the three marking flows
    changes the attendance store only by appending records, and every
    record appended has status 'Present'.  The helper
    [get_attendance_status] would have answered 'Late' for an arrival
    at 09:10 and 'Absent' for one at 10:00; the flows do not consult
    it. *)
Theorem marking_flows_record_present :
  (forall student_id today now a,
     appends_present (db a) (db (mark_manual_attendance student_id today now a).2)) /\
  (forall student_id confidence today now a,
     appends_present (db a)
       (db (mark_student_present student_id confidence today now a).2)) /\
  (forall today now a,
     appends_present (db a) (db (auto_mark_attendance today now a).2)) /\
  (forall day,
     Helpers.get_attendance_status (Some (DateTime day 8 59 0 0)) = "Present" /\
     Helpers.get_attendance_status (Some (DateTime day 9 10 0 0)) = "Late" /\
     Helpers.get_attendance_status (Some (DateTime day 10 0 0 0)) = "Absent").
Proof.
  split; [|split; [|split]].
  - intros sid today now a. apply (mark_present_appends (Manual sid)).
  - intros sid conf today now a. apply (mark_present_appends (Detected sid conf)).
  - apply auto_mark_appends.
  - apply get_attendance_status_samples.
Qed.

End AutoMarkSpec.

(** ** Registration *)

Section RegistrationSpec.
Context `{Vision} `{Helpers.Disk}.
Variable secure_filename : string -> string.
Import App.

(** The encoding a photo yields: the file is decoded and
    [encode_image] is run on the image. *)
Definition photo_encoding (content : list Byte.byte) : option encoding :=
  match imdecode content with
  | Some image => FaceEncoder.encode_image image
  | None => None
  end.

Lemma encode_face_from_saved files image_path content :
  files !! image_path = Some content ->
  FaceEncoder.encode_face_from_image files image_path = photo_encoding content.
Proof. unfold FaceEncoder.encode_face_from_image, photo_encoding. by intros ->. Qed.

Lemma save_uploaded_file_saved file folder prefix now files image_path files' :
  Helpers.save_uploaded_file secure_filename file folder prefix now files
    = (Some image_path, files') ->
  files' = <[image_path := Helpers.up_content file]> files.
Proof.
  unfold Helpers.save_uploaded_file. destruct (_ && _); [|discriminate].
  destruct (Helpers.writable _); [|discriminate]. by intros [= <- <-].
Qed.

Definition form_id (rq : registration) : string :=
  default "" (Helpers.f_student_id (rq_data rq)).

(** Where the photo of a registration is written. *)
Definition photo_path (rq : registration) (now : datetime) (a : App.t)
    (file : Helpers.upload) : string :=
  STUDENT_IMAGES_FOLDER a +:+ "/" +:+
  (("student_" +:+ form_id rq +:+ "_") +:+ Helpers.strftime_stamp now +:+ "_" +:+
   secure_filename (Helpers.up_filename file)).

Lemma save_uploaded_file_allowed file folder prefix now files :
  Helpers.up_filename file <> "" ->
  Helpers.allowed_file (Helpers.up_filename file) = true ->
  Helpers.save_uploaded_file secure_filename file folder prefix now files =
  let filepath :=
    folder +:+ "/" +:+
    (prefix +:+ Helpers.strftime_stamp now +:+ "_" +:+
     secure_filename (Helpers.up_filename file)) in
  if Helpers.writable filepath
  then (Some filepath, <[filepath := Helpers.up_content file]> files)
  else (None, files).
Proof.
  intros Hname Hallowed. unfold Helpers.save_uploaded_file.
  by rewrite Hallowed, bool_decide_eq_false_2.
Qed.

(** The request passes every check made before the photo is looked at,
    the writing of the photo to disk included. *)
Definition reaches_encoder (rq : registration) (now : datetime) (a : t)
    (file : Helpers.upload) : Prop :=
  rq_is_get rq = false /\
  Helpers.validate_student_data (rq_data rq) = [] /\
  Db.student_by_student_id (form_id rq) (db a) = None /\
  rq_image rq = Some file /\
  Helpers.up_filename file <> "" /\
  Helpers.allowed_file (Helpers.up_filename file) = true /\
  Helpers.writable (photo_path rq now a file) = true.

(** C7.  With face recognition available, a registration whose
    uploaded photo yields no encoding leaves the database exactly as it
    was (no student row, no encoding) and is never answered by the
    redirect of a successful registration.  When the request passes the
    earlier checks, the photo having been written to disk among them,
    the answer is the form again with the flash "No face detected in
    the image. Please upload a clear photo." and the file just saved is
    removed. *)
Theorem registration_without_face_rejected rq now a file :
  FACE_RECOGNITION_AVAILABLE a = true ->
  rq_image rq = Some file ->
  photo_encoding (Helpers.up_content file) = None ->
  db (register_student secure_filename rq now a).2 = db a /\
  (exists flashes,
     (register_student secure_filename rq now a).1 =
       Render "register_student.html" flashes) /\
  (reaches_encoder rq now a file ->
   (register_student secure_filename rq now a).1 =
     Render "register_student.html"
       [("No face detected in the image. Please upload a clear photo.", "error")] /\
   fs (register_student secure_filename rq now a).2 =
     delete (photo_path rq now a file)
       (<[photo_path rq now a file := Helpers.up_content file]> (fs a))).
Proof.
  intros Hav Himg Hnone. unfold reaches_encoder, register_student.
  destruct (rq_is_get rq); [split; [done|split; [eauto|by intros [? _]]]|].
  destruct (Helpers.validate_student_data (rq_data rq)) as [|e errors];
    [|split; [done|split; [eauto|by intros (_ & ? & _)]]].
  fold (form_id rq).
  destruct (Db.student_by_student_id _ (db a));
    [split; [done|split; [eauto|by intros (_ & _ & ? & _)]]|].
  rewrite Himg.
  case_bool_decide as Hname;
    [split; [done|split; [eauto|by intros (_ & _ & _ & _ & ? & _)]]|].
  destruct (Helpers.allowed_file (Helpers.up_filename file)) eqn:Hallowed.
  2:{ unfold Helpers.save_uploaded_file. rewrite Hallowed, andb_false_r.
      split; [done|]. split; [eauto|]. by intros (_ & _ & _ & _ & _ & ? & _). }
  rewrite (save_uploaded_file_allowed file _ _ now (fs a) Hname Hallowed).
  fold (photo_path rq now a file). cbv zeta.
  destruct (Helpers.writable (photo_path rq now a file)) eqn:Hwrite.
  - simpl. rewrite Hav. simpl.
    rewrite (encode_face_from_saved _ _ (Helpers.up_content file))
      by apply lookup_insert_eq.
    rewrite Hnone. simpl. split; [done|]. split; [eauto|]. done.
  - split; [done|]. split; [eauto|]. by intros (_ & _ & _ & _ & _ & _ & ?).
Qed.

End RegistrationSpec.

(* ===================================================================== *)
(** * Part III. The model at work on sample data                          *)
(* ===================================================================== *)

(** ** A small stand-in for OpenCV and numpy

    Images are 2 x 2.  The decoder knows two files: byte [01] is a
    portrait, byte [02] a blank wall.  The detector reports three
    regions on the portrait, two of them of the same, largest, area.
    The "correlation" of two vectors is the first entry of the second
    one, so that enrolled faces can be given any score. *)

Definition portrait : frame := [[(10, 0, 0); (20, 0, 0)]; [(30, 0, 0); (40, 0, 0)]].
Definition wall : frame := [[(0, 0, 0); (0, 0, 0)]; [(0, 0, 0); (0, 0, 0)]].
Definition portrait_gray : gray := [[10; 20]; [30; 40]].

Definition sample_vision : Vision := {|
  imdecode bytes :=
    match bytes with
    | [Byte.x01] => Some portrait
    | [Byte.x02] => Some wall
    | _ => None
    end;
  cvtColor_BGR2GRAY := map (map (fun p : pixel => p.1.1));
  detectMultiScale g :=
    if decide (g = portrait_gray) then [(0, 0, 1, 1); (0, 0, 2, 1); (0, 0, 1, 2)] else [];
  resize_sample src rows cols i j := default 0 (head (default [] (head src)));
  corrcoef a b := head b;
  rectangle_cover pt1 pt2 thickness x y :=
    (pt1.1 <=? x) && (x <=? pt2.1) && (pt1.2 <=? y) && (y <=? pt2.2);
  putText_cover text org x y := false;
  format_percent c := "90.0%"
|}.

(** A disk on which [student_images] is the only directory: a file can
    be written directly inside it and nowhere else. *)
Fixpoint no_slash (s : string) : bool :=
  match s with
  | EmptyString => true
  | String c s' => negb (Ascii.eqb c "/") && no_slash s'
  end.

Fixpoint below (dir path : string) : option string :=
  match dir, path with
  | EmptyString, _ => Some path
  | String c dir', String c' path' => if Ascii.eqb c c' then below dir' path' else None
  | String _ _, EmptyString => None
  end.

Definition sample_disk : Helpers.Disk := {|
  Helpers.writable path :=
    match below "student_images/" path with
    | Some name => no_slash name
    | None => false
    end
|}.

Lemma sample_detector_sound : @detector_sound sample_vision.
Proof.
  intros g r. simpl. case_decide as Hg; [subst g|by intros ?%elem_of_nil].
  intros Hr. repeat (apply elem_of_cons in Hr as [->|Hr]); [..|by apply elem_of_nil in Hr];
    by vm_compute.
Qed.

(** ** The encoder *)

Definition sample_fs : gmap string (list Byte.byte) :=
  {[ "ann.png" := [Byte.x01]; "wall.png" := [Byte.x02]; "notes.txt" := [Byte.x41] ]}.

Example slice_inside : slice 1 3 [10; 20; 30; 40] = [20; 30].
Proof. reflexivity. Qed.

Example slice_clipped : slice 2 9 [10; 20; 30; 40] = [30; 40].
Proof. reflexivity. Qed.

Example slice_negative : slice (-3) (-1) [10; 20; 30; 40] = [20; 30].
Proof. reflexivity. Qed.

Example py_max_first_of_ties :
  py_max FaceEncoder.area (0, 0, 1, 1) [(0, 0, 2, 1); (0, 0, 1, 2)] = (0, 0, 2, 1).
Proof. reflexivity. Qed.

Example area_wraps : FaceEncoder.area (0, 0, 65536, 32768) = -2147483648.
Proof. reflexivity. Qed.

Example encode_missing :
  @FaceEncoder.encode_face_from_image sample_vision sample_fs "nobody.png" = None.
Proof. reflexivity. Qed.

Example encode_unreadable :
  @FaceEncoder.encode_face_from_image sample_vision sample_fs "notes.txt" = None.
Proof. reflexivity. Qed.

Example encode_no_face :
  @FaceEncoder.encode_face_from_image sample_vision sample_fs "wall.png" = None.
Proof. reflexivity. Qed.

Example encode_portrait :
  length <$> @FaceEncoder.encode_face_from_image sample_vision sample_fs "ann.png"
  = Some (100 * 100)%nat.
Proof. vm_compute. reflexivity. Qed.

(** Every entry of the sample encoder's vector is the byte 10 of the
    portrait's top-left pixel, as the binary32 number 1.25 * 2^3. *)
Example encode_portrait_entries :
  @FaceEncoder.encode_face_from_image sample_vision sample_fs "ann.png"
  = Some (replicate (100 * 100) (S754_finite false 10485760 (-20))).
Proof. vm_compute. reflexivity. Qed.

Example crop_portrait :
  crop portrait_gray (1, 0, 1, 2) = [[20]; [40]] /\
  crop portrait_gray (0, 1, 2, 1) = [[30; 40]].
Proof. split; reflexivity. Qed.

Example of_uint8_samples :
  IEEE.of_uint8 0 = S754_zero false /\
  IEEE.of_uint8 1 = S754_finite false 8388608 (-23) /\
  IEEE.of_uint8 255 = S754_finite false 16711680 (-16).
Proof. repeat split. Qed.

Lemma sample_regions_inside r :
  r ∈ [(0, 0, 1, 1); (0, 0, 2, 1); (0, 0, 1, 2)] ->
  inside portrait_gray r /\ crop portrait_gray r !! 0%nat ≫= (.!! 0%nat) = Some 10.
Proof.
  intros Hr.
  repeat (apply elem_of_cons in Hr as [->|Hr]); [..|by apply elem_of_nil in Hr];
    (split; [|reflexivity]);
    unfold inside, Int32.half; simpl;
    repeat split; try lia; repeat constructor; simpl; lia.
Qed.

Lemma encode_face_from_image_largest_witness :
  @detector_sound sample_vision /\
  @FaceEncoder.encode_face_from_image sample_vision sample_fs "nobody.png" = None /\
  exists v i r patch x,
    @FaceEncoder.encode_face_from_image sample_vision sample_fs "ann.png" = Some v /\
    first_max true_area [(0, 0, 1, 1); (0, 0, 2, 1); (0, 0, 1, 2)] i r /\
    inside portrait_gray r /\
    patch_of portrait_gray r patch /\
    v !! 0%nat = Some x /\
    float32_of_integer 10 x.
Proof.
  pose proof (@encode_face_from_image_largest sample_vision sample_fs "nobody.png"
                sample_detector_sound) as [Hnone _].
  pose proof (@encode_face_from_image_largest sample_vision sample_fs "ann.png"
                sample_detector_sound) as [_ Hsome].
  split; [exact sample_detector_sound|]. split.
  - apply Hnone. left. reflexivity.
  - destruct (@FaceEncoder.encode_face_from_image sample_vision sample_fs "ann.png")
      as [v|] eqn:Hv; [|vm_compute in Hv; discriminate Hv].
    destruct (Hsome v eq_refl) as (bytes & image & i & r & H1 & H2 & H3 & _ & _ & H4).
    assert (bytes = [Byte.x01]) as ->.
    { assert (sample_fs !! "ann.png" = Some [Byte.x01]) as Hfile by reflexivity.
      rewrite Hfile in H1. by injection H1. }
    assert (image = portrait) as -> by (by injection H2).
    change (@cvtColor_BGR2GRAY sample_vision portrait) with portrait_gray in H3, H4.
    change (@detectMultiScale sample_vision portrait_gray)
      with [(0, 0, 1, 1); (0, 0, 2, 1); (0, 0, 1, 2)] in H3.
    destruct (sample_regions_inside r) as [Hin Hpixel].
    { eapply list_elem_of_lookup_2, (proj1 H3). }
    destruct (H4 Hin) as (patch & Hpatch & Hentries).
    destruct (Hentries 0%nat 0%nat) as (x & Hx & Hfloat); [lia..|].
    assert (patch = crop portrait_gray r) as Hcrop.
    { eapply patch_of_unique; [exact Hpatch|by apply crop_inside]. }
    assert (@resize_sample sample_vision patch 100 100 0 0 = 10) as Hsample.
    { rewrite Hcrop. simpl.
      destruct (crop portrait_gray r) as [|[|z row] rows]; simpl in Hpixel;
        try discriminate Hpixel. by injection Hpixel. }
    rewrite Hsample in Hfloat.
    exists v, i, r, patch, x.
    split; [reflexivity|]. split; [exact H3|]. split; [exact Hin|].
    split; [exact Hpatch|]. split; [exact Hx|]. apply Hfloat. lia.
Defined.

(** ** The matcher *)

Definition ann : FaceDetector.known_face := FaceDetector.Known 1 "Ann" "S001" (Some [lit_0_9]).
Definition bob : FaceDetector.known_face := FaceDetector.Known 2 "Bob" "S002" (Some [lit_0_25]).
Definition cat : FaceDetector.known_face := FaceDetector.Known 3 "Cat" "S003" (Some [lit_0_9]).
Definition dan : FaceDetector.known_face := FaceDetector.Known 4 "Dan" "S004" (Some [S754_nan]).
Definition eve : FaceDetector.known_face := FaceDetector.Known 5 "Eve" "S005" None.
Definition fay : FaceDetector.known_face := FaceDetector.Known 6 "Fay" "S006" (Some []).
Definition gus : FaceDetector.known_face :=
  FaceDetector.Known 7 "Gus" "S007" (Some [IEEE.lit_0_3]).

Definition sample_location : rect := (0, 0, 1, 1).

Example match_highest_earliest :
  @FaceDetector.match_face sample_vision [bob; dan; eve; ann; cat] [] sample_location sample_now
  = Some (Detection (Some 1) "Ann" lit_0_9 sample_location sample_now).
Proof. reflexivity. Qed.

Example match_none_above_threshold :
  @FaceDetector.match_face sample_vision [bob; dan; eve; gus] [] sample_location sample_now
  = Some (Detection None "Unknown" IEEE.zero sample_location sample_now).
Proof. reflexivity. Qed.

Example match_no_enrolled_face :
  @FaceDetector.match_face sample_vision [] [] sample_location sample_now
  = Some (Detection None "Unknown" IEEE.zero sample_location sample_now).
Proof. reflexivity. Qed.

Example match_numpy_raises :
  @FaceDetector.match_face sample_vision [ann; fay] [] sample_location sample_now = None.
Proof. reflexivity. Qed.

(** ** Starting, stopping, capturing *)

Definition started : bool * FaceDetector.t * world :=
  FaceDetector.start_detection (FaceDetector.init 0) idle_world.

Example started_two_workers :
  started.1.1 = true /\
  threads started.2 = [Worker FaceDetector_capture_frames At_head;
                       Worker FaceDetector_detect_faces At_head].
Proof. split; reflexivity. Qed.

Example start_without_camera :
  (FaceDetector.start_detection (FaceDetector.init 0) (World ∅ [] false [])).1.1 = false.
Proof. reflexivity. Qed.

Definition ann_row : Db.Student :=
  Db.MkStudent 1 "S001" "Ann" "ann@example.org" None (Some "CS") None None
    (Some [lit_0_9]) (Some "student_images/ann.png") true.

Definition bob_row : Db.Student :=
  Db.MkStudent 2 "S002" "Bob" "bob@example.org" None (Some "CS") None None
    (Some [lit_0_25]) (Some "student_images/bob.png") true.

Definition sample_db : Db.t := Db.Make [ann_row; bob_row] [] [] [] 0.

Definition sample_app : App.t :=
  App.Make true "student_images" (Some (FaceDetector.init 0)) (SimpleCamera.init 0)
    false false sample_db sample_fs idle_world.

Lemma start_twice_no_second_pair_witness :
  FaceDetector.start_detection (FaceDetector.init 0) idle_world
    = (true, started.1.2, started.2) /\
  FaceDetector.start_detection started.1.2 started.2
    = (true, started.1.2, started.2) /\
  App.start_face_recognition sample_app
    = (App.Json true "Face recognition started with 2 known faces",
       (App.start_face_recognition sample_app).2) /\
  App.start_face_recognition (App.start_face_recognition sample_app).2
    = (App.Json false "Face recognition already active",
       (App.start_face_recognition sample_app).2).
Proof.
  split; [reflexivity|]. split.
  - apply (proj1 start_twice_no_second_pair (FaceDetector.init 0) idle_world).
    reflexivity.
  - split; [reflexivity|].
    apply (proj2 start_twice_no_second_pair sample_app
             "Face recognition started with 2 known faces").
    reflexivity.
Defined.

(** A session in full swing: a frame stored, a detection published, the
    capture worker holding a frame it has just read and the detection
    worker a list it is about to publish. *)
Definition ann_face : detection :=
  Detection (Some 1) "Ann" lit_0_9 (0, 0, 1, 1) sample_now.

Definition busy_detector : FaceDetector.t :=
  FaceDetector.Make 0 (Some (Capture true [])) true (Some 1%positive) [ann_face]
    [ann; bob] (Some 0%nat) (Some 1%nat).

Definition busy_world : world :=
  World {[ 1%positive := portrait ]}
        [Worker FaceDetector_capture_frames (Got_read (Read_ok wall));
         Worker FaceDetector_detect_faces (Got_detections [ann_face; ann_face])]
        true [].

Example busy_getters :
  (@FaceDetector.get_current_frame_with_annotations sample_vision busy_detector busy_world).1
    = Some 2%positive /\
  FaceDetector.get_detected_faces busy_detector = [ann_face].
Proof. split; reflexivity. Qed.

(** The steps a worker needs to finish the iteration it is in and then
    to return at the loop test. *)
Definition two_steps : list (read_result * datetime) :=
  [(Read_fail, sample_now); (Read_fail, sample_now)].

Example busy_stop :
  let '(ok, d, w) :=
    @FaceDetector.stop_detection sample_vision two_steps two_steps
      busy_detector busy_world in
  ok = true /\
  (@FaceDetector.get_current_frame_with_annotations sample_vision d w).1 = None /\
  FaceDetector.get_detected_faces d = [] /\
  threads w = [Worker FaceDetector_capture_frames Finished;
               Worker FaceDetector_detect_faces Finished] /\
  trace w = [Ev_release; Ev_sleep 200].
Proof. vm_compute. repeat split. Qed.

(** Both joins time out before the workers take a step: stop still
    answers [True] with the state cleared, and the workers are where
    they were. *)
Example busy_stop_timed_out :
  let '(ok, d, w) :=
    @FaceDetector.stop_detection sample_vision [] [] busy_detector busy_world in
  ok = true /\
  (@FaceDetector.get_current_frame_with_annotations sample_vision d w).1 = None /\
  FaceDetector.get_detected_faces d = [] /\
  threads w = threads busy_world /\
  trace w = [Ev_release].
Proof. vm_compute. repeat split. Qed.

(** Workers that outlive the join: the state cleared by stop does not
    stay cleared.  Stop returns while the capture worker still holds
    the frame it has read and the detection worker the list it has
    computed; at
    their next steps the frame getter answers with a frame again and
    the detected-faces query with two faces.  The same happens when a
    new session has been started in between. *)
Lemma stale_frame_after_stop :
  let '(ok, d1, w1) :=
    @FaceDetector.stop_detection sample_vision [] [] busy_detector busy_world in
  let '(d2, w2) :=
    @FaceDetector.worker_step sample_vision (Read_ok wall) sample_now 0 d1 w1 in
  let '(d3, w3) :=
    @FaceDetector.worker_step sample_vision (Read_ok wall) sample_now 1 d2 w2 in
  let '(ok', d4, w4) := FaceDetector.start_detection d1 w1 in
  let '(d5, w5) :=
    @FaceDetector.worker_step sample_vision (Read_ok wall) sample_now 1 d4 w4 in
  ok = true /\
  (@FaceDetector.get_current_frame_with_annotations sample_vision d1 w1).1 = None /\
  FaceDetector.get_detected_faces d1 = [] /\
  (exists l, FaceDetector.current_frame d2 = Some l /\ heap w2 !! l = Some wall) /\
  is_Some (@FaceDetector.get_current_frame_with_annotations sample_vision d2 w2).1 /\
  FaceDetector.get_detected_faces d3 = [ann_face; ann_face] /\
  ok' = true /\
  FaceDetector.get_detected_faces d4 = [] /\
  FaceDetector.get_detected_faces d5 = [ann_face; ann_face].
Proof.
  vm_compute. repeat split; try (eexists; reflexivity).
  eexists. split; reflexivity.
Qed.

Lemma stop_clears_state_witness :
  own_thread busy_detector 0 /\
  (2 <= length two_steps)%nat /\
  exists w1,
    @FaceDetector.stop_detection sample_vision two_steps two_steps
      busy_detector busy_world = (true, stopped busy_detector, w1) /\
    FaceDetector.get_detected_faces (stopped busy_detector) = [] /\
    @FaceDetector.worker_step sample_vision (Read_ok wall) sample_now 0
      (stopped busy_detector) w1 = (stopped busy_detector, w1).
Proof.
  assert (own_thread busy_detector 0) as Hown by (left; reflexivity).
  assert (2 <= length two_steps)%nat as Htwo by (simpl; lia).
  split; [exact Hown|]. split; [exact Htwo|].
  destruct (proj1 (@stop_clears_state sample_vision) two_steps two_steps
              busy_detector busy_world)
    as (w1 & Hstop & _ & Hfaces & Hquiet & _).
  exists w1. split; [exact Hstop|]. split; [exact Hfaces|].
  exact (Hquiet Htwo Htwo (Read_ok wall) sample_now 0%nat Hown).
Defined.

Example detection_cycle_on_portrait :
  @FaceDetector.detect_cycle sample_vision [bob; ann] portrait sample_now
  = Some [Detection (Some 1) "Ann" lit_0_9 (0, 0, 1, 1) sample_now;
          Detection (Some 1) "Ann" lit_0_9 (0, 0, 2, 1) sample_now;
          Detection (Some 1) "Ann" lit_0_9 (0, 0, 1, 2) sample_now].
Proof. vm_compute. reflexivity. Qed.

Example detection_cycle_on_wall :
  @FaceDetector.detect_cycle sample_vision [bob; ann] wall sample_now = Some [].
Proof. reflexivity. Qed.

Lemma capture_loops_on_failed_read_witness :
  stands_at FaceDetector_capture_frames At_head 0 started.2 /\
  FaceDetector.is_running started.1.2 = true /\
  is_Some (FaceDetector.cap started.1.2) /\
  exists w',
    @FaceDetector.capture_frames sample_vision [Read_fail] sample_now 0 started.1.2 started.2
      = (started.1.2, w') /\
    trace w' = Ev_sleep 100 :: trace started.2.
Proof.
  assert (is_Some (FaceDetector.cap started.1.2)) as Hcap by (eexists; reflexivity).
  split; [reflexivity|]. split; [reflexivity|]. split; [exact Hcap|].
  destruct (proj1 (proj2 (@capture_loops_on_failed_read sample_vision))
              sample_now 0%nat started.1.2 started.2 eq_refl eq_refl Hcap)
    as (w' & Hrun & _ & _ & Htrace).
  exists w'. split; [exact Hrun|exact Htrace].
Defined.

Example detector_loop_survives_failures :
  let '(d, w) :=
    @FaceDetector.capture_frames sample_vision [Read_fail; Read_raise; Read_ok wall; Read_fail]
      sample_now 0 started.1.2 started.2 in
  threads w !! 0%nat = Some (Worker FaceDetector_capture_frames At_head) /\
  (exists l, FaceDetector.current_frame d = Some l /\ heap w !! l = Some wall) /\
  trace w = [Ev_sleep 100; Ev_sleep 100; Ev_print "Error capturing frame: ";
             Ev_sleep 100; Ev_open 0 true].
Proof. vm_compute. split; [reflexivity|]. split; [|reflexivity]. eexists. split; reflexivity. Qed.

(** ** Annotation *)

Example annotate_busy :
  let '(l, w) :=
    @FaceDetector.get_current_frame_with_annotations sample_vision busy_detector busy_world in
  l = Some 2%positive /\
  heap w !! 1%positive = Some portrait /\
  heap w !! 2%positive =
    Some [[(0, 255, 0); (0, 255, 0)]; [(0, 255, 0); (0, 255, 0)]].
Proof. vm_compute. repeat split. Qed.

Lemma annotation_preserves_stored_frame_witness :
  FaceDetector.current_frame busy_detector = Some 1%positive /\
  heap busy_world !! 1%positive = Some portrait /\
  heap (@FaceDetector.get_current_frame_with_annotations sample_vision
          busy_detector busy_world).2 !! 1%positive = Some portrait.
Proof.
  split; [reflexivity|]. split; [reflexivity|].
  destruct (@annotation_preserves_stored_frame sample_vision busy_detector busy_world
              1%positive portrait eq_refl eq_refl)
    as (l & w' & Hget & _ & _ & _ & _ & _ & _ & _ & Hkept & _).
  rewrite Hget. exact Hkept.
Defined.

(** ** Marking attendance *)

Definition later : datetime := DateTime sample_day 10 5 0 0.

Example manual_mark_then_again :
  let '(r1, a1) := App.mark_manual_attendance (Some "S001") sample_day sample_now sample_app in
  let '(r2, a2) := App.mark_student_present (Some 1) (Some lit_0_9) sample_day later a1 in
  r1 = App.Redirect "mark_attendance" [("Ann marked present at 10:00:00", "success")] /\
  r2 = App.Json false "Ann already marked present today" /\
  a2 = a1 /\
  Db.attendance_records (App.db a2) =
    [Db.MkAttendance 1 1 sample_day sample_now None "Present" (Some IEEE.lit_1_0)].
Proof. vm_compute. repeat split. Qed.

Example manual_mark_unknown_id :
  App.mark_manual_attendance (Some "S404") sample_day sample_now sample_app
  = (App.Redirect "mark_attendance" [("Student with ID S404 not found", "error")],
     sample_app).
Proof. reflexivity. Qed.

Example status_helper_disagrees :
  Helpers.get_attendance_status (Some sample_now) = "Absent" /\
  Db.a_status <$>
    Db.attendance_records
      (App.db (App.mark_manual_attendance (Some "S001") sample_day sample_now sample_app).2)
  = ["Present"].
Proof. split; reflexivity. Qed.



(** Face recognition active, four detections published: Ann, Bob below
    the threshold, an unknown face, and Ann once more. *)
Definition watching_app : App.t :=
  App.Make true "student_images"
    (Some (FaceDetector.set_detected_faces
             [ann_face;
              Detection (Some 2) "Bob" lit_0_25 (1, 1, 1, 1) sample_now;
              Detection None "Unknown" IEEE.zero (1, 0, 1, 1) sample_now;
              ann_face]
             busy_detector))
    (SimpleCamera.init 0) false true sample_db sample_fs busy_world.

Example auto_mark_watching :
  let '(r, a) := App.auto_mark_attendance sample_day later watching_app in
  r = App.Json_marked "Marked 1 students present" [App.Marked "Ann" "S001" "Present" lit_0_9] /\
  App.db a =
    Db.Make [ann_row; bob_row]
      [Db.MkAttendance 1 1 sample_day later None "Present" (Some lit_0_9)] [] [] 1.
Proof. vm_compute. split; reflexivity. Qed.

Example auto_mark_again :
  let a := (App.auto_mark_attendance sample_day later watching_app).2 in
  App.auto_mark_attendance sample_day later a
  = (App.Json false "No new students to mark present", a).
Proof. vm_compute. reflexivity. Qed.

Lemma auto_mark_attendance_batch_witness :
  App.FACE_RECOGNITION_AVAILABLE watching_app = true /\
  App.face_recognition_active watching_app = true /\
  exists d added,
    App.face_detector watching_app = Some d /\
    Db.all_attendance (App.db (App.auto_mark_attendance sample_day later watching_app).2)
      = Db.all_attendance (App.db watching_app) ++ added /\
    Forall (fun r => Db.a_status r = "Present") added.
Proof.
  split; [reflexivity|]. split; [reflexivity|].
  destruct (App.face_detector watching_app) as [d|] eqn:Hd; [|discriminate Hd].
  destruct (auto_mark_attendance_batch sample_day later watching_app d
              eq_refl Hd eq_refl)
    as (added & Hall & _ & Hfrom & _).
  exists d, added. split; [reflexivity|]. split; [exact Hall|].
  eapply Forall_impl; [exact Hfrom|].
  intros r (face & _ & _ & (_ & _ & _ & _ & Hst & _)). exact Hst.
Defined.

(** ** Registration *)

Definition zed_form : Helpers.student_data :=
  Helpers.StudentData (Some "S009") (Some "Zed") (Some "zed@example.org") None
    (Some "CS") None None.

Definition wall_upload : Helpers.upload := Helpers.Upload "zed.PNG" [Byte.x02].
Definition face_upload : Helpers.upload := Helpers.Upload "zed.png" [Byte.x01].

Definition same_name (s : string) : string := s.

Example validate_empty_form :
  Helpers.validate_student_data
    (Helpers.StudentData (Some "S1") None (Some "zed") None None None None)
  = ["Name is required"; "Department is required"; "Invalid email format";
     "Student ID must be at least 3 characters"].
Proof. reflexivity. Qed.

Example allowed_file_samples :
  Helpers.allowed_file "zed.PNG" = true /\ Helpers.allowed_file "zed.tar.gz" = false /\
  Helpers.allowed_file "png" = false.
Proof. repeat split. Qed.

Example register_with_face :
  let '(r, a) :=
    @App.register_student sample_vision sample_disk same_name
      (App.Registration false zed_form (Some face_upload)) sample_now sample_app in
  r = App.Redirect "students" [("Student registered successfully!", "success")] /\
  length (Db.students (App.db a)) = 3%nat /\
  match last (Db.students (App.db a)) with
  | Some st => Db.s_student_id st = "S009" /\
               length <$> Db.s_face_encoding st = Some (100 * 100)%nat
  | None => False
  end.
Proof. vm_compute. repeat split. Qed.

Example register_saves_under_stamped_name :
  (@Helpers.save_uploaded_file sample_disk same_name face_upload "student_images"
     "student_S009_" sample_now ∅).1
  = Some "student_images/student_S009_20240311_100000_zed.png".
Proof. reflexivity. Qed.

Example register_without_face :
  @App.register_student sample_vision sample_disk same_name
    (App.Registration false zed_form (Some wall_upload)) sample_now sample_app
  = (App.Render "register_student.html"
       [("No face detected in the image. Please upload a clear photo.", "error")],
     sample_app).
Proof. vm_compute. reflexivity. Qed.

(** An id with a slash names a directory that is not there: the photo
    cannot be written, and the request is answered before the photo is
    looked at. *)
Definition slash_form : Helpers.student_data :=
  Helpers.StudentData (Some "a/b") (Some "Zed") (Some "zed@example.org") None
    (Some "CS") None None.

Example register_unwritable_photo :
  Helpers.validate_student_data slash_form = [] /\
  @App.register_student sample_vision sample_disk same_name
    (App.Registration false slash_form (Some wall_upload)) sample_now sample_app
  = (App.Render "register_student.html" [("Error uploading image", "error")],
     sample_app).
Proof. split; vm_compute; reflexivity. Qed.

(** [len] counts characters: two letters of two bytes each are too
    short an id. *)
Example validate_counts_characters :
  String.length "éé" = 4%nat /\
  Helpers.validate_student_data
    (Helpers.StudentData (Some "éé") (Some "Zed") (Some "zed@example.org") None
       (Some "CS") None None)
  = ["Student ID must be at least 3 characters"].
Proof. split; reflexivity. Qed.

Lemma registration_without_face_rejected_witness :
  App.FACE_RECOGNITION_AVAILABLE sample_app = true /\
  @photo_encoding sample_vision (Helpers.up_content wall_upload) = None /\
  @reaches_encoder sample_disk same_name
    (App.Registration false zed_form (Some wall_upload)) sample_now sample_app
    wall_upload /\
  App.db (@App.register_student sample_vision sample_disk same_name
            (App.Registration false zed_form (Some wall_upload)) sample_now sample_app).2
    = App.db sample_app /\
  (@App.register_student sample_vision sample_disk same_name
     (App.Registration false zed_form (Some wall_upload)) sample_now sample_app).1
    = App.Render "register_student.html"
        [("No face detected in the image. Please upload a clear photo.", "error")].
Proof.
  assert (@reaches_encoder sample_disk same_name
            (App.Registration false zed_form (Some wall_upload)) sample_now
            sample_app wall_upload) as Hreach.
  { repeat split; try reflexivity. simpl. discriminate. }
  destruct (@registration_without_face_rejected sample_vision sample_disk same_name
              (App.Registration false zed_form (Some wall_upload)) sample_now
              sample_app wall_upload eq_refl eq_refl eq_refl)
    as (Hdb & _ & Hflash).
  split; [reflexivity|]. split; [reflexivity|]. split; [exact Hreach|].
  split; [exact Hdb|]. exact (proj1 (Hflash Hreach)).
Defined.

(* ===================================================================== *)
(** * Part IV. The rest of the pipeline and the routes                     *)
(* ===================================================================== *)

(** ** The detection loop *)

(** The frame an object holds, looked up in the heap. *)
Definition stored (current_frame : option loc) (w : world) : option frame :=
  match current_frame with
  | Some l => heap w !! l
  | None => None
  end.

(** Every array of [w] is in [w'] with the same contents. *)
Definition arrays_kept (w w' : world) : Prop :=
  forall l f, heap w !! l = Some f -> heap w' !! l = Some f.

Lemma arrays_kept_refl w : arrays_kept w w.
Proof. by intros l f. Qed.

Lemma arrays_kept_trans w1 w2 w3 :
  arrays_kept w1 w2 -> arrays_kept w2 w3 -> arrays_kept w1 w3.
Proof. intros H12 H23 l f Hl. by apply H23, H12. Qed.

Lemma arrays_kept_alloc f w : arrays_kept w (alloc f w).2.
Proof.
  intros l g Hl. unfold alloc. simpl. rewrite lookup_insert_ne; [done|].
  intros <-. pose proof (is_fresh (dom (heap w))) as Hfresh.
  apply not_elem_of_dom in Hfresh. congruence.
Qed.

Lemma arrays_kept_heap w w' : heap w' = heap w -> arrays_kept w w'.
Proof. intros Hh l f. by rewrite Hh. Qed.

Section DetectionLoop.
Context `{Vision}.
Import FaceDetector.

(** What the matcher can answer. *)
Lemma match_face_outcome known live location now face :
  match_face known live location now = Some face ->
  det_location face = location /\ det_timestamp face = now /\
  ((det_student_id face = None /\ det_name face = "Unknown" /\
    det_confidence face = IEEE.zero) \/
   (exists k, k ∈ known /\ det_student_id face = Some (kf_id k) /\
              det_name face = kf_name k /\
              IEEE.isnan (det_confidence face) = false /\
              IEEE.gt (det_confidence face) IEEE.lit_0_3 = true)).
Proof.
  unfold match_face.
  destruct (match_loop live known (None, IEEE.zero)) as [[best c]|] eqn:Hloop;
    [|discriminate].
  pose proof (match_loop_scanned live known [] _ _ (scanned_nil live) Hloop) as Hinv.
  simpl in Hinv. destruct best as [k|]; intros [= <-]; simpl.
  - split; [done|]. split; [done|]. right.
    destruct Hinv as (i & Hi & _ & [Hnan Hgt] & _).
    exists k. split; [eapply list_elem_of_lookup_2, Hi|done].
  - split; [done|]. split; [done|]. by left.
Qed.

Lemma detect_face_outcome known g now location face :
  detect_face known g now location = Some face ->
  det_location face = location /\ det_timestamp face = now /\
  ((det_student_id face = None /\ det_name face = "Unknown" /\
    det_confidence face = IEEE.zero) \/
   (exists k, k ∈ known /\ det_student_id face = Some (kf_id k) /\
              det_name face = kf_name k /\
              IEEE.isnan (det_confidence face) = false /\
              IEEE.gt (det_confidence face) IEEE.lit_0_3 = true)).
Proof.
  unfold detect_face. destruct (resize _ _ _); [|discriminate].
  apply match_face_outcome.
Qed.

Lemma detect_cycle_regions known frame now ds :
  detect_cycle known frame now = Some ds ->
  map det_location ds = detectMultiScale (cvtColor_BGR2GRAY frame) /\
  Forall (fun face => det_timestamp face = now) ds.
Proof.
  unfold detect_cycle. intros Hm. apply mapM_Some_1 in Hm.
  induction Hm as [|location face faces ds Hface _ [IH1 IH2]]; [done|].
  apply detect_face_outcome in Hface as (Hloc & Hnow & _). simpl.
  split; [by rewrite Hloc, IH1|by constructor].
Qed.

(** X1.  One full turn of the detection loop on a stored frame, when
    nothing raises: the list published afterwards holds one detection
    per region the detector reported, in the detector's order and with
    that region as its location, and nothing of the list published
    before; with no region it is empty.  The stored frame is not
    touched and the worker sleeps 0.2 s. *)
Theorem detection_turn_replaces_list r1 r2 now1 now2 tid d w l f ds :
  stands_at FaceDetector_detect_faces At_head tid w ->
  is_running d = true ->
  current_frame d = Some l ->
  heap w !! l = Some f ->
  detect_cycle (known_faces d) f now1 = Some ds ->
  exists w1 w2,
    worker_step r1 now1 tid d w = (d, w1) /\
    worker_step r2 now2 tid d w1 = (set_detected_faces ds d, w2) /\
    stands_at FaceDetector_detect_faces At_head tid w2 /\
    map det_location ds = detectMultiScale (cvtColor_BGR2GRAY f) /\
    (detectMultiScale (cvtColor_BGR2GRAY f) = [] -> ds = []) /\
    heap w2 !! l = Some f /\
    trace w2 = Ev_sleep 200 :: trace w.
Proof.
  intros Hat Hrun Hcur Hl Hcycle.
  destruct (detect_cycle_regions _ _ _ _ Hcycle) as [Hregions _].
  set (w0 := (alloc f w).2).
  assert (threads w0 !! tid = Some (Worker FaceDetector_detect_faces At_head)) as Hat0
    by exact Hat.
  exists (set_pc tid (Got_detections ds) w0),
         (set_pc tid At_head (emit (Ev_sleep 200) (set_pc tid (Got_detections ds) w0))).
  pose proof (threads_set_pc tid (Got_detections ds) w0 _ _ Hat0) as Hat1.
  split; [|split; [|split; [|split; [done|split; [|split]]]]].
  - unfold worker_step. rewrite Hat. simpl. unfold enter_iteration. simpl.
    by rewrite Hrun, Hcur, Hl, Hcycle.
  - unfold worker_step. rewrite Hat1. done.
  - eapply threads_set_pc. exact Hat1.
  - intros Hnone. rewrite Hnone in Hregions. by destruct ds.
  - simpl. by apply arrays_kept_alloc.
  - done.
Qed.

(** X2.  A turn of the detection loop that cannot complete leaves the
    published list as it was and the loop running: with no frame
    captured yet the worker sleeps 0.1 s; when the cycle raises (a
    region that cannot be resized, numpy refusing an enrolled encoding)
    it prints and sleeps 0.5 s.  In both cases the detector is unchanged
    and the worker is back at the head of its loop. *)
Theorem detection_turn_failure_keeps_list r now tid d w :
  stands_at FaceDetector_detect_faces At_head tid w ->
  is_running d = true ->
  (current_frame d = None ->
   worker_step r now tid d w = (d, emit (Ev_sleep 100) w)) /\
  (forall l f,
     current_frame d = Some l -> heap w !! l = Some f ->
     detect_cycle (known_faces d) f now = None ->
     exists w',
       worker_step r now tid d w = (d, w') /\
       stands_at FaceDetector_detect_faces At_head tid w' /\
       trace w' = Ev_sleep 500 :: Ev_print "Error in face detection: " :: trace w).
Proof.
  intros Hat Hrun. split.
  - intros Hcur. unfold worker_step. rewrite Hat. simpl.
    unfold enter_iteration. simpl. by rewrite Hrun, Hcur.
  - intros l f Hcur Hl Hcycle. unfold worker_step. rewrite Hat. simpl.
    unfold enter_iteration. simpl. rewrite Hrun, Hcur, Hl, Hcycle. simpl.
    eexists. split; [reflexivity|]. split; [exact Hat|reflexivity].
Qed.

(** X3.  The detections a cycle publishes meet the test of
    [auto_mark_attendance] whenever they name a student: a detection
    with a student id carries the id and name of an enrolled face and a
    confidence that is a number above 0.3; every other detection has no
    id, the name "Unknown" and confidence 0, and is passed over by the
    auto-mark loop. *)
Theorem published_detections_meet_auto_mark_test known frame now ds :
  detect_cycle known frame now = Some ds ->
  forall face, face ∈ ds ->
    (exists k, k ∈ known /\ det_student_id face = Some (kf_id k) /\
               det_name face = kf_name k /\
               IEEE.isnan (det_confidence face) = false /\
               IEEE.gt (det_confidence face) IEEE.lit_0_3 = true) \/
    (det_student_id face = None /\ det_name face = "Unknown" /\
     det_confidence face = IEEE.zero /\
     forall today now' acc, App.auto_mark_face today now' acc face = acc).
Proof.
  unfold detect_cycle. intros Hm face Hin. apply mapM_Some_1 in Hm.
  induction Hm as [|location face' faces ds Hface _ IH];
    [by apply elem_of_nil in Hin|].
  apply elem_of_cons in Hin as [->|Hin]; [|by apply IH].
  apply detect_face_outcome in Hface as (_ & _ & [(Hid & Hname & Hconf)|Hk]).
  - right. repeat split; try done.
    intros today now' [x ms]. unfold App.auto_mark_face. by rewrite Hid.
  - by left.
Qed.

(** A worker of the detector never writes what the other worker
    writes, and never writes into an array that exists. *)
Lemma complete_iteration_writes tid p d w :
  arrays_kept w (complete_iteration tid p d w).2 /\
  match p with
  | Got_read _ => detected_faces (complete_iteration tid p d w).1 = detected_faces d
  | Got_detections _ => current_frame (complete_iteration tid p d w).1 = current_frame d
  | _ => (complete_iteration tid p d w).1 = d
  end.
Proof.
  destruct p as [|[f| |]|ds|]; simpl; (split; [|done]);
    try apply arrays_kept_refl; try (by apply arrays_kept_heap).
  apply (arrays_kept_alloc f w).
Qed.

Lemma enter_iteration_writes r now tid tg d w :
  (enter_iteration r now tid tg d w).1 = d /\
  arrays_kept w (enter_iteration r now tid tg d w).2.
Proof.
  unfold enter_iteration. destruct (negb (guard tg d)); [split; [done|by apply arrays_kept_heap]|].
  destruct tg; try (split; [done|by apply arrays_kept_heap]);
    (destruct (current_frame d) as [l|]; [|split; [done|by apply arrays_kept_heap]];
     destruct (heap w !! l) as [f|]; [|split; [done|apply arrays_kept_refl]];
     pose proof (arrays_kept_alloc f w) as Hk;
     destruct (alloc f w) as [l' w']; simpl in Hk;
     destruct (detect_cycle (known_faces d) f now); (split; [done|]);
     (eapply arrays_kept_trans; [exact Hk|by apply arrays_kept_heap])).
Qed.

(** A worker stands at a point of its own loop: the capture worker
    never holds detections, the detection worker never holds a read. *)
Definition placed (k : worker) : Prop :=
  match w_target k, w_pc k with
  | FaceDetector_capture_frames, Got_detections _ => False
  | FaceDetector_detect_faces, Got_read _ => False
  | _, _ => True
  end.

(** X4.  A scheduling step of any worker of the detector leaves the
    running flag, the capture object, the enrolled faces and the thread
    handles alone, and never changes the contents of an array that
    exists.  A step of the capture worker leaves the published
    detections alone; a step of the detection worker leaves the
    reference to the latest frame alone.  The worker is afterwards
    again at a point of its own loop. *)
Theorem worker_step_writes_its_own_slot r now tid d w k :
  threads w !! tid = Some k ->
  placed k ->
  let d' := (worker_step r now tid d w).1 in
  let w' := (worker_step r now tid d w).2 in
  same_wiring d d' /\ arrays_kept w w' /\
  (w_target k = FaceDetector_capture_frames -> detected_faces d' = detected_faces d) /\
  (w_target k = FaceDetector_detect_faces -> current_frame d' = current_frame d) /\
  exists k', threads w' !! tid = Some k' /\ w_target k' = w_target k /\ placed k'.
Proof.
  intros Hth Hplaced. destruct k as [tg p]. simpl.
  unfold worker_step. rewrite Hth.
  destruct (owns tg) eqn:Hown; simpl.
  2:{ split; [apply same_wiring_refl|]. split; [apply arrays_kept_refl|].
      split; [done|]. split; [done|]. by exists (Worker tg p). }
  destruct p as [|rd|ds|].
  - (* at the head *)
    destruct (enter_iteration_writes r now tid tg d w) as [Hd Hk]. rewrite Hd.
    split; [apply same_wiring_refl|]. split; [exact Hk|].
    split; [done|]. split; [done|].
    unfold enter_iteration. destruct (negb (guard tg d)).
    { exists (Worker tg Finished). split; [by eapply threads_set_pc|]. by destruct tg. }
    destruct tg; try discriminate Hown.
    + exists (Worker FaceDetector_capture_frames (Got_read r)).
      split; [by eapply threads_set_pc|done].
    + destruct (current_frame d) as [l|];
        [|by exists (Worker FaceDetector_detect_faces At_head)].
      destruct (heap w !! l) as [f|];
        [|by exists (Worker FaceDetector_detect_faces At_head)].
      assert (threads (alloc f w).2 !! tid
              = Some (Worker FaceDetector_detect_faces At_head)) as Hth' by exact Hth.
      destruct (alloc f w) as [l' w']. simpl in Hth'.
      destruct (detect_cycle (known_faces d) f now) as [ds|].
      * exists (Worker FaceDetector_detect_faces (Got_detections ds)).
        split; [by eapply threads_set_pc|done].
      * by exists (Worker FaceDetector_detect_faces At_head).
  - (* a read is in hand: this is the capture worker *)
    destruct tg; try done.
    split; [apply complete_iteration_wiring|].
    split; [apply complete_iteration_writes|].
    split; [intros _; apply (complete_iteration_writes tid (Got_read rd) d w)|].
    split; [done|].
    exists (Worker FaceDetector_capture_frames At_head). split; [|done].
    destruct rd as [f| |]; simpl; by rewrite list_lookup_alter_eq, Hth.
  - (* detections are in hand: this is the detection worker *)
    destruct tg; try done.
    split; [apply complete_iteration_wiring|].
    split; [apply complete_iteration_writes|].
    split; [done|].
    split; [intros _; apply (complete_iteration_writes tid (Got_detections ds) d w)|].
    exists (Worker FaceDetector_detect_faces At_head). split; [|done].
    simpl. by rewrite list_lookup_alter_eq, Hth.
  - split; [apply same_wiring_refl|]. split; [apply arrays_kept_refl|].
    split; [done|]. split; [done|]. by exists (Worker tg Finished).
Qed.

End DetectionLoop.

(** ** The latest frame *)

(** The frame of the last read that succeeded. *)
Definition last_frame (reads : list read_result) : option frame :=
  last (omap (fun r => match r with Read_ok f => Some f | _ => None end) reads).

Lemma last_cons_default {A} (x : A) (l : list A) :
  last (x :: l) = Some (default x (last l)).
Proof.
  revert x. induction l as [|y l IH]; intros x; [done|].
  change (last (x :: y :: l)) with (last (y :: l)). rewrite IH.
  by destruct l.
Qed.

Lemma last_frame_cons r reads :
  last_frame (r :: reads) =
  match last_frame reads with
  | Some f => Some f
  | None => match r with Read_ok f => Some f | _ => None end
  end.
Proof.
  unfold last_frame. destruct r as [f| |]; simpl; try by destruct (last _).
  rewrite last_cons_default. by destruct (last _).
Qed.

Section LatestFrame.
Context `{Vision}.

Lemma detector_capture_turn r now tid d w :
  stands_at FaceDetector_capture_frames At_head tid w ->
  FaceDetector.is_running d = true -> is_Some (FaceDetector.cap d) ->
  exists d' w',
    FaceDetector.capture_frames [r] now tid d w = (d', w') /\
    stands_at FaceDetector_capture_frames At_head tid w' /\
    same_wiring d d' /\ arrays_kept w w' /\
    FaceDetector.detected_faces d' = FaceDetector.detected_faces d /\
    stored (FaceDetector.current_frame d') w' =
      match r with
      | Read_ok f => Some f
      | _ => stored (FaceDetector.current_frame d) w
      end.
Proof.
  intros Hat Hrun Hcap. unfold FaceDetector.capture_frames.
  assert (FaceDetector.worker_step r now tid d w
          = (d, set_pc tid (Got_read r) w)) as ->.
  { unfold FaceDetector.worker_step. rewrite Hat. simpl.
    unfold FaceDetector.enter_iteration. simpl.
    by rewrite Hrun, (bool_decide_eq_true_2 _ Hcap). }
  pose proof (threads_set_pc tid (Got_read r) w _ _ Hat) as Hat1.
  unfold FaceDetector.worker_step. rewrite Hat1. simpl.
  destruct r as [f| |]; simpl.
  - eexists _, _. split; [done|].
    split; [eapply threads_set_pc; simpl; exact Hat1|].
    split; [by repeat split|]. split; [apply (arrays_kept_alloc f)|].
    split; [done|]. apply lookup_insert_eq.
  - eexists _, _. split; [done|].
    split; [eapply threads_set_pc; simpl; exact Hat1|].
    split; [apply same_wiring_refl|]. split; [by apply arrays_kept_heap|]. done.
  - eexists _, _. split; [done|].
    split; [eapply threads_set_pc; simpl; exact Hat1|].
    split; [apply same_wiring_refl|]. split; [by apply arrays_kept_heap|]. done.
Qed.

(** X5.  After any run of reads by the detector's capture loop, the
    detector holds the frame of the last read that succeeded, or, if
    none did, the frame it held before: there is one slot and no
    history.  Arrays that existed are unchanged and the published
    detections are not touched. *)
Theorem detector_holds_latest_frame reads : forall now tid d w,
  stands_at FaceDetector_capture_frames At_head tid w ->
  FaceDetector.is_running d = true -> is_Some (FaceDetector.cap d) ->
  exists d' w',
    FaceDetector.capture_frames reads now tid d w = (d', w') /\
    stored (FaceDetector.current_frame d') w' =
      match last_frame reads with
      | Some f => Some f
      | None => stored (FaceDetector.current_frame d) w
      end /\
    arrays_kept w w' /\
    FaceDetector.detected_faces d' = FaceDetector.detected_faces d.
Proof.
  induction reads as [|r reads IH]; intros now tid d w Hat Hrun Hcap.
  - exists d, w. split; [done|]. split; [done|]. split; [apply arrays_kept_refl|done].
  - destruct (detector_capture_turn r now tid d w Hat Hrun Hcap)
      as (d1 & w1 & Hstep & Hat1 & Hw1 & Hk1 & Hf1 & Hs1).
    rewrite detector_capture_frames_cons, Hstep.
    pose proof Hw1 as (_ & Hc & Hr & _).
    destruct (IH now tid d1 w1 Hat1) as (d2 & w2 & Hloop & Hs2 & Hk2 & Hf2).
    { by rewrite Hr. }
    { by rewrite Hc. }
    exists d2, w2. split; [done|]. split; [|split].
    + rewrite Hs2, last_frame_cons, Hs1. by destruct (last_frame reads), r.
    + by eapply arrays_kept_trans.
    + congruence.
Qed.

End LatestFrame.

(** ** The store under all routes *)

Section StoreChanges.
Import Db Admin.

(** The two tables as queries see them. *)
Definition rows (x : Db.t) : list Student * list AttendanceRecord :=
  (all_students x, all_attendance x).

(** [f] applied to the rows whose key is [id]. *)
Definition on_key {A} (key : A -> Z) (id : Z) (f : A -> A) (r : A) : A :=
  if bool_decide (key r = id) then f r else r.

(** What one statement of a route does to the tables. *)
Inductive change (x x' : Db.t) : Prop :=
  | Ch_none
      (Hrows : rows x' = rows x)
  | Ch_attendance r
      (Hstudent : is_Some (get_student (a_student_id r) x))
      (Hnone : attendance_on (a_student_id r) (a_date r) x = None)
      (Hid : a_id r = next_id (map a_id (all_attendance x)))
      (Hstatus : a_status r = "Present")
      (Hout : a_time_out r = None)
      (Hrows : rows x' = (all_students x, all_attendance x ++ [r]))
  | Ch_student s
      (Hid : s_id s = next_id (map s_id (all_students x)))
      (Hsid : s_student_id s ∉ map s_student_id (all_students x))
      (Hemail : s_email s ∉ map s_email (all_students x))
      (Hrows : rows x' = (all_students x ++ [s], all_attendance x))
  | Ch_status id status
      (Hvalid : status ∈ valid_statuses)
      (Hrows : rows x' =
               (all_students x, map (on_key a_id id (with_status status)) (all_attendance x)))
  | Ch_time_out id t
      (Hrows : rows x' =
               (all_students x, map (on_key a_id id (with_time_out t)) (all_attendance x)))
  | Ch_deactivate id
      (Hrows : rows x' =
               (map (on_key s_id id deactivated) (all_students x), all_attendance x))
  | Ch_delete_attendance id
      (Hrows : rows x' =
               (all_students x, filter (fun r => a_id r <> id) (all_attendance x)))
  | Ch_purge id
      (Hrows : rows x' =
               (filter (fun s => s_id s <> id) (all_students x),
                filter (fun r => a_student_id r <> id) (all_attendance x))).

Definition changes : Db.t -> Db.t -> Prop := rtc change.

Lemma rows_commit x : rows (commit x) = rows x.
Proof. unfold rows. by rewrite all_students_commit, all_attendance_commit. Qed.

Lemma rows_update_attendance id f x :
  rows (update_attendance id f x) =
  (all_students x, map (on_key a_id id f) (all_attendance x)).
Proof. unfold rows, all_attendance, update_attendance. simpl. by rewrite map_app. Qed.

Lemma rows_update_student id f x :
  rows (update_student id f x) =
  (map (on_key s_id id f) (all_students x), all_attendance x).
Proof. unfold rows, all_students, update_student. simpl. by rewrite map_app. Qed.

Lemma rows_delete_attendance_row id x :
  rows (delete_attendance_row id x) =
  (all_students x, filter (fun r => a_id r <> id) (all_attendance x)).
Proof. unfold rows, all_attendance, delete_attendance_row. simpl. by rewrite filter_app. Qed.

Lemma rows_purge id x :
  rows (delete_student_row id (delete_attendance_of id x)) =
  (filter (fun s => s_id s <> id) (all_students x),
   filter (fun r => a_student_id r <> id) (all_attendance x)).
Proof.
  unfold rows, all_attendance, all_students, delete_student_row, delete_attendance_of.
  simpl. by rewrite !filter_app.
Qed.

Lemma rows_add_attendance sid day t status c x :
  rows (add_attendance sid day t status c x) =
  (all_students x,
   all_attendance x ++
     [MkAttendance (next_id (map a_id (all_attendance x))) sid day t None status c]).
Proof. unfold rows, all_attendance, all_students, add_attendance. simpl. by rewrite app_assoc. Qed.

Lemma rows_add_student mk x :
  rows (add_student mk x) =
  (all_students x ++ [mk (next_id (map s_id (all_students x)))], all_attendance x).
Proof. unfold rows, all_attendance, all_students, add_student. simpl. by rewrite app_assoc. Qed.

Lemma rows_fst x' l k : rows x' = (l, k) -> all_students x' = l.
Proof. by intros [= -> _]. Qed.

Lemma rows_snd x' l k : rows x' = (l, k) -> all_attendance x' = k.
Proof. by intros [= _ ->]. Qed.

Lemma changes_rows x x' x'' : changes x x' -> rows x'' = rows x' -> changes x x''.
Proof. intros Hc Hr. eapply rtc_r; [exact Hc|]. by apply Ch_none. Qed.

(** A row found by a key. *)
Lemma find_key_None {A} (key : A -> Z) (k : Z) (l : list A) :
  find (fun s => bool_decide (key s = k)) l = None <-> k ∉ map key l.
Proof.
  induction l as [|a l IH]; simpl.
  - split; [intros _; apply not_elem_of_nil|done].
  - rewrite not_elem_of_cons. destruct (bool_decide_reflect (key a = k)) as [Heq|Hne].
    + split; [done|]. by intros [Hk _].
    + rewrite IH. split; [by intros ?; split|by intros [_ ?]].
Qed.

Lemma find_text_None {A} (key : A -> string) (k : string) (l : list A) :
  find (fun s => bool_decide (key s = k)) l = None <-> k ∉ map key l.
Proof.
  induction l as [|a l IH]; simpl.
  - split; [intros _; apply not_elem_of_nil|done].
  - rewrite not_elem_of_cons. destruct (bool_decide_reflect (key a = k)) as [Heq|Hne].
    + split; [done|]. by intros [Hk _].
    + rewrite IH. split; [by intros ?; split|by intros [_ ?]].
Qed.

Lemma find_is_Some {A} (p : A -> bool) (l : list A) a :
  a ∈ l -> p a = true -> is_Some (find p l).
Proof.
  induction l as [|b l IH]; [by intros ?%elem_of_nil|].
  intros [->|Hin]%elem_of_cons Hp; simpl.
  - by rewrite Hp.
  - destruct (p b); [done|by apply IH].
Qed.

Lemma find_elem_of {A} (p : A -> bool) (l : list A) a :
  find p l = Some a -> a ∈ l /\ p a = true.
Proof.
  intros Hf. apply find_some in Hf as [Hin Hp]. split; [|done].
  by apply list_elem_of_In.
Qed.

Lemma get_student_elem st x : st ∈ all_students x -> is_Some (get_student (s_id st) x).
Proof. intros Hin. eapply find_is_Some; [exact Hin|]. by apply bool_decide_eq_true. Qed.

Lemma next_id_bound ids i : i ∈ ids -> i < next_id ids.
Proof.
  unfold next_id. induction ids as [|j ids IH]; [by intros ?%elem_of_nil|].
  intros [->|Hin]%elem_of_cons; simpl; [lia|]. specialize (IH Hin). lia.
Qed.

Lemma next_id_fresh ids : next_id ids ∉ ids.
Proof. intros Hin. apply next_id_bound in Hin. lia. Qed.

End StoreChanges.

Section RoutesChange.
Import Db Admin App.
Context `{Vision} `{Helpers.Disk}.
Variable secure_filename : string -> string.

Lemma register_student_changes rq now a :
  changes (db a) (db (register_student secure_filename rq now a).2).
Proof.
  unfold register_student.
  destruct (rq_is_get rq); [apply rtc_refl|].
  destruct (Helpers.validate_student_data _); [|apply rtc_refl].
  destruct (student_by_student_id _ _) eqn:Hsid; [apply rtc_refl|].
  destruct (rq_image rq) as [file|]; [|apply rtc_refl].
  destruct (bool_decide (Helpers.up_filename file = "")); [apply rtc_refl|].
  destruct (Helpers.save_uploaded_file _ _ _ _ _ _) as [[image_path|] files];
    [|apply rtc_refl].
  destruct (FACE_RECOGNITION_AVAILABLE (set_fs files a) && _); [apply rtc_refl|].
  destruct (bool_decide_reflect
              (default "" (Helpers.f_email (rq_data rq))
               ∈ map s_email (all_students (db (set_fs files a))))) as [|Hemail];
    [apply rtc_refl|].
  apply rtc_once. simpl in *.
  eapply Ch_student; [| | |by rewrite rows_commit, rows_add_student]; simpl.
  - done.
  - by apply find_text_None.
  - exact Hemail.
Qed.

Lemma resolved_elem c x st : resolved c x = Some st -> st ∈ all_students x.
Proof.
  destruct c as [sid|sid conf]; simpl.
  - destruct (Helpers.filled sid); [|done].
    unfold active_student_by_student_id. by intros [? _]%find_elem_of.
  - destruct (truthy_id sid); [|done].
    unfold get_student. by intros [? _]%find_elem_of.
Qed.

Lemma mark_present_changes c today now a :
  changes (db a) (db (mark_present c today now a).2).
Proof.
  destruct (resolved c (db a)) as [st|] eqn:Hres.
  - pose proof (mark_present_resolved c today now a st Hres) as Hcase.
    destruct (attendance_on (s_id st) today (db a)) eqn:Hon.
    + rewrite Hcase. apply rtc_refl.
    + rewrite Hcase. apply rtc_once. simpl.
      eapply Ch_attendance; [| | | | |by rewrite rows_commit, rows_add_attendance];
        simpl; try done.
      apply get_student_elem. by eapply resolved_elem.
  - rewrite mark_present_unresolved by done. apply rtc_refl.
Qed.

Lemma auto_mark_face_changes today now x ms face :
  changes x (auto_mark_face today now (x, ms) face).1.
Proof.
  unfold auto_mark_face.
  destruct (truthy_id (det_student_id face) && _); [|apply rtc_refl].
  destruct (get_student _ x) as [st|] eqn:Hget; [|apply rtc_refl].
  destruct (attendance_on _ today x) eqn:Hon; [apply rtc_refl|].
  apply rtc_once. simpl.
  eapply Ch_attendance; [| | | | |by rewrite rows_add_attendance]; simpl; try done;
    by rewrite Hget.
Qed.

Lemma auto_mark_loop_changes today now faces : forall acc,
  changes acc.1 (foldl (auto_mark_face today now) acc faces).1.
Proof.
  induction faces as [|face faces IH]; intros [x ms]; simpl; [apply rtc_refl|].
  unfold changes. etrans; [apply (auto_mark_face_changes today now x ms face)|].
  apply IH.
Qed.

Lemma auto_mark_attendance_changes today now a :
  changes (db a) (db (auto_mark_attendance today now a).2).
Proof.
  unfold auto_mark_attendance.
  destruct (FACE_RECOGNITION_AVAILABLE a); simpl; [|apply rtc_refl].
  destruct (face_detector a) as [d|]; [|apply rtc_refl].
  destruct (face_recognition_active a); simpl; [|apply rtc_refl].
  pose proof (auto_mark_loop_changes today now (FaceDetector.get_detected_faces d)
                (db a, [])) as Hloop.
  destruct (foldl _ _ _) as [x ms]. simpl in Hloop.
  destruct ms; simpl; [done|].
  eapply changes_rows; [exact Hloop|apply rows_commit].
Qed.

Lemma delete_student_changes id a : changes (db a) (db (Admin.delete_student id a).2).
Proof.
  unfold Admin.delete_student. destruct (get_student id (db a)); [|apply rtc_refl].
  apply rtc_once. simpl. apply (Ch_deactivate _ _ id).
  by rewrite rows_commit, rows_update_student.
Qed.

Lemma permanently_delete_student_changes id a :
  changes (db a) (db (permanently_delete_student id a).2).
Proof.
  unfold permanently_delete_student. destruct (get_student id (db a)); [|apply rtc_refl].
  apply rtc_once. simpl. apply (Ch_purge _ _ id).
  by rewrite rows_commit, rows_purge.
Qed.

Lemma update_attendance_status_changes id status a :
  changes (db a) (db (update_attendance_status id status a).2).
Proof.
  unfold update_attendance_status.
  destruct (negb (truthy_id id) || _); [apply rtc_refl|].
  destruct (bool_decide_reflect (default "" status ∈ valid_statuses)) as [Hvalid|];
    simpl; [|apply rtc_refl].
  destruct (get_attendance _ _) as [r|]; [|apply rtc_refl].
  destruct (student_of r (db a)); [|apply rtc_refl].
  apply rtc_once. simpl. apply (Ch_status _ _ (default 0 id) (default "" status) Hvalid).
  by rewrite rows_commit, rows_update_attendance.
Qed.

Lemma mark_student_status_changes id status today a :
  changes (db a) (db (mark_student_status id status today a).2).
Proof.
  unfold mark_student_status.
  destruct (bool_decide_reflect (status ∈ valid_statuses)) as [Hvalid|];
    simpl; [|apply rtc_refl].
  destruct (get_student id (db a)); [|apply rtc_refl].
  destruct (attendance_on id today (db a)) as [r|]; [|apply rtc_refl].
  apply rtc_once. simpl. apply (Ch_status _ _ (a_id r) status Hvalid).
  by rewrite rows_commit, rows_update_attendance.
Qed.

Lemma mark_time_out_changes id now a :
  changes (db a) (db (mark_time_out id now a).2).
Proof.
  unfold mark_time_out.
  destruct (get_attendance id (db a)) as [r|]; [|apply rtc_refl].
  destruct (a_time_out r); [apply rtc_refl|].
  apply rtc_once. simpl. apply (Ch_time_out _ _ id now).
  by rewrite rows_commit, rows_update_attendance.
Qed.

Lemma delete_attendance_changes id a :
  changes (db a) (db (Admin.delete_attendance id a).2).
Proof.
  unfold Admin.delete_attendance.
  destruct (get_attendance id (db a)) as [r|]; [|apply rtc_refl].
  apply rtc_once. simpl. apply (Ch_delete_attendance _ _ id).
  by rewrite rows_commit, rows_delete_attendance_row.
Qed.

(** The camera and recognition routes leave the store alone. *)
Lemma start_detection_db a : db (App.start_detection a).2 = db a.
Proof.
  unfold App.start_detection. destruct (detection_active a); [done|].
  destruct (SimpleCamera.start_camera _ _) as [[[] s] w]; done.
Qed.

Lemma stop_detection_db during a : db (App.stop_detection during a).2 = db a.
Proof.
  unfold App.stop_detection.
  by destruct (SimpleCamera.stop_camera _ _ _) as [[ok s] w].
Qed.

Lemma start_face_recognition_db a : db (App.start_face_recognition a).2 = db a.
Proof.
  unfold App.start_face_recognition.
  destruct (FACE_RECOGNITION_AVAILABLE a); simpl; [|done].
  destruct (face_recognition_active a); [done|].
  destruct (face_detector a) as [d|]; [|done].
  destruct (students_data (db a)); [done|].
  destruct (FaceDetector.start_detection _ _) as [[[] d'] w]; done.
Qed.

Lemma stop_face_recognition_db s1 s2 a :
  db (App.stop_face_recognition s1 s2 a).2 = db a.
Proof.
  unfold App.stop_face_recognition.
  destruct (face_detector a) as [d|]; [|done].
  destruct (FACE_RECOGNITION_AVAILABLE a); [|done].
  by destruct (FaceDetector.stop_detection _ _ _ _) as [[ok d'] w].
Qed.

Lemma handle_changes rq today now a :
  changes (db a) (db (handle secure_filename rq today now a)).
Proof.
  destruct rq; unfold handle.
  - apply register_student_changes.
  - apply mark_present_changes.
  - apply auto_mark_attendance_changes.
  - apply delete_student_changes.
  - apply permanently_delete_student_changes.
  - apply update_attendance_status_changes.
  - apply mark_student_status_changes.
  - apply mark_time_out_changes.
  - apply delete_attendance_changes.
  - rewrite start_detection_db. apply rtc_refl.
  - rewrite stop_detection_db. apply rtc_refl.
  - rewrite start_face_recognition_db. apply rtc_refl.
  - rewrite stop_face_recognition_db. apply rtc_refl.
Qed.

Lemma run_changes rqs : forall a, changes (db a) (db (run secure_filename rqs a)).
Proof.
  induction rqs as [|[[rq today] now] rqs IH]; intros a; simpl; [apply rtc_refl|].
  unfold changes. etrans; [apply handle_changes|apply IH].
Qed.

End RoutesChange.

Section StoreInvariants.
Import Db Admin.

(** Every attendance record belongs to a row of [students]. *)
Definition linked (x : Db.t) : Prop :=
  forall r, r ∈ all_attendance x -> is_Some (get_student (a_student_id r) x).

(** Every status is one of the four the routes accept. *)
Definition statuses_valid (x : Db.t) : Prop :=
  forall r, r ∈ all_attendance x -> a_status r ∈ valid_statuses.

(** Primary keys, student ids and e-mail addresses are not repeated. *)
Definition keyed (x : Db.t) : Prop :=
  NoDup (map a_id (all_attendance x)) /\
  NoDup (map s_id (all_students x)) /\
  NoDup (map s_student_id (all_students x)) /\
  NoDup (map s_email (all_students x)).

Lemma elem_of_map {A B} (f : A -> B) (l : list A) b :
  b ∈ map f l <-> exists a, a ∈ l /\ b = f a.
Proof.
  induction l as [|c l IH]; simpl.
  - split; [by intros ?%elem_of_nil|by intros (a & ?%elem_of_nil & _)].
  - rewrite elem_of_cons, IH. split.
    + intros [->|(a & Hin & ->)].
      * exists c. split; [apply elem_of_cons; by left|done].
      * exists a. split; [apply elem_of_cons; by right|done].
    + intros (a & [->|Hin]%elem_of_cons & ->); [by left|right; by exists a].
Qed.

Lemma map_on_key {A B} (key : A -> Z) (proj : A -> B) id (f : A -> A) (l : list A) :
  (forall a, proj (f a) = proj a) ->
  map proj (map (on_key key id f) l) = map proj l.
Proof.
  intros Hf. induction l as [|a l IH]; simpl; [done|]. rewrite IH. f_equal.
  unfold on_key. by destruct (bool_decide (key a = id)).
Qed.

Lemma NoDup_map_filter {A B} (proj : A -> B) (P : A -> Prop)
    `{forall a, Decision (P a)} (l : list A) :
  NoDup (map proj l) -> NoDup (map proj (filter P l)).
Proof.
  induction l as [|a l IH]; simpl; [done|].
  intros [Hnotin Hnd]%NoDup_cons. rewrite filter_cons.
  destruct (decide (P a)); [|by apply IH]. simpl. apply NoDup_cons. split; [|by apply IH].
  intros (b & [_ Hb]%list_elem_of_filter & Heq)%elem_of_map.
  apply Hnotin. apply elem_of_map. by exists b.
Qed.

Lemma NoDup_map_snoc {A B} (proj : A -> B) (l : list A) a :
  NoDup (map proj l) -> proj a ∉ map proj l -> NoDup (map proj (l ++ [a])).
Proof.
  intros Hnd Hnotin. rewrite map_app. simpl. apply NoDup_app. split; [done|].
  split; [|apply NoDup_singleton].
  intros b Hb ->%list_elem_of_singleton. by apply Hnotin.
Qed.

Lemma get_student_is_Some id x :
  is_Some (get_student id x) <-> id ∈ map s_id (all_students x).
Proof.
  unfold get_student. pose proof (find_key_None s_id id (all_students x)) as Hnone.
  destruct (find _ _) eqn:Hfind.
  - split; [intros _|done]. destruct (decide (id ∈ map s_id (all_students x))); [done|].
    by apply Hnone in n.
  - split; [by intros [? [=]]|]. intros Hin. by apply Hnone in Hin.
Qed.

Lemma length_filter_filter {A} (P Q : A -> Prop)
    `{forall a, Decision (P a)} `{forall a, Decision (Q a)} (l : list A) :
  (length (filter P (filter Q l)) <= length (filter P l))%nat.
Proof.
  induction l as [|a l IH]; simpl; [done|].
  rewrite !filter_cons. destruct (decide (Q a)), (decide (P a)); simpl;
    rewrite ?filter_cons; try destruct (decide (P a)); simpl; try done; lia.
Qed.

Lemma length_filter_on_key {A} (P : A -> Prop) `{forall a, Decision (P a)}
    (key : A -> Z) id (f : A -> A) (l : list A) :
  (forall a, P (f a) <-> P a) ->
  length (filter P (map (on_key key id f) l)) = length (filter P l).
Proof.
  intros Hf. induction l as [|a l IH]; simpl; [done|].
  rewrite !filter_cons.
  assert (P (on_key key id f a) <-> P a) as Hiff.
  { unfold on_key. destruct (bool_decide (key a = id)); [apply Hf|done]. }
  destruct (decide (P (on_key key id f a))), (decide (P a)); simpl; try tauto; by rewrite IH.
Qed.

Lemma change_unique_per_day x x' :
  change x x' -> unique_per_day x -> unique_per_day x'.
Proof.
  intros Hc Huniq sid day. specialize (Huniq sid day). unfold records_of in *.
  destruct Hc; apply rows_snd in Hrows; rewrite Hrows; try done.
  - rewrite filter_app, filter_cons, filter_nil.
    destruct (decide (on_day sid day r = true)) as [Hon|]; [|by rewrite app_nil_r].
    unfold on_day in Hon. apply andb_true_iff in Hon as [H1 H2].
    apply bool_decide_eq_true in H1, H2. subst sid day.
    apply attendance_on_None in Hnone. unfold records_of in Hnone. rewrite Hnone.
    simpl. lia.
  - rewrite length_filter_on_key; [done|]. by intros [].
  - rewrite length_filter_on_key; [done|]. by intros [].
  - etrans; [apply length_filter_filter|done].
  - etrans; [apply length_filter_filter|done].
Qed.

Lemma change_linked x x' : change x x' -> linked x -> linked x'.
Proof.
  intros Hc Hl r Hr. apply get_student_is_Some. unfold linked in Hl.
  setoid_rewrite get_student_is_Some in Hl.
  destruct Hc; pose proof (rows_fst _ _ _ Hrows) as Hst;
    apply rows_snd in Hrows; rewrite Hst; rewrite Hrows in Hr.
  - by apply Hl.
  - apply elem_of_app in Hr as [Hr| ->%list_elem_of_singleton]; [by apply Hl|].
    by apply get_student_is_Some.
  - rewrite map_app. apply elem_of_app. left. by apply Hl.
  - apply elem_of_map in Hr as (r0 & Hr0 & ->).
    replace (a_student_id (on_key a_id id (with_status status) r0))
      with (a_student_id r0); [by apply Hl|].
    unfold on_key. by destruct (bool_decide _).
  - apply elem_of_map in Hr as (r0 & Hr0 & ->).
    match goal with |- a_student_id (on_key _ _ ?f r0) ∈ _ =>
      replace (a_student_id (on_key a_id id f r0)) with (a_student_id r0)
    end; [by apply Hl|].
    unfold on_key. by destruct (bool_decide _).
  - rewrite map_on_key by done. by apply Hl.
  - apply list_elem_of_filter in Hr as [_ Hr]. by apply Hl.
  - apply list_elem_of_filter in Hr as [Hne Hr].
    apply Hl, elem_of_map in Hr as (s & Hs & Heq).
    apply elem_of_map. exists s. split; [|done].
    apply list_elem_of_filter. split; [congruence|done].
Qed.

Lemma change_statuses_valid x x' :
  change x x' -> statuses_valid x -> statuses_valid x'.
Proof.
  intros Hc Hv r Hr. unfold statuses_valid in Hv.
  destruct Hc; apply rows_snd in Hrows; rewrite Hrows in Hr.
  - by apply Hv.
  - apply elem_of_app in Hr as [Hr| ->%list_elem_of_singleton]; [by apply Hv|].
    rewrite Hstatus. apply elem_of_cons. by left.
  - by apply Hv.
  - apply elem_of_map in Hr as (r0 & Hr0 & ->). unfold on_key.
    destruct (bool_decide _); [done|by apply Hv].
  - apply elem_of_map in Hr as (r0 & Hr0 & ->). unfold on_key.
    destruct (bool_decide _); simpl; by apply Hv.
  - by apply Hv.
  - apply list_elem_of_filter in Hr as [_ Hr]. by apply Hv.
  - apply list_elem_of_filter in Hr as [_ Hr]. by apply Hv.
Qed.

Lemma change_keyed x x' : change x x' -> keyed x -> keyed x'.
Proof.
  intros Hc (Ha & Hs & Hsid & Hem). unfold keyed.
  destruct Hc; pose proof (rows_fst _ _ _ Hrows) as Hst;
    apply rows_snd in Hrows; rewrite Hst, Hrows.
  - done.
  - repeat split; try done. apply NoDup_map_snoc; [done|].
    rewrite Hid. apply next_id_fresh.
  - repeat split; try done; apply NoDup_map_snoc; try done.
    rewrite Hid. apply next_id_fresh.
  - by rewrite map_on_key.
  - by rewrite map_on_key.
  - by rewrite !map_on_key.
  - repeat split; try done. by apply NoDup_map_filter.
  - repeat split; by apply NoDup_map_filter.
Qed.

Lemma changes_invariant (P : Db.t -> Prop) x x' :
  (forall y y', change y y' -> P y -> P y') -> changes x x' -> P x -> P x'.
Proof. intros Hstep Hc. induction Hc; [done|]. intros HP. eauto. Qed.

End StoreInvariants.

Section StoreTheorems.
Import Db Admin App.
Context `{Vision} `{Helpers.Disk}.
Variable secure_filename : string -> string.

(** X6.  Whatever requests are served, in whatever order (registration,
    the two marking routes, the batch route, the status, time-out and
    delete routes, the camera routes), a store with at most one
    attendance record per student and day stays so. *)
Theorem requests_keep_one_record_per_day rqs a :
  unique_per_day (db a) -> unique_per_day (db (run secure_filename rqs a)).
Proof.
  apply (changes_invariant unique_per_day); [apply change_unique_per_day|].
  apply run_changes.
Qed.

(** X7.  Whatever requests are served, every attendance record keeps
    pointing to a row of the students table: records are only added for
    students that exist, and the one route that removes a student row
    removes that student's records with it. *)
Theorem requests_keep_records_linked rqs a :
  linked (db a) -> linked (db (run secure_filename rqs a)).
Proof.
  apply (changes_invariant linked); [apply change_linked|]. apply run_changes.
Qed.

(** X8.  Whatever requests are served, the status of every attendance
    record stays one of 'Present', 'Absent', 'Late' and 'Excused'. *)
Theorem requests_keep_statuses_valid rqs a :
  statuses_valid (db a) -> statuses_valid (db (run secure_filename rqs a)).
Proof.
  apply (changes_invariant statuses_valid); [apply change_statuses_valid|].
  apply run_changes.
Qed.

(** X9.  Whatever requests are served, no two attendance records share
    a primary key and no two students share a primary key, a student id
    or an e-mail address. *)
Theorem requests_keep_keys_unique rqs a :
  keyed (db a) -> keyed (db (run secure_filename rqs a)).
Proof.
  apply (changes_invariant keyed); [apply change_keyed|]. apply run_changes.
Qed.

End StoreTheorems.

(** ** The administrative routes *)

Section AdminRoutes.
Import Db Admin App.

Lemma find_on_key {A} (key : A -> Z) k id (f : A -> A) (l : list A) :
  (forall a, key (f a) = key a) ->
  find (fun a => bool_decide (key a = k)) (map (on_key key id f) l) =
  on_key key id f <$> find (fun a => bool_decide (key a = k)) l.
Proof.
  intros Hf. induction l as [|a l IH]; simpl; [done|].
  replace (key (on_key key id f a)) with (key a).
  - by destruct (bool_decide (key a = k)).
  - unfold on_key. by destruct (bool_decide (key a = id)).
Qed.

Lemma find_None_forall {A} (p : A -> bool) (l : list A) :
  (forall a, a ∈ l -> p a = false) -> find p l = None.
Proof.
  induction l as [|a l IH]; simpl; [done|]. intros Hall.
  rewrite (Hall a) by (apply elem_of_cons; by left).
  apply IH. intros b Hb. apply Hall, elem_of_cons. by right.
Qed.

Lemma NoDup_map_elem {A B} (proj : A -> B) (l : list A) a b :
  NoDup (map proj l) -> a ∈ l -> b ∈ l -> proj a = proj b -> a = b.
Proof.
  induction l as [|c l IH]; simpl; [by intros _ ?%elem_of_nil|].
  intros [Hnotin Hnd]%NoDup_cons [->|Ha]%elem_of_cons [->|Hb]%elem_of_cons Heq;
    [done| | |by apply IH].
  - destruct Hnotin. apply elem_of_map. by exists b.
  - destruct Hnotin. apply elem_of_map. by exists a.
Qed.

Lemma get_student_elem_of id x st : get_student id x = Some st -> st ∈ all_students x.
Proof. unfold get_student. by intros [? _]%find_elem_of. Qed.

Lemma all_students_delete_student id a st :
  get_student id (db a) = Some st ->
  all_students (db (Admin.delete_student id a).2) =
  map (on_key s_id id deactivated) (all_students (db a)).
Proof.
  intros Hget. unfold Admin.delete_student. rewrite Hget. simpl.
  pose proof (rows_update_student id deactivated (db a)) as Hrows.
  rewrite all_students_commit. by apply rows_fst in Hrows.
Qed.

Lemma all_attendance_delete_student id a :
  all_attendance (db (Admin.delete_student id a).2) = all_attendance (db a).
Proof.
  unfold Admin.delete_student. destruct (get_student id (db a)); [|done]. simpl.
  by rewrite all_attendance_commit.
Qed.

(** X10.  The soft delete takes a student out of manual marking and out
    of the faces loaded for recognition, but not out of the route that
    marks a detected face: for a student [st] with key [id],
    - marking by the student's id text is answered "not found" and
      changes nothing;
    - no known face built from the store has key [id];
    - a request of [mark_student_present] for [id] still adds today's
      record. *)
Theorem soft_deleted_student_still_marked_by_detection id a st today now conf :
  get_student id (db a) = Some st ->
  NoDup (map s_student_id (all_students (db a))) ->
  s_student_id st <> "" ->
  id <> 0 ->
  attendance_on id today (db a) = None ->
  let a1 := (Admin.delete_student id a).2 in
  mark_manual_attendance (Some (s_student_id st)) today now a1 =
    (Redirect "mark_attendance"
       [("Student with ID " +:+ s_student_id st +:+ " not found", "error")], a1) /\
  (forall k, k ∈ students_data (db a1) -> FaceDetector.kf_id k <> id) /\
  attendance_on id today (db a1) = None /\
  is_Some (attendance_on id today
             (db (mark_student_present (Some id) conf today now a1).2)).
Proof.
  intros Hget Hnd Hsid Hid Hnone a1.
  pose proof (all_students_delete_student id a st Hget) as Hst. fold a1 in Hst.
  pose proof (all_attendance_delete_student id a) as Hatt. fold a1 in Hatt.
  pose proof (get_student_id _ _ _ Hget) as Hkey.
  pose proof (get_student_elem_of _ _ _ Hget) as Hin.
  assert (attendance_on id today (db a1) = None) as Hnone1.
  { unfold attendance_on. by rewrite Hatt. }
  split; [|split; [|split; [exact Hnone1|]]].
  - unfold mark_manual_attendance. simpl.
    rewrite bool_decide_eq_false_2 by done. simpl.
    replace (active_student_by_student_id (s_student_id st) (db a1)) with (@None Student);
      [done|].
    symmetry. unfold active_student_by_student_id. rewrite Hst.
    apply find_None_forall. intros s (s0 & Hs0 & ->)%elem_of_map.
    unfold on_key. destruct (bool_decide_reflect (s_id s0 = id)) as [Heq|Hne]; simpl.
    + apply andb_false_r.
    + rewrite bool_decide_eq_false_2; [done|]. intros Hsame.
      apply Hne. rewrite <- Hkey. f_equal. by eapply NoDup_map_elem.
  - intros k Hk. unfold students_data in Hk.
    apply list_elem_of_omap in Hk as (s & Hs & Hk).
    apply list_elem_of_filter in Hs as [Hactive Hs]. rewrite Hst in Hs.
    apply elem_of_map in Hs as (s0 & Hs0 & ->).
    unfold on_key in *. destruct (bool_decide_reflect (s_id s0 = id)) as [Heq|Hne];
      [done|].
    destruct (get_face_encoding s0); [|done]. by injection Hk as <-.
  - change (mark_student_present (Some id) conf today now a1)
      with (mark_present (Detected (Some id) conf) today now a1).
    assert (exists st1, resolved (Detected (Some id) conf) (db a1) = Some st1)
      as [st1 Hres].
    { simpl. destruct (Z.eqb_spec id 0) as [|_]; [done|]. simpl.
      unfold get_student. rewrite Hst, find_on_key by done.
      fold (get_student id (db a)). rewrite Hget. by eexists. }
    pose proof (mark_present_marks _ today now a1 st1 Hres) as Hsome.
    replace (s_id st1) with id in Hsome; [done|].
    simpl in Hres. destruct (Z.eqb_spec id 0) as [|_]; [done|]. simpl in Hres.
    symmetry. by eapply get_student_id.
Qed.

Lemma find_map_stable {A} (p : A -> bool) (g : A -> A) (l : list A) :
  (forall a, p (g a) = p a) -> find p (map g l) = g <$> find p l.
Proof.
  intros Hg. induction l as [|a l IH]; simpl; [done|].
  rewrite Hg. by destruct (p a).
Qed.

Lemma on_day_on_key sid day id status r :
  on_day sid day (on_key a_id id (with_status status) r) = on_day sid day r.
Proof. unfold on_key. by destruct (bool_decide (a_id r = id)). Qed.

(** X11.  The quick-mark route never adds or removes an attendance
    record.  It answers 200 exactly when the status is one of the four,
    the student exists and already has a record for today, and then
    today's record carries the new status; for a student without a
    record today the state is left as it was. *)
Theorem quick_mark_needs_existing_record id status today a :
  map a_id (all_attendance (db (mark_student_status id status today a).2)) =
    map a_id (all_attendance (db a)) /\
  (code (mark_student_status id status today a).1 = 200 <->
     status ∈ valid_statuses /\ is_Some (get_student id (db a)) /\
     is_Some (attendance_on id today (db a))) /\
  (code (mark_student_status id status today a).1 = 200 ->
     exists r, attendance_on id today (db (mark_student_status id status today a).2)
               = Some r /\ a_status r = status) /\
  (attendance_on id today (db a) = None ->
     (mark_student_status id status today a).2 = a).
Proof.
  unfold mark_student_status.
  destruct (bool_decide_reflect (status ∈ valid_statuses)) as [Hvalid|Hinvalid]; simpl.
  2: { repeat split; try done. by intros (? & _). }
  destruct (get_student id (db a)) as [st|] eqn:Hget; simpl.
  2: { repeat split; try done. by intros (_ & [? [=]] & _). }
  destruct (attendance_on id today (db a)) as [r|] eqn:Hon; simpl.
  2: { repeat split; try done. by intros (_ & _ & [? [=]]). }
  pose proof (rows_update_attendance (a_id r) (with_status status) (db a)) as Hrows.
  apply rows_snd in Hrows.
  repeat split; try done.
  - rewrite all_attendance_commit, Hrows. by apply map_on_key.
  - intros _. exists (with_status status r). split; [|done].
    unfold attendance_on in *. rewrite all_attendance_commit, Hrows.
    rewrite find_map_stable by (intros; apply on_day_on_key). rewrite Hon. simpl.
    unfold on_key. by rewrite bool_decide_eq_true_2.
Qed.

Lemma resolved_students c x x' :
  all_students x' = all_students x -> resolved c x' = resolved c x.
Proof.
  intros Hst. destruct c as [sid|sid conf]; simpl.
  - unfold active_student_by_student_id. by rewrite Hst.
  - unfold get_student. by rewrite Hst.
Qed.

Lemma length_le_1_elem {A} (l : list A) a b :
  (length l <= 1)%nat -> a ∈ l -> b ∈ l -> a = b.
Proof.
  destruct l as [|c [|d l]]; simpl; [by intros _ ?%elem_of_nil| |lia].
  by intros _ ->%list_elem_of_singleton ->%list_elem_of_singleton.
Qed.

(** X12.  Deleting today's record of a student opens the day again: a
    marking request that was answered "already marked present today"
    before the deletion adds a record after it, and the student then
    has exactly one record for the day. *)
Theorem deleted_record_can_be_marked_again c today now a st r :
  unique_per_day (db a) ->
  resolved c (db a) = Some st ->
  attendance_on (s_id st) today (db a) = Some r ->
  let a1 := (Admin.delete_attendance (a_id r) a).2 in
  mark_present c today now a = (already_marked c st, a) /\
  attendance_on (s_id st) today (db a1) = None /\
  (mark_present c today now a1).2 =
    set_db (commit (add_attendance (s_id st) today now "Present"
                      (Some (stored_confidence c)) (db a1))) a1 /\
  length (records_of (s_id st) today (db (mark_present c today now a1).2)) = 1%nat.
Proof.
  intros Huniq Hres Hon a1.
  pose proof (find_elem_of _ _ _ Hon) as [Hin Hday].
  assert (all_students (db a1) = all_students (db a) /\
          all_attendance (db a1) =
          filter (fun r0 => a_id r0 <> a_id r) (all_attendance (db a))) as [Hst Hatt].
  { unfold a1, Admin.delete_attendance.
    destruct (get_attendance (a_id r) (db a)) eqn:Hget.
    - simpl. rewrite all_students_commit, all_attendance_commit.
      pose proof (rows_delete_attendance_row (a_id r) (db a)) as Hrows.
      split; [by apply rows_fst in Hrows|by apply rows_snd in Hrows].
    - unfold get_attendance in Hget.
      assert (is_Some (find (fun r0 => bool_decide (a_id r0 = a_id r))
                         (all_attendance (db a)))) as [? Hsome].
      { eapply find_is_Some; [exact Hin|]. by apply bool_decide_eq_true. }
      congruence. }
  assert (attendance_on (s_id st) today (db a1) = None) as Hnone.
  { unfold attendance_on. rewrite Hatt. apply find_None_forall.
    intros b [Hne Hb]%list_elem_of_filter.
    destruct (on_day (s_id st) today b) eqn:Hb_day; [|done].
    destruct Hne. f_equal.
    apply (length_le_1_elem (records_of (s_id st) today (db a)));
      [apply Huniq| |]; by apply list_elem_of_filter. }
  assert (resolved c (db a1) = Some st) as Hres1.
  { by rewrite (resolved_students c (db a) (db a1)). }
  pose proof (mark_present_resolved c today now a st Hres) as Hcase.
  rewrite Hon in Hcase.
  pose proof (mark_present_resolved c today now a1 st Hres1) as Hcase1.
  rewrite Hnone in Hcase1.
  split; [done|]. split; [done|]. split; [done|].
  rewrite Hcase1. simpl.
  destruct (all_attendance_add (s_id st) today now "Present"
              (Some (stored_confidence c)) (db a1)) as [k Hadd].
  erewrite (records_of_snoc (s_id st) today (db a1)).
  2: { rewrite all_attendance_commit. exact Hadd. }
  apply attendance_on_None in Hnone. rewrite Hnone. simpl.
  unfold on_day. simpl. by rewrite !bool_decide_eq_true_2.
Qed.

(** X13.  The permanent delete leaves no trace of the student and
    touches nothing else: the row is gone, no attendance record points
    to it, the student id and the e-mail address are free again, the
    photo is off the disk, and every other student and every record of
    another student is still there. *)
Theorem permanent_delete_leaves_no_trace id a st :
  get_student id (db a) = Some st ->
  keyed (db a) ->
  let a1 := (permanently_delete_student id a).2 in
  get_student id (db a1) = None /\
  (forall r, r ∈ all_attendance (db a1) -> a_student_id r <> id) /\
  student_by_student_id (s_student_id st) (db a1) = None /\
  (s_email st ∉ map s_email (all_students (db a1))) /\
  (forall path, s_image_path st = Some path -> path <> "" -> fs a1 !! path = None) /\
  (forall s, s ∈ all_students (db a) -> s_id s <> id -> s ∈ all_students (db a1)) /\
  (forall r, r ∈ all_attendance (db a) -> a_student_id r <> id ->
             r ∈ all_attendance (db a1)).
Proof.
  intros Hget (_ & Hkey & Hsid & Hemail) a1.
  pose proof (get_student_id _ _ _ Hget) as Hid.
  pose proof (get_student_elem_of _ _ _ Hget) as Hin.
  assert (all_students (db a1) = filter (fun s => s_id s <> id) (all_students (db a)) /\
          all_attendance (db a1) =
          filter (fun r => a_student_id r <> id) (all_attendance (db a))) as [Hst Hatt].
  { unfold a1, permanently_delete_student. rewrite Hget. simpl.
    rewrite all_students_commit, all_attendance_commit.
    pose proof (rows_purge id (db a)) as Hrows.
    split; [by apply rows_fst in Hrows|by apply rows_snd in Hrows]. }
  assert (forall {B} (proj : Student -> B),
            NoDup (map proj (all_students (db a))) ->
            proj st ∉ map proj (all_students (db a1))) as Hfree.
  { intros B proj Hnd (s & Hs & Heq)%elem_of_map. rewrite Hst in Hs.
    apply list_elem_of_filter in Hs as [Hne Hs]. apply Hne. rewrite <- Hid. f_equal. symmetry. by eapply NoDup_map_elem. }
  repeat split.
  - unfold get_student. apply find_key_None. rewrite <- Hid at 1. by apply Hfree.
  - intros r Hr. rewrite Hatt in Hr. by apply list_elem_of_filter in Hr as [? _].
  - unfold student_by_student_id. apply find_text_None. by apply Hfree.
  - by apply Hfree.
  - intros path Hpath Hne. unfold a1, permanently_delete_student. rewrite Hget. simpl.
    rewrite Hpath. rewrite (bool_decide_eq_false_2 _ Hne). simpl.
    destruct (bool_decide_reflect (is_Some (fs a !! path))) as [|Hno].
    + apply lookup_delete_eq.
    + by apply eq_None_not_Some.
  - intros s Hs Hne. rewrite Hst. by apply list_elem_of_filter.
  - intros r Hr Hne. rewrite Hatt. by apply list_elem_of_filter.
Qed.

End AdminRoutes.

(** ** Sessions: the routes and the workers together *)

(** What a worker of loop [tg] can hold: a worker of the plain camera
    holds a read, never a list of detections. *)
Definition fits (tg : target) (p : pc) : Prop :=
  match tg, p with
  | SimpleCamera_capture_frames, Got_detections _ => False
  | _, _ => True
  end.

(** No worker comes (back) to life between [w] and [w']: a worker that
    has not returned in [w'] is a worker of the same loop that had not
    returned in [w], and it holds what its loop can hold if it did. *)
Definition evolves (w w' : world) : Prop :=
  forall tid tg q,
    threads w' !! tid = Some (Worker tg q) -> q <> Finished ->
    exists p, threads w !! tid = Some (Worker tg p) /\ p <> Finished /\
              (fits tg p -> fits tg q).

Lemma evolves_refl w : evolves w w.
Proof. intros tid tg q Hth Hq. by exists q. Qed.

Lemma evolves_trans w1 w2 w3 : evolves w1 w2 -> evolves w2 w3 -> evolves w1 w3.
Proof.
  intros H12 H23 tid tg q Hth Hq.
  destruct (H23 tid tg q Hth Hq) as (p & Hp & Hlive & Hfit).
  destruct (H12 tid tg p Hp Hlive) as (p0 & Hp0 & Hlive0 & Hfit0).
  exists p0. split; [done|]. split; [done|]. auto.
Qed.

Lemma evolves_threads w w' : threads w' = threads w -> evolves w w'.
Proof. intros Heq tid tg q Hth Hq. rewrite Heq in Hth. by exists q. Qed.

Lemma evolves_set_pc tid q w :
  (q <> Finished ->
   exists tg p, threads w !! tid = Some (Worker tg p) /\ p <> Finished /\ fits tg q) ->
  evolves w (set_pc tid q w).
Proof.
  intros Hq tid' tg q' Hth Hlive. unfold set_pc in Hth. simpl in Hth.
  destruct (decide (tid' = tid)) as [->|Hne].
  - rewrite list_lookup_alter_eq in Hth.
    destruct (threads w !! tid) as [[tg0 p0]|] eqn:Hold; simpl in Hth; [|done].
    injection Hth as <- <-. destruct (Hq Hlive) as (tg1 & p1 & Hth1 & Hp1 & Hfit).
    exists p1. split; [congruence|]. split; [done|]. intros _. congruence.
  - rewrite list_lookup_alter_ne in Hth by done. by exists q'.
Qed.

Lemma evolves_set_pc_from tid q w w0 tg p :
  threads w0 = threads w ->
  threads w !! tid = Some (Worker tg p) -> p <> Finished -> fits tg q ->
  evolves w (set_pc tid q w0).
Proof.
  intros Heq Hth Hp Hfit. eapply evolves_trans; [by apply evolves_threads|].
  apply evolves_set_pc. intros _. exists tg, p. by rewrite Heq.
Qed.

Lemma evolves_set_pc_Finished tid w w0 :
  threads w0 = threads w -> evolves w (set_pc tid Finished w0).
Proof.
  intros Heq. eapply evolves_trans; [by apply evolves_threads|].
  by apply evolves_set_pc.
Qed.

Lemma fits_At_head tg : fits tg At_head.
Proof. by destruct tg. Qed.

Lemma fits_Got_read tg r : fits tg (Got_read r).
Proof. by destruct tg. Qed.

Section DetectorEvolves.
Context `{Vision}.
Import FaceDetector.

Lemma detector_complete_iteration_evolves tid tg p d w :
  threads w !! tid = Some (Worker tg p) ->
  evolves w (complete_iteration tid p d w).2.
Proof.
  intros Hth. destruct p as [|[f| |]|ds|]; simpl; try apply evolves_refl;
    (eapply evolves_set_pc_from; [done|exact Hth|done|apply fits_At_head]).
Qed.

Lemma detector_enter_iteration_evolves r now tid tg d w :
  owns tg = true ->
  threads w !! tid = Some (Worker tg At_head) ->
  evolves w (enter_iteration r now tid tg d w).2.
Proof.
  intros Hown Hth. unfold enter_iteration.
  destruct (negb (guard tg d)); [by apply evolves_set_pc_Finished|].
  destruct tg; [|clear Hown|discriminate Hown].
  - eapply evolves_set_pc_from; [done|exact Hth|done|done].
  - destruct (current_frame d) as [l|]; [|by apply evolves_threads].
    destruct (heap w !! l) as [f|]; [|apply evolves_refl].
    unfold alloc; simpl.
    destruct (detect_cycle (known_faces d) f now);
      [|by apply evolves_threads].
    eapply evolves_set_pc_from; [done|exact Hth|done|done].
Qed.

Lemma detector_worker_step_evolves r now tid d w :
  evolves w (worker_step r now tid d w).2.
Proof.
  unfold worker_step. destruct (threads w !! tid) as [[tg p]|] eqn:Hth;
    [|apply evolves_refl].
  destruct (owns tg) eqn:Hown; simpl; [|apply evolves_refl].
  destruct p; try (by eapply detector_complete_iteration_evolves).
  by apply detector_enter_iteration_evolves.
Qed.

Lemma detector_join_evolves steps tid : forall d w, evolves w (join steps tid d w).2.
Proof.
  induction steps as [|[r now] steps IH]; intros d w; simpl; [apply evolves_refl|].
  pose proof (detector_worker_step_evolves r now tid d w) as Hstep.
  destruct (worker_step r now tid d w) as [d1 w1].
  eapply evolves_trans; [exact Hstep|apply IH].
Qed.

Lemma detector_stop_evolves s1 s2 d w : evolves w (stop_detection s1 s2 d w).2.
Proof.
  unfold stop_detection. set (d0 := set_is_running false d).
  assert (exists d1 w1,
            match capture_thread d0 with Some th => join s1 th d0 w | None => (d0, w) end
            = (d1, w1) /\ evolves w w1) as (d1 & w1 & -> & H1).
  { destruct (capture_thread d0) as [th|]; [|eexists _, _; split; [done|apply evolves_refl]].
    pose proof (detector_join_evolves s1 th d0 w).
    destruct (join s1 th d0 w) as [d1 w1]. by exists d1, w1. }
  assert (exists d2 w2,
            match detection_thread d1 with Some th => join s2 th d1 w1 | None => (d1, w1) end
            = (d2, w2) /\ evolves w w2) as (d2 & w2 & -> & H2).
  { destruct (detection_thread d1) as [th|]; [|by eexists _, _].
    pose proof (detector_join_evolves s2 th d1 w1).
    destruct (join s2 th d1 w1) as [d2 w2]. exists d2, w2.
    split; [done|]. by eapply evolves_trans. }
  destruct (cap d2); simpl; [|done].
  eapply evolves_trans; [exact H2|by apply evolves_threads].
Qed.

End DetectorEvolves.

Lemma camera_complete_iteration_evolves tid p s w :
  threads w !! tid = Some (Worker SimpleCamera_capture_frames p) ->
  evolves w (SimpleCamera.complete_iteration tid p s w).2.
Proof.
  intros Hth. destruct p as [|[f| |]|ds|]; simpl; try apply evolves_refl;
    try (by apply evolves_set_pc_Finished).
  eapply evolves_set_pc_from; [done|exact Hth|done|done].
Qed.

Lemma camera_worker_step_evolves r tid s w :
  evolves w (SimpleCamera.worker_step r tid s w).2.
Proof.
  unfold SimpleCamera.worker_step.
  destruct (threads w !! tid) as [[[] p]|] eqn:Hth; try apply evolves_refl.
  destruct p; try (by apply camera_complete_iteration_evolves).
  unfold SimpleCamera.enter_iteration. destruct (SimpleCamera.is_running s); simpl.
  - eapply evolves_set_pc_from; [done|exact Hth|done|done].
  - by apply evolves_set_pc_Finished.
Qed.

Lemma camera_join_evolves steps tid : forall s w,
  evolves w (SimpleCamera.join steps tid s w).2.
Proof.
  induction steps as [|r steps IH]; intros s w; simpl; [apply evolves_refl|].
  pose proof (camera_worker_step_evolves r tid s w) as Hstep.
  destruct (SimpleCamera.worker_step r tid s w) as [s1 w1].
  eapply evolves_trans; [exact Hstep|apply IH].
Qed.

Lemma camera_stop_evolves steps s w :
  evolves w (SimpleCamera.stop_camera steps s w).2.
Proof.
  unfold SimpleCamera.stop_camera. set (s0 := SimpleCamera.set_running false s).
  assert (exists s1 w1,
            match SimpleCamera.capture_thread s0 with
            | Some th => SimpleCamera.join steps th s0 w
            | None => (s0, w)
            end = (s1, w1) /\ evolves w w1) as (s1 & w1 & -> & H1).
  { destruct (SimpleCamera.capture_thread s0) as [th|];
      [|eexists _, _; split; [done|apply evolves_refl]].
    pose proof (camera_join_evolves steps th s0 w).
    destruct (SimpleCamera.join steps th s0 w) as [s1 w1]. by exists s1, w1. }
  destruct (SimpleCamera.cap s1); simpl;
    (eapply evolves_trans; [exact H1|by apply evolves_threads]).
Qed.

(** A stop request is patient when each worker it waits for takes at
    least two steps before the wait of [join] ends: with the running
    flag down, that is enough for the worker to finish the iteration it
    is in and to return at the loop test.  A wait that times out earlier
    leaves fewer steps. *)
Definition patient_action (x : action) : bool :=
  match x with
  | Act_request (Rq_stop_detection during) _ _ => (2 <=? length during)%nat
  | Act_request (Rq_stop_face_recognition during_capture during_detection) _ _ =>
      (2 <=? length during_capture)%nat && (2 <=? length during_detection)%nat
  | _ => true
  end.

Definition patient (xs : list action) : bool := forallb patient_action xs.

Section Sessions.
Import App.
Context `{Vision} `{Helpers.Disk}.
Variable secure_filename : string -> string.

(** Thread [tid] is the one the detector recorded for loop [tg]. *)
Definition handle_of (tg : target) (tid : nat) (d : FaceDetector.t) : Prop :=
  match tg with
  | FaceDetector_capture_frames => FaceDetector.capture_thread d = Some tid
  | FaceDetector_detect_faces => FaceDetector.detection_thread d = Some tid
  | SimpleCamera_capture_frames => False
  end.

(** The session flags of [app.py] and the flags of the two objects tell
    the same story. *)
Definition flags_agree (a : App.t) : Prop :=
  detection_active a = SimpleCamera.running (simple_camera a) /\
  (forall d, face_detector a = Some d ->
     FaceDetector.is_running d
     = FACE_RECOGNITION_AVAILABLE a && face_recognition_active a).

(** Every thread that has not returned is the thread its object
    recorded, and that object is running. *)
Definition owned (a : App.t) : Prop :=
  forall tid tg p,
    threads (process a) !! tid = Some (Worker tg p) -> p <> Finished ->
    fits tg p /\
    match tg with
    | SimpleCamera_capture_frames =>
        SimpleCamera.running (simple_camera a) = true /\
        SimpleCamera.capture_thread (simple_camera a) = Some tid
    | _ =>
        exists d, face_detector a = Some d /\ FaceDetector.is_running d = true /\
                  handle_of tg tid d
    end.

Definition wired (a : App.t) : Prop := flags_agree a /\ owned a.

(** The part of the state the sessions live in. *)
Definition session (a : App.t) :=
  (FACE_RECOGNITION_AVAILABLE a, face_detector a, simple_camera a,
   detection_active a, face_recognition_active a, process a).

Lemma flags_session a a' : session a' = session a -> flags_agree a -> flags_agree a'.
Proof.
  unfold session, flags_agree. intros [= Hav Hd Hs Hda Hfa Hw].
  by rewrite Hav, Hd, Hs, Hda, Hfa.
Qed.

Lemma wired_session a a' : session a' = session a -> wired a -> wired a'.
Proof.
  intros Hs [Hflags Hown]. split; [by eapply flags_session|].
  revert Hown. unfold session, owned in *. injection Hs as Hav Hd Hs Hda Hfa Hw.
  by rewrite Hd, Hs, Hw.
Qed.

(** The detector of [a'] is the detector of [a] up to the stored frame
    and the published detections. *)
Definition same_detector (a a' : App.t) : Prop :=
  match face_detector a, face_detector a' with
  | Some d, Some d' => same_wiring d d'
  | None, None => True
  | _, _ => False
  end.

Lemma same_detector_refl a a' : face_detector a' = face_detector a -> same_detector a a'.
Proof.
  unfold same_detector. intros ->.
  destruct (face_detector a); [apply same_wiring_refl|done].
Qed.

Lemma flags_step a a' :
  flags_agree a ->
  FACE_RECOGNITION_AVAILABLE a' = FACE_RECOGNITION_AVAILABLE a ->
  detection_active a' = detection_active a ->
  face_recognition_active a' = face_recognition_active a ->
  SimpleCamera.running (simple_camera a') = SimpleCamera.running (simple_camera a) ->
  same_detector a a' ->
  flags_agree a'.
Proof.
  intros (Hcam & Hdet) Hav Hda Hfa Hrun Hd. split; [congruence|].
  intros d' Hd'. unfold same_detector in Hd. rewrite Hd' in Hd.
  destruct (face_detector a) as [d|]; [|done].
  destruct Hd as (_ & _ & Hr & _). rewrite Hr, Hav, Hfa. by apply Hdet.
Qed.

Lemma owned_step a a' :
  owned a ->
  evolves (process a) (process a') ->
  SimpleCamera.running (simple_camera a') = SimpleCamera.running (simple_camera a) ->
  SimpleCamera.capture_thread (simple_camera a')
    = SimpleCamera.capture_thread (simple_camera a) ->
  same_detector a a' ->
  owned a'.
Proof.
  intros Hlive Hev Hrun Hth Hd tid tg q Hq Hne.
  destruct (Hev tid tg q Hq Hne) as (p & Hp & Hpne & Hfits).
  destruct (Hlive tid tg p Hp Hpne) as [Hfit Hown]. split; [by apply Hfits|].
  unfold same_detector in Hd.
  destruct tg; try (by rewrite Hrun, Hth);
    (destruct Hown as (d & Hsome & Hr & Hh); rewrite Hsome in Hd;
     destruct (face_detector a') as [d'|]; [|done];
     destruct Hd as (_ & _ & Hr' & _ & Hc' & Hd'');
     exists d'; split; [done|]; split; [congruence|]; simpl in *; congruence).
Qed.

(** The routes that act on the store leave the sessions alone. *)
Lemma register_student_session rq now a :
  session (register_student secure_filename rq now a).2 = session a.
Proof.
  unfold register_student.
  destruct (rq_is_get rq); [done|].
  destruct (Helpers.validate_student_data _); [|done].
  destruct (Db.student_by_student_id _ _); [done|].
  destruct (rq_image rq) as [file|]; [|done].
  destruct (bool_decide (Helpers.up_filename file = "")); [done|].
  destruct (Helpers.save_uploaded_file _ _ _ _ _ _) as [[image_path|] files]; [|done].
  destruct (FACE_RECOGNITION_AVAILABLE (set_fs files a) && _); [done|].
  by destruct (bool_decide _).
Qed.

Lemma mark_present_session c today now a :
  session (mark_present c today now a).2 = session a.
Proof.
  destruct (resolved c (db a)) as [st|] eqn:Hres.
  - pose proof (mark_present_resolved c today now a st Hres) as Hcase.
    destruct (Db.attendance_on (Db.s_id st) today (db a)); by rewrite Hcase.
  - by rewrite mark_present_unresolved.
Qed.

Lemma auto_mark_attendance_session today now a :
  session (auto_mark_attendance today now a).2 = session a.
Proof.
  unfold auto_mark_attendance.
  destruct (FACE_RECOGNITION_AVAILABLE a) eqn:Hav; simpl; [|done].
  destruct (face_detector a) as [d|] eqn:Hd; [|done].
  destruct (face_recognition_active a) eqn:Hfa; simpl; [|done].
  destruct (foldl _ _ _) as [x ms].
  destruct ms; unfold session; simpl; by rewrite Hav, Hd, Hfa.
Qed.

Lemma admin_session a :
  (forall id, session (Admin.delete_student id a).2 = session a) /\
  (forall id, session (Admin.permanently_delete_student id a).2 = session a) /\
  (forall id st, session (Admin.update_attendance_status id st a).2 = session a) /\
  (forall id st today, session (Admin.mark_student_status id st today a).2 = session a) /\
  (forall id now, session (Admin.mark_time_out id now a).2 = session a) /\
  (forall id, session (Admin.delete_attendance id a).2 = session a).
Proof.
  repeat split; intros.
  - unfold Admin.delete_student. by destruct (Db.get_student _ _).
  - unfold Admin.permanently_delete_student. by destruct (Db.get_student _ _).
  - unfold Admin.update_attendance_status.
    destruct (negb (truthy_id id) || _); [done|].
    destruct (negb (bool_decide _)); [done|].
    destruct (Admin.get_attendance _ _) as [r|]; [|done].
    by destruct (Admin.student_of r (db a)).
  - unfold Admin.mark_student_status.
    destruct (negb (bool_decide _)); [done|].
    destruct (Db.get_student _ _); [|done].
    by destruct (Db.attendance_on _ _ _).
  - unfold Admin.mark_time_out.
    destruct (Admin.get_attendance _ _) as [r|]; [|done].
    by destruct (Db.a_time_out r).
  - unfold Admin.delete_attendance. by destruct (Admin.get_attendance _ _).
Qed.

(** The session of a request that is neither a start nor a stop. *)
Lemma store_request_session rq today now a :
  match rq with
  | Rq_start_detection | Rq_stop_detection _
  | Rq_start_face_recognition | Rq_stop_face_recognition _ _ => True
  | _ => session (handle secure_filename rq today now a) = session a
  end.
Proof.
  destruct (admin_session a) as (H1 & H2 & H3 & H4 & H5 & H6).
  destruct rq; unfold handle; try done.
  - apply register_student_session.
  - apply mark_present_session.
  - apply auto_mark_attendance_session.
Qed.

(** *** The flags, whatever the waits *)

Lemma start_detection_flags a : flags_agree a -> flags_agree (App.start_detection a).2.
Proof.
  intros Hf. pose proof Hf as (Hcam & Hdet). unfold App.start_detection.
  destruct (detection_active a) eqn:Hda; [done|].
  unfold SimpleCamera.start_camera, VideoCapture.
  destruct (device_present (process a)) eqn:Hpresent; simpl; (split; [|exact Hdet]).
  - done.
  - simpl. congruence.
Qed.

Lemma stop_detection_flags during a :
  flags_agree a -> flags_agree (App.stop_detection during a).2.
Proof.
  intros Hf. pose proof Hf as (Hcam & Hdet). unfold App.stop_detection.
  destruct (stop_camera_stopped during (simple_camera a) (process a)) as (w' & Hstop & _).
  rewrite Hstop. simpl. by split.
Qed.

Lemma start_face_recognition_flags a :
  flags_agree a -> flags_agree (App.start_face_recognition a).2.
Proof.
  intros Hf. pose proof Hf as (Hcam & Hdet). unfold App.start_face_recognition.
  destruct (FACE_RECOGNITION_AVAILABLE a) eqn:Hav; simpl; [|done].
  destruct (face_recognition_active a) eqn:Hfa; [done|].
  destruct (face_detector a) as [d|] eqn:Hd; [|done].
  destruct (students_data (db a)) as [|k ks]; [done|].
  pose proof (Hdet d eq_refl) as Hrun. simpl in Hrun.
  unfold FaceDetector.start_detection. simpl. rewrite Hrun.
  unfold VideoCapture. destruct (device_present (process a)) eqn:Hpresent; simpl;
    (split; [done|intros d' [= <-]; simpl; by rewrite ?Hrun, ?Hav, ?Hfa]).
Qed.

Lemma stop_face_recognition_flags s1 s2 a :
  flags_agree a -> flags_agree (App.stop_face_recognition s1 s2 a).2.
Proof.
  intros Hf. pose proof Hf as (Hcam & Hdet). unfold App.stop_face_recognition.
  destruct (face_detector a) as [d|] eqn:Hd.
  2:{ split; [done|]. simpl. by rewrite Hd. }
  destruct (FACE_RECOGNITION_AVAILABLE a) eqn:Hav.
  2:{ pose proof (Hdet d eq_refl) as Hrun. simpl in Hrun.
      split; [done|]. simpl. rewrite Hd, Hav. by intros d' [= <-]. }
  destruct (stop_detection_stopped s1 s2 d (process a)) as (w' & Hstop & _).
  rewrite Hstop. simpl.
  split; [done|]. intros d' [= <-]. simpl. by rewrite andb_false_r.
Qed.

Lemma act_flags x a : flags_agree a -> flags_agree (act secure_filename x a).
Proof.
  intros Hf. destruct x as [rq today now|r now tid|r tid]; simpl.
  - pose proof (store_request_session rq today now a) as Hs.
    destruct rq; try (by eapply flags_session; [exact Hs|]); unfold handle.
    + by apply start_detection_flags.
    + by apply stop_detection_flags.
    + by apply start_face_recognition_flags.
    + by apply stop_face_recognition_flags.
  - destruct (face_detector a) as [d|] eqn:Hd; [|done].
    pose proof (worker_step_wiring r now tid d (process a)) as Hwire.
    destruct (FaceDetector.worker_step r now tid d (process a)) as [d' w'].
    apply (flags_step a); try done. unfold same_detector. simpl. by rewrite Hd.
  - pose proof (camera_worker_step_wiring r tid (simple_camera a) (process a))
      as (_ & _ & _ & Hrun).
    destruct (SimpleCamera.worker_step r tid (simple_camera a) (process a)) as [s' w'].
    apply (flags_step a); try done. by apply same_detector_refl.
Qed.

Lemma play_flags xs : forall a, flags_agree a -> flags_agree (play secure_filename xs a).
Proof.
  induction xs as [|x xs IH]; intros a Hf; simpl; [done|].
  by apply IH, act_flags.
Qed.

(** *** The threads, when the waits are long enough *)

Lemma start_detection_wired a : wired a -> wired (App.start_detection a).2.
Proof.
  intros Hw. split; [apply start_detection_flags, Hw|].
  pose proof Hw as [[Hcam Hdet] Hlive]. unfold owned in Hlive.
  unfold App.start_detection. destruct (detection_active a) eqn:Hda; [exact (proj2 Hw)|].
  unfold SimpleCamera.start_camera, VideoCapture.
  destruct (device_present (process a)) eqn:Hpresent; simpl.
  - (* the camera opens: one worker is started *)
    intros tid tg p Hth Hp. simpl in Hth.
    apply lookup_app_Some in Hth as [Hold|[Hlen Hnew]].
    + destruct (Hlive tid tg p Hold Hp) as [Hfit Hown]. destruct tg; [by split..|].
      destruct Hown as [Hrun _]. congruence.
    + apply list_lookup_singleton_Some in Hnew as [Hz [= <- <-]].
      split; [done|]. split; [done|]. simpl. f_equal. lia.
  - (* it does not *)
    apply (owned_step a); try done.
    + by apply evolves_threads.
    + by apply same_detector_refl.
Qed.

Lemma stop_detection_wired during a :
  (2 <= length during)%nat -> wired a -> wired (App.stop_detection during a).2.
Proof.
  intros Hlen Hw. split; [apply stop_detection_flags, Hw|].
  pose proof Hw as [[Hcam Hdet] Hlive]. unfold owned in Hlive. unfold App.stop_detection.
  destruct (stop_camera_stopped during (simple_camera a) (process a))
    as (w' & Hstop & Hret).
  pose proof (camera_stop_evolves during (simple_camera a) (process a)) as Hev.
  rewrite Hstop in *. simpl in *.
  intros tid tg q Hq Hne. destruct (Hev tid tg q Hq Hne) as (p & Hp & Hpne & Hfits).
  destruct (Hlive tid tg p Hp Hpne) as [Hfit Hown]. split; [by apply Hfits|].
  destruct tg; [done..|].
  destruct Hown as [_ Hth].
  assert (camera_placed tid (process a)) as Hplaced.
  { intros ds Heq. rewrite Hp in Heq. by injection Heq as ->. }
  specialize (Hret Hlen tid Hth Hplaced).
  unfold camera_retired in Hret. simpl in Hq. by rewrite Hq in Hret.
Qed.

Lemma start_face_recognition_wired a :
  wired a -> wired (App.start_face_recognition a).2.
Proof.
  intros Hw. split; [apply start_face_recognition_flags, Hw|].
  pose proof Hw as [[Hcam Hdet] Hlive]. unfold owned in Hlive.
  unfold App.start_face_recognition.
  destruct (FACE_RECOGNITION_AVAILABLE a) eqn:Hav; simpl; [|exact (proj2 Hw)].
  destruct (face_recognition_active a) eqn:Hfa; [exact (proj2 Hw)|].
  destruct (face_detector a) as [d|] eqn:Hd; [|exact (proj2 Hw)].
  destruct (students_data (db a)) as [|k ks]; [exact (proj2 Hw)|].
  pose proof (Hdet d eq_refl) as Hrun. simpl in Hrun.
  assert (forall tid tg p,
            threads (process a) !! tid = Some (Worker tg p) -> p <> Finished ->
            tg = SimpleCamera_capture_frames) as Hquiet.
  { intros tid tg p Hth Hp. destruct (Hlive tid tg p Hth Hp) as [_ Hown].
    destruct tg; [| |done]; destruct Hown as (d0 & [= <-] & Hr & _); congruence. }
  unfold FaceDetector.start_detection. simpl. rewrite Hrun.
  unfold VideoCapture. destruct (device_present (process a)) eqn:Hpresent; simpl.
  - (* the camera opens: the pair of workers is started *)
    intros tid tg p Hth Hp. simpl in Hth.
    apply lookup_app_Some in Hth as [Hth|[Hlen Hth]].
    + apply lookup_app_Some in Hth as [Hold|[Hlen Hnew]].
      * pose proof (Hquiet tid tg p Hold Hp) as ->.
        exact (Hlive tid _ p Hold Hp).
      * apply list_lookup_singleton_Some in Hnew as [Hz [= <- <-]].
        split; [done|].
        eexists. split; [done|]. split; [done|]. simpl. f_equal. lia.
    + apply list_lookup_singleton_Some in Hth as [Hz [= <- <-]].
      rewrite length_app in *. simpl in *. split; [done|].
      eexists. split; [done|]. split; [done|]. simpl. f_equal. lia.
  - (* it does not *)
    intros tid tg p Hth Hp. pose proof (Hquiet tid tg p Hth Hp) as ->.
    exact (Hlive tid _ p Hth Hp).
Qed.

Lemma stop_face_recognition_wired s1 s2 a :
  (2 <= length s1)%nat -> (2 <= length s2)%nat ->
  wired a -> wired (App.stop_face_recognition s1 s2 a).2.
Proof.
  intros Hlen1 Hlen2 Hw. split; [apply stop_face_recognition_flags, Hw|].
  pose proof Hw as [[Hcam Hdet] Hlive]. unfold owned in Hlive.
  unfold App.stop_face_recognition.
  destruct (face_detector a) as [d|] eqn:Hd.
  2:{ intros tid tg p Hth Hp. destruct (Hlive tid tg p Hth Hp) as [Hfit Hown].
      split; [done|].
      destruct tg; simpl; try done; by destruct Hown as (d0 & [=] & _). }
  destruct (FACE_RECOGNITION_AVAILABLE a) eqn:Hav.
  2:{ pose proof (Hdet d eq_refl) as Hrun. simpl in Hrun.
      intros tid tg p Hth Hp. destruct (Hlive tid tg p Hth Hp) as [Hfit Hown].
      split; [done|].
      destruct tg; simpl; try done;
        destruct Hown as (d0 & [= <-] & Hr & _); congruence. }
  destruct (stop_detection_stopped s1 s2 d (process a)) as (w' & Hstop & Hret1 & Hret2).
  pose proof (detector_stop_evolves s1 s2 d (process a)) as Hev.
  rewrite Hstop in *. simpl in *.
  intros tid tg q Hq Hne. destruct (Hev tid tg q Hq Hne) as (p & Hp & Hpne & Hfits).
  destruct (Hlive tid tg p Hp Hpne) as [Hfit Hown]. split; [by apply Hfits|].
  destruct tg; [| |done].
  - destruct Hown as (d0 & [= <-] & _ & Hh).
    pose proof (Hret1 Hlen1 tid Hh) as Hr.
    unfold retired in Hr. simpl in Hq. rewrite Hq in Hr. by destruct Hr.
  - destruct Hown as (d0 & [= <-] & _ & Hh).
    pose proof (Hret2 Hlen2 tid Hh) as Hr.
    unfold retired in Hr. simpl in Hq. rewrite Hq in Hr. by destruct Hr.
Qed.

Lemma act_wired x a :
  patient_action x = true -> wired a -> wired (act secure_filename x a).
Proof.
  intros Hpatient Hw. destruct x as [rq today now|r now tid|r tid]; simpl.
  - pose proof (store_request_session rq today now a) as Hs.
    destruct rq; try (by eapply wired_session; [exact Hs|]); unfold handle;
      simpl in Hpatient.
    + by apply start_detection_wired.
    + apply stop_detection_wired; [|done]. by apply Nat.leb_le.
    + by apply start_face_recognition_wired.
    + apply andb_true_iff in Hpatient as [H1 H2].
      apply stop_face_recognition_wired; [by apply Nat.leb_le..|done].
  - split; [apply (act_flags (Act_detector_worker r now tid)), Hw|].
    destruct Hw as [_ Hlive].
    destruct (face_detector a) as [d|] eqn:Hd; [|done].
    pose proof (detector_worker_step_evolves r now tid d (process a)) as Hev.
    pose proof (worker_step_wiring r now tid d (process a)) as Hwire.
    destruct (FaceDetector.worker_step r now tid d (process a)) as [d' w'].
    apply (owned_step a); try done. unfold same_detector. simpl. by rewrite Hd.
  - split; [apply (act_flags (Act_camera_worker r tid)), Hw|].
    destruct Hw as [_ Hlive].
    pose proof (camera_worker_step_evolves r tid (simple_camera a) (process a)) as Hev.
    pose proof (camera_worker_step_wiring r tid (simple_camera a) (process a))
      as (_ & _ & Hth & Hrun).
    destruct (SimpleCamera.worker_step r tid (simple_camera a) (process a)) as [s' w'].
    apply (owned_step a); try done. by apply same_detector_refl.
Qed.

Lemma play_wired xs : forall a,
  patient xs = true -> wired a -> wired (play secure_filename xs a).
Proof.
  induction xs as [|x xs IH]; intros a Hp Hw; simpl; [done|].
  simpl in Hp. apply andb_true_iff in Hp as [Hx Hxs].
  by apply IH, act_wired.
Qed.

(** X14.  However requests and worker steps interleave, as long as
    every stop request waits until its workers have taken their two
    steps, no loop is ever run by two threads at once: of the threads
    started for the capture loop of the camera, at most one has not
    returned, and likewise for each of the two loops of the detector. *)
Theorem one_live_worker_per_loop xs a tid1 tid2 tg p1 p2 :
  wired a ->
  patient xs = true ->
  threads (process (play secure_filename xs a)) !! tid1 = Some (Worker tg p1) ->
  p1 <> Finished ->
  threads (process (play secure_filename xs a)) !! tid2 = Some (Worker tg p2) ->
  p2 <> Finished ->
  tid1 = tid2.
Proof.
  intros Hw Hpatient H1 Hp1 H2 Hp2.
  destruct (play_wired xs a Hpatient Hw) as (_ & Hlive).
  destruct (Hlive tid1 tg p1 H1 Hp1) as [_ L1].
  destruct (Hlive tid2 tg p2 H2 Hp2) as [_ L2].
  destruct tg.
  - destruct L1 as (d1 & Hd1 & _ & Hh1), L2 as (d2 & Hd2 & _ & Hh2).
    simpl in *. congruence.
  - destruct L1 as (d1 & Hd1 & _ & Hh1), L2 as (d2 & Hd2 & _ & Hh2).
    simpl in *. congruence.
  - destruct L1 as [_ Hh1], L2 as [_ Hh2]. congruence.
Qed.

(** X15.  However requests and worker steps interleave, and however
    long the stop requests wait, the session flags of the routes agree
    with the objects: [detection_active] is the camera's [running], and
    the detector's [is_running] is [face_recognition_active] (where the
    libraries are installed).  As long as every stop request waits
    until its workers have taken their two steps, a thread that has not
    returned belongs to a session that is on. *)
Theorem session_flags_agree_with_objects xs a :
  wired a ->
  let a' := play secure_filename xs a in
  detection_active a' = SimpleCamera.running (simple_camera a') /\
  (forall d, face_detector a' = Some d ->
     FaceDetector.is_running d
     = FACE_RECOGNITION_AVAILABLE a' && face_recognition_active a') /\
  (patient xs = true ->
   forall tid tg p,
     threads (process a') !! tid = Some (Worker tg p) -> p <> Finished ->
     if FaceDetector.owns tg then face_recognition_active a' = true
     else detection_active a' = true).
Proof.
  intros Hw a'. destruct (play_flags xs a (proj1 Hw)) as (Hcam & Hdet).
  fold a' in Hcam, Hdet.
  split; [done|]. split; [done|].
  intros Hpatient tid tg p Hth Hp.
  destruct (play_wired xs a Hpatient Hw) as (_ & Hlive). fold a' in Hlive.
  destruct (Hlive tid tg p Hth Hp) as [_ Hown].
  destruct tg; simpl.
  - destruct Hown as (d & Hd & Hr & _). rewrite (Hdet d Hd) in Hr.
    by apply andb_true_iff in Hr as [_ ?].
  - destruct Hown as (d & Hd & Hr & _). rewrite (Hdet d Hd) in Hr.
    by apply andb_true_iff in Hr as [_ ?].
  - destruct Hown as [Hr _]. congruence.
Qed.

End Sessions.

(** ** The video feed *)

Section FeedSpec.
Context `{Vision}.
Variable putText_cover_large : string -> Z * Z -> Z -> Z -> bool.
Variable imencode_jpg : frame -> option (list Byte.byte).
Import Feed.

(** The two texts of the overlay drawn on a frame: the time of day in
    green, then the status line in white. *)
Definition overlaid (now : datetime) (f : frame) : frame :=
  putText (paint (putText_cover_large (strftime_full now) (10, 30)) (0, 255, 0) f)
    "Camera Active - Manual Attendance Mode" (10, 60) (255, 255, 255).

Lemma shape_overlaid now f : shape (overlaid now f) = shape f.
Proof. unfold overlaid, putText. by rewrite !shape_paint. Qed.

Lemma fresh_array w l f : heap w !! l = Some f -> l <> fresh (dom (heap w)).
Proof.
  intros Hl ->. pose proof (is_fresh (dom (heap w))) as Hfresh.
  apply not_elem_of_dom in Hfresh. congruence.
Qed.

(** What the overlay does to the process, whatever the frame. *)
Lemma overlay_effect now s w :
  match stored (SimpleCamera.current_frame s) w with
  | Some f =>
      let l := fresh (dom (heap w)) in
      (get_frame_with_overlay putText_cover_large now s w).1 = Some l /\
      heap (get_frame_with_overlay putText_cover_large now s w).2
        = <[l := overlaid now f]> (heap w) /\
      threads (get_frame_with_overlay putText_cover_large now s w).2 = threads w
  | None => get_frame_with_overlay putText_cover_large now s w = (None, w)
  end.
Proof.
  unfold stored, get_frame_with_overlay, SimpleCamera.get_frame.
  destruct (SimpleCamera.current_frame s) as [l0|]; [|done].
  destruct (heap w !! l0) as [f|] eqn:Hl0; [|done].
  unfold alloc, FaceDetector.draw_putText, draw_putText_large. simpl.
  split; [done|]. split; [|done].
  apply map_eq. intros l'.
  destruct (decide (l' = fresh (dom (heap w)))) as [->|Hne].
  - by rewrite !lookup_alter_eq, !lookup_insert_eq.
  - by rewrite !lookup_alter_ne, !lookup_insert_ne.
Qed.

Lemma arrays_kept_insert_fresh w w' f :
  heap w' = <[fresh (dom (heap w)) := f]> (heap w) -> arrays_kept w w'.
Proof.
  intros Hh l g Hl. rewrite Hh, lookup_insert_ne; [done|].
  intros Heq. by apply (fresh_array w l g Hl).
Qed.

(** X16.  With a frame [f] stored at [l0], [get_frame_with_overlay]
    returns a new array, distinct from every array that existed: it
    holds [f] with the time of day and the status line drawn on it, in
    that order, and has the shape of [f].  Every array that existed, the
    stored frame among them, holds what it held before, and no thread
    is touched.  Without a stored frame the answer is [None] and
    nothing changes. *)
Theorem overlay_preserves_stored_frame now s w :
  match stored (SimpleCamera.current_frame s) w with
  | Some f =>
      exists l w',
        get_frame_with_overlay putText_cover_large now s w = (Some l, w') /\
        heap w !! l = None /\
        heap w' !! l = Some (overlaid now f) /\
        shape (overlaid now f) = shape f /\
        trace w' =
          Ev_putText l "Camera Active - Manual Attendance Mode" (10, 60) (255, 255, 255)
          :: Ev_putText l (strftime_full now) (10, 30) (0, 255, 0) :: trace w /\
        arrays_kept w w' /\ threads w' = threads w
  | None => get_frame_with_overlay putText_cover_large now s w = (None, w)
  end.
Proof.
  unfold stored, get_frame_with_overlay, SimpleCamera.get_frame.
  destruct (SimpleCamera.current_frame s) as [l0|]; [|done].
  destruct (heap w !! l0) as [f|] eqn:Hl0; [|done].
  unfold alloc. set (l := fresh (dom (heap w))).
  assert (heap w !! l = None) as Hfresh by (apply not_elem_of_dom, is_fresh).
  eexists l, _. split; [done|]. split; [done|].
  split; [|split; [apply shape_overlaid|split; [done|split; [|done]]]].
  - unfold FaceDetector.draw_putText, draw_putText_large. simpl.
    by rewrite !lookup_alter_eq, lookup_insert_eq.
  - intros l' g Hl'. unfold FaceDetector.draw_putText, draw_putText_large. simpl.
    assert (l' <> l) as Hne by congruence.
    by rewrite !lookup_alter_ne, lookup_insert_ne.
Qed.

End FeedSpec.

Section FeedTurn.
Context `{Vision}.
Variable putText_cover_large : string -> Z * Z -> Z -> Z -> bool.
Variable imencode_jpg : frame -> option (list Byte.byte).
Import Feed App.

Lemma annotations_effect d w :
  match stored (FaceDetector.current_frame d) w with
  | Some f =>
      let l := fresh (dom (heap w)) in
      (FaceDetector.get_current_frame_with_annotations d w).1 = Some l /\
      heap (FaceDetector.get_current_frame_with_annotations d w).2
        = <[l := foldl annotated f (FaceDetector.detected_faces d)]> (heap w) /\
      threads (FaceDetector.get_current_frame_with_annotations d w).2 = threads w
  | None => FaceDetector.get_current_frame_with_annotations d w = (None, w)
  end.
Proof.
  unfold stored, FaceDetector.get_current_frame_with_annotations.
  destruct (FaceDetector.current_frame d) as [l0|]; [|done].
  destruct (heap w !! l0) as [f|] eqn:Hl0; [|done].
  unfold alloc. simpl.
  destruct (annotate_faces_effect (fresh (dom (heap w))) (FaceDetector.detected_faces d)
              (set_heap (<[fresh (dom (heap w)) := f]> (heap w)) w) f)
    as (Hh & _ & Hth & _); [apply lookup_insert_eq|].
  split; [done|]. split; [|exact Hth].
  rewrite Hh. simpl. apply insert_insert_eq.
Qed.

(** The picture of the recognition session, if it has one to show. *)
Definition recognition_picture (a : App.t) : option frame :=
  match face_detector a with
  | Some d =>
      if face_recognition_active a && FACE_RECOGNITION_AVAILABLE a
      then (fun f => foldl annotated f (FaceDetector.detected_faces d))
             <$> stored (FaceDetector.current_frame d) (process a)
      else None
  | None => None
  end.

(** The picture of the plain camera session, if it has one to show. *)
Definition camera_picture (now : datetime) (a : App.t) : option frame :=
  if detection_active a && SimpleCamera.is_running (simple_camera a)
  then overlaid putText_cover_large now
         <$> stored (SimpleCamera.current_frame (simple_camera a)) (process a)
  else None.

(** The picture a turn of the feed shows: the annotated frame of the
    recognition session first, the overlaid frame of the camera
    otherwise. *)
Definition shown (now : datetime) (a : App.t) : option frame :=
  match recognition_picture a with
  | Some g => Some g
  | None => camera_picture now a
  end.

Lemma recognition_frame_effect a :
  let r := recognition_frame a (process a) in
  arrays_kept (process a) r.2 /\ threads r.2 = threads (process a) /\
  match recognition_picture a with
  | Some g => exists l, r.1 = Some l /\ heap r.2 !! l = Some g
  | None => r = (None, process a)
  end.
Proof.
  unfold recognition_frame, recognition_picture.
  destruct (face_detector a) as [d|]; [|by split; [apply arrays_kept_refl|]].
  destruct (face_recognition_active a && FACE_RECOGNITION_AVAILABLE a);
    [|by split; [apply arrays_kept_refl|]].
  pose proof (annotations_effect d (process a)) as Heff.
  destruct (stored (FaceDetector.current_frame d) (process a)) as [f|]; simpl in *.
  - destruct Heff as (Hl & Hh & Hth).
    split; [by eapply arrays_kept_insert_fresh|]. split; [done|].
    eexists. split; [done|]. rewrite Hh. apply lookup_insert_eq.
  - rewrite Heff. by split; [apply arrays_kept_refl|].
Qed.

Lemma camera_frame_effect now a :
  let r := camera_frame putText_cover_large now a None (process a) in
  arrays_kept (process a) r.2 /\ threads r.2 = threads (process a) /\
  match camera_picture now a with
  | Some g => exists l, r.1 = Some l /\ heap r.2 !! l = Some g
  | None => r = (None, process a)
  end.
Proof.
  unfold camera_frame, camera_picture.
  destruct (detection_active a && SimpleCamera.is_running (simple_camera a));
    [|by split; [apply arrays_kept_refl|]].
  pose proof (overlay_effect putText_cover_large now (simple_camera a) (process a))
    as Heff.
  destruct (stored (SimpleCamera.current_frame (simple_camera a)) (process a)) as [f|];
    simpl in *.
  - destruct Heff as (Hl & Hh & Hth).
    split; [by eapply arrays_kept_insert_fresh|]. split; [done|].
    eexists. split; [done|]. rewrite Hh. apply lookup_insert_eq.
  - rewrite Heff. by split; [apply arrays_kept_refl|].
Qed.

(** X17.  A turn of the video feed ends the stream exactly when neither
    session is on.  Otherwise it yields the JPEG encoding of the picture
    to show (the annotated frame of the recognition session when that
    session is on and holds a frame, else the overlaid frame of the
    camera, else nothing) and leaves the store, the files, the two
    objects, the session flags, the threads and every array that
    existed as they were. *)
Theorem video_feed_turn now a :
  match generate_frames_turn putText_cover_large imencode_jpg now a with
  | None => detection_active a = false /\ face_recognition_active a = false
  | Some (part, a') =>
      (detection_active a = true \/ face_recognition_active a = true) /\
      part = shown now a ≫= imencode_jpg /\
      db a' = db a /\ fs a' = fs a /\
      face_detector a' = face_detector a /\ simple_camera a' = simple_camera a /\
      detection_active a' = detection_active a /\
      face_recognition_active a' = face_recognition_active a /\
      arrays_kept (process a) (process a') /\
      threads (process a') = threads (process a)
  end.
Proof.
  unfold generate_frames_turn, shown.
  destruct (detection_active a) eqn:Hda, (face_recognition_active a) eqn:Hfa;
    simpl; try done.
  all: pose proof (recognition_frame_effect a) as (Hk1 & Hth1 & Hpic1);
    destruct (recognition_frame a (process a)) as [frame w1]; simpl in *.
  all: destruct (recognition_picture a) as [g|].
  all: try (destruct Hpic1 as (l & -> & Hg); simpl; rewrite Hg;
            repeat split; try done; auto).
  all: injection Hpic1 as -> ->;
    pose proof (camera_frame_effect now a) as (Hk2 & Hth2 & Hpic2);
    destruct (camera_frame putText_cover_large now a None (process a)) as [frame w2];
    simpl in *;
    destruct (camera_picture now a) as [g|];
    [destruct Hpic2 as (l & -> & Hg); simpl; rewrite Hg
    |injection Hpic2 as -> ->; simpl].
  all: repeat split; try done; auto.
Qed.

End FeedTurn.

(** ** Registration *)

Section RegistrationEffect.
Context `{Vision} `{Helpers.Disk}.
Variable secure_filename : string -> string.
Import App Db.

Definition form_email (rq : registration) : string :=
  default "" (Helpers.f_email (rq_data rq)).

(** The row a registration stores. *)
Definition new_student (rq : registration) (face_encoding : option encoding)
    (image_path : string) (id : Z) : Student :=
  MkStudent id (form_id rq) (default "" (Helpers.f_name (rq_data rq))) (form_email rq)
    (Helpers.f_phone (rq_data rq)) (Helpers.f_department (rq_data rq))
    (Helpers.f_year (rq_data rq)) (Helpers.f_section (rq_data rq))
    face_encoding (Some image_path) true.

(** The encoding stored with the row. *)
Definition enrolled_encoding (a : App.t) (file : Helpers.upload) : option encoding :=
  if FACE_RECOGNITION_AVAILABLE a then photo_encoding (Helpers.up_content file) else None.

(** The request passes every check of the route: those made before the
    photo is looked at (the writing of the photo among them), the photo
    yields an encoding where one is asked for, and the e-mail address is
    new. *)
Definition acceptable (rq : registration) (now : datetime) (a : App.t)
    (file : Helpers.upload) : Prop :=
  reaches_encoder secure_filename rq now a file /\
  (FACE_RECOGNITION_AVAILABLE a = true ->
   is_Some (photo_encoding (Helpers.up_content file))) /\
  form_email rq ∉ map s_email (all_students (db a)).

(** The two outcomes of a registration. *)
Lemma register_student_outcome rq now a :
  (exists file,
     acceptable rq now a file /\
     register_student secure_filename rq now a =
       (Redirect "students" [("Student registered successfully!", "success")],
        set_db (commit (add_student
                          (new_student rq (enrolled_encoding a file)
                             (photo_path secure_filename rq now a file)) (db a)))
          (set_fs (<[photo_path secure_filename rq now a file
                     := Helpers.up_content file]> (fs a)) a))) \/
  ((forall file, ~ acceptable rq now a file) /\
   (exists flashes,
      (register_student secure_filename rq now a).1
      = Render "register_student.html" flashes) /\
   db (register_student secure_filename rq now a).2 = db a).
Proof.
  unfold register_student.
  destruct (rq_is_get rq) eqn:Hget.
  { right. split; [|by eauto]. intros file ((Hf & _) & _). congruence. }
  destruct (Helpers.validate_student_data (rq_data rq)) as [|e errors] eqn:Hvalid.
  2:{ right. split; [|by eauto]. intros file ((_ & Hf & _) & _). congruence. }
  fold (form_id rq).
  destruct (student_by_student_id _ (db a)) eqn:Hsid.
  { right. split; [|by eauto]. intros file ((_ & _ & Hnone & _) & _). congruence. }
  destruct (rq_image rq) as [file|] eqn:Himg.
  2:{ right. split; [|by eauto]. intros file ((_ & _ & _ & Hf & _) & _). congruence. }
  case_bool_decide as Hname.
  { right. split; [|by eauto]. intros file' ((_ & _ & _ & Hf & Hne & _) & _).
    congruence. }
  destruct (Helpers.allowed_file (Helpers.up_filename file)) eqn:Hallowed.
  2:{ right. unfold Helpers.save_uploaded_file. rewrite Hallowed, andb_false_r.
      split; [|by eauto]. intros file' ((_ & _ & _ & Hf & _ & Hyes & _) & _).
      congruence. }
  rewrite (save_uploaded_file_allowed secure_filename file _ _ now (fs a) Hname Hallowed).
  fold (photo_path secure_filename rq now a file). cbv zeta.
  destruct (Helpers.writable (photo_path secure_filename rq now a file)) eqn:Hwrite.
  2:{ right. split; [|by eauto].
      intros file' ((_ & _ & _ & Hf & _ & _ & Hyes) & _).
      assert (file' = file) as -> by congruence. congruence. }
  simpl.
  rewrite (encode_face_from_saved _ _ (Helpers.up_content file))
    by apply lookup_insert_eq.
  destruct (FACE_RECOGNITION_AVAILABLE a) eqn:Hav; simpl.
  - destruct (photo_encoding (Helpers.up_content file)) as [e|] eqn:Henc; simpl.
    + fold (form_email rq). case_bool_decide as Hemail.
      * right. split; [|by eauto]. intros file' (_ & _ & Hnew). done.
      * left. exists file. split.
        { repeat split; try done; intros _; by rewrite Henc. }
        unfold enrolled_encoding. by rewrite Hav, Henc.
    + right. split; [|by eauto].
      intros file' ((_ & _ & _ & Hf & _) & Hface & _).
      assert (file' = file) as -> by congruence.
      rewrite Henc in Hface. by destruct (Hface Hav) as [? [=]].
  - fold (form_email rq). case_bool_decide as Hemail.
    + right. split; [|by eauto]. intros file' (_ & _ & Hnew). done.
    + left. exists file. split; [repeat split; try done; intros ?; congruence|].
      unfold enrolled_encoding. by rewrite Hav.
Qed.

(** X18.  A registration is answered by the redirect with "Student
    registered successfully!" exactly when it is a POST whose form
    validates (the id counted in characters), whose student id and
    e-mail address are new, whose photo has an allowed extension, can
    be written to its path under the images folder and (with face
    recognition available) yields an encoding.  It then writes the
    photo, appends one active student built from the form with that
    encoding and the path of the photo, leaves the attendance records
    alone and commits once.  Any other registration leaves the store as
    it was. *)
Theorem registration_accepted_exactly_when rq now a :
  let r := register_student secure_filename rq now a in
  (r.1 = Redirect "students" [("Student registered successfully!", "success")]
   <-> exists file, acceptable rq now a file) /\
  (forall file, acceptable rq now a file ->
     fs r.2 = <[photo_path secure_filename rq now a file
                := Helpers.up_content file]> (fs a) /\
     all_students (db r.2) =
       all_students (db a) ++
       [new_student rq (enrolled_encoding a file)
          (photo_path secure_filename rq now a file)
          (next_id (map s_id (all_students (db a))))] /\
     all_attendance (db r.2) = all_attendance (db a) /\
     commits (db r.2) = S (commits (db a))) /\
  ((forall file, ~ acceptable rq now a file) -> db r.2 = db a).
Proof.
  intros r. unfold r.
  destruct (register_student_outcome rq now a)
    as [(file & Hacc & ->)|(Hnot & (flashes & Hflash) & Hdb)].
  - split; [split; [by exists file|done]|]. split.
    + intros file' ((_ & _ & _ & Himg' & _) & _).
      destruct Hacc as ((_ & _ & _ & Himg & _) & _).
      assert (file' = file) as -> by congruence. simpl.
      split; [done|]. rewrite all_students_commit, all_attendance_commit.
      pose proof (rows_add_student
                    (new_student rq (enrolled_encoding a file)
                       (photo_path secure_filename rq now a file))
                    (db a)) as Hrows.
      split; [by apply rows_fst in Hrows|]. split; [by apply rows_snd in Hrows|done].
    + intros Hnot. by destruct (Hnot file).
  - split; [|split; [|done]].
    + rewrite Hflash. split; [done|]. intros [file Hacc]. by destruct (Hnot file).
    + intros file Hacc. by destruct (Hnot file).
Qed.

(** X19.  A registration that passes every check, the writing of the
    photo included, but repeats the e-mail address of a stored student
    is answered "Error registering student" with the store as it was,
    and the photo just uploaded stays on disk. *)
Theorem duplicate_email_leaves_photo_on_disk rq now a file :
  reaches_encoder secure_filename rq now a file ->
  (FACE_RECOGNITION_AVAILABLE a = true ->
   is_Some (photo_encoding (Helpers.up_content file))) ->
  form_email rq ∈ map s_email (all_students (db a)) ->
  register_student secure_filename rq now a =
    (Render "register_student.html" [("Error registering student", "error")],
     set_fs (<[photo_path secure_filename rq now a file
               := Helpers.up_content file]> (fs a)) a).
Proof.
  intros (Hget & Hvalid & Hsid & Himg & Hname & Hallowed & Hwrite) Hface Hemail.
  unfold register_student. rewrite Hget, Hvalid. fold (form_id rq).
  rewrite Hsid, Himg.
  rewrite bool_decide_eq_false_2 by done.
  rewrite (save_uploaded_file_allowed secure_filename file _ _ now (fs a) Hname Hallowed).
  fold (photo_path secure_filename rq now a file). cbv zeta. rewrite Hwrite. simpl.
  rewrite (encode_face_from_saved _ _ (Helpers.up_content file))
    by apply lookup_insert_eq.
  fold (form_email rq). rewrite (bool_decide_eq_true_2 _ Hemail).
  destruct (FACE_RECOGNITION_AVAILABLE a); simpl; [|done].
  destruct (Hface eq_refl) as [e ->]. done.
Qed.

End RegistrationEffect.

(** ** From the store to the matcher *)

Section Enrolment.
Context `{Vision} `{Helpers.Disk}.
Variable secure_filename : string -> string.
Import App Db.

(** The known face built from a row that has an encoding. *)
Definition known_face_of (st : Student) : FaceDetector.known_face :=
  FaceDetector.Known (s_id st) (s_name st) (s_student_id st) (s_face_encoding st).

Lemma students_data_list rows_ :
  omap (fun student =>
          match get_face_encoding student with
          | Some face_encoding =>
              Some (FaceDetector.Known (s_id student) (s_name student)
                      (s_student_id student) (Some face_encoding))
          | None => None
          end)
       (filter (fun s => s_is_active s = true) rows_) =
  map known_face_of
    (filter (fun s => s_is_active s = true /\ is_Some (s_face_encoding s)) rows_).
Proof.
  set (f := fun student : Student => _).
  assert (forall st l, omap f (st :: l)
                       = match f st with Some k => k :: omap f l | None => omap f l end)
    as Hcons by done.
  induction rows_ as [|st rows_ IH]; [done|].
  rewrite !filter_cons.
  destruct (decide (s_is_active st = true)) as [Hact|Hact].
  - rewrite Hcons, IH. unfold f, get_face_encoding, known_face_of.
    destruct (s_face_encoding st) as [e|] eqn:Henc.
    + rewrite decide_True by (split; [done|by eexists]). simpl. by rewrite Henc.
    + rewrite decide_False; [done|]. by intros [_ [? [=]]].
  - rewrite decide_False by (by intros [? _]). exact IH.
Qed.

Lemma students_data_rows x :
  students_data x =
  map known_face_of
    (filter (fun s => s_is_active s = true /\ is_Some (s_face_encoding s))
       (all_students x)).
Proof. apply students_data_list. Qed.

Lemma load_known_faces_list data d :
  FaceDetector.known_faces (FaceDetector.load_known_faces data d) = data.
Proof.
  unfold FaceDetector.load_known_faces. simpl.
  induction data as [|[i n s e] data IH]; simpl; [done|]. by rewrite IH.
Qed.

Lemma start_detection_known_faces d w :
  FaceDetector.known_faces (FaceDetector.start_detection d w).1.2
  = FaceDetector.known_faces d.
Proof.
  unfold FaceDetector.start_detection. destruct (FaceDetector.is_running d); [done|].
  unfold VideoCapture. simpl. by destruct (device_present w).
Qed.

(** X20.  The faces a recognition session matches against are the
    store's active students that have an encoding, in table order, each
    with its key, name, student id and encoding, as they are when the
    session starts:
    - a start answered with success leaves a running detector holding
      exactly that list, says how many there are, and leaves the store
      alone;
    - with the libraries installed, no session on and a detector
      present, an empty list is refused and nothing at all changes (the
      camera is not opened);
    - a registration that passes every check of the route (the photo
      written to disk among them) and whose photo yields an encoding
      extends the list by that student, at the end. *)
Theorem recognition_session_loads_enrolled_faces a :
  (forall x,
     students_data x =
     map known_face_of
       (filter (fun s => s_is_active s = true /\ is_Some (s_face_encoding s))
          (all_students x))) /\
  (forall msg a1,
     start_face_recognition a = (Json true msg, a1) ->
     exists d1,
       face_detector a1 = Some d1 /\
       FaceDetector.known_faces d1 = students_data (db a) /\
       FaceDetector.is_running d1 = true /\
       students_data (db a) <> [] /\
       msg = "Face recognition started with " +:+
             pretty (length (students_data (db a))) +:+ " known faces" /\
       db a1 = db a) /\
  (FACE_RECOGNITION_AVAILABLE a = true -> face_recognition_active a = false ->
   is_Some (face_detector a) -> students_data (db a) = [] ->
   start_face_recognition a =
     (Json false "No students with face encodings found. Please register students first.",
      a)) /\
  (forall rq now file e,
     acceptable secure_filename rq now a file -> enrolled_encoding a file = Some e ->
     students_data (db (register_student secure_filename rq now a).2) =
     students_data (db a) ++
     [FaceDetector.Known (next_id (map s_id (all_students (db a)))) 
        (default "" (Helpers.f_name (rq_data rq))) (form_id rq) (Some e)]).
Proof.
  split; [exact students_data_rows|]. split; [|split].
  - intros msg a1. unfold start_face_recognition.
    destruct (FACE_RECOGNITION_AVAILABLE a); simpl; [|discriminate].
    destruct (face_recognition_active a); [discriminate|].
    destruct (face_detector a) as [d|]; [|discriminate].
    destruct (students_data (db a)) as [|k ks] eqn:Hdata; [discriminate|].
    pose proof (start_detection_known_faces
                  (FaceDetector.load_known_faces (k :: ks) d) (process a)) as Hknown.
    rewrite load_known_faces_list in Hknown.
    destruct (FaceDetector.start_detection _ _) as [[[] d1] w1] eqn:Hstart;
      [|discriminate].
    intros [= <- <-]. exists d1. simpl in *.
    split; [done|]. split; [done|].
    split; [by eapply start_detection_true|]. done.
  - intros Hav Hfa [d Hd] Hdata. unfold start_face_recognition.
    by rewrite Hav, Hfa, Hd, Hdata.
  - intros rq now file e Hacc Henc.
    destruct (register_student_outcome secure_filename rq now a)
      as [(file' & Hacc' & ->)|(Hnot & _)]; [|by destruct (Hnot file)].
    assert (file' = file) as ->.
    { destruct Hacc as ((_ & _ & _ & Hf & _) & _), Hacc' as ((_ & _ & _ & Hf' & _) & _).
      congruence. }
    simpl. rewrite !students_data_rows, all_students_commit.
    pose proof (rows_add_student
                  (new_student rq (enrolled_encoding a file)
                     (photo_path secure_filename rq now a file)) (db a)) as Hrows.
    apply rows_fst in Hrows. rewrite Hrows, filter_app, map_app. f_equal.
    rewrite filter_cons, filter_nil, decide_True.
    + unfold known_face_of. simpl. by rewrite Henc.
    + simpl. split; [done|]. rewrite Henc. by eexists.
Qed.

End Enrolment.

(** ** The plain camera after a failed read *)

(** The frames read before the first read that fails. *)
Fixpoint served (reads : list read_result) : list frame :=
  match reads with
  | Read_ok f :: reads' => f :: served reads'
  | _ => []
  end.

(** Every read of the run succeeded. *)
Definition all_served (reads : list read_result) : bool :=
  forallb (fun r => match r with Read_ok _ => true | _ => false end) reads.

Lemma camera_capture_frames_cons r reads tid s w :
  SimpleCamera.capture_frames (r :: reads) tid s w =
  let '(s', w') := SimpleCamera.capture_frames [r] tid s w in
  SimpleCamera.capture_frames reads tid s' w'.
Proof.
  simpl. destruct (SimpleCamera.worker_step r tid s w) as [s1 w1].
  by destruct (SimpleCamera.worker_step r tid s1 w1) as [s2 w2].
Qed.

Lemma camera_capture_turn r tid s w :
  stands_at SimpleCamera_capture_frames At_head tid w ->
  SimpleCamera.is_running s = true ->
  exists s' w',
    SimpleCamera.capture_frames [r] tid s w = (s', w') /\
    arrays_kept w w' /\
    SimpleCamera.is_running s' = true /\
    match r with
    | Read_ok f =>
        stands_at SimpleCamera_capture_frames At_head tid w' /\
        stored (SimpleCamera.current_frame s') w' = Some f
    | _ =>
        stands_at SimpleCamera_capture_frames Finished tid w' /\
        s' = s /\ heap w' = heap w
    end.
Proof.
  intros Hat Hrun. unfold SimpleCamera.capture_frames.
  assert (SimpleCamera.worker_step r tid s w = (s, set_pc tid (Got_read r) w)) as ->.
  { unfold SimpleCamera.worker_step. rewrite Hat.
    unfold SimpleCamera.enter_iteration. by rewrite Hrun. }
  pose proof (threads_set_pc tid (Got_read r) w _ _ Hat) as Hat1.
  unfold SimpleCamera.worker_step. rewrite Hat1.
  destruct r as [f| |]; simpl.
  - eexists _, _. split; [done|]. split; [apply (arrays_kept_alloc f)|].
    split; [exact Hrun|].
    split; [eapply threads_set_pc; simpl; exact Hat1|apply lookup_insert_eq].
  - eexists _, _. split; [done|]. split; [by apply arrays_kept_heap|].
    split; [done|]. split; [eapply threads_set_pc; simpl; exact Hat1|done].
  - eexists _, _. split; [done|]. split; [by apply arrays_kept_heap|].
    split; [done|]. split; [eapply threads_set_pc; simpl; exact Hat1|done].
Qed.

Lemma camera_capture_finished reads : forall tid s w,
  stands_at SimpleCamera_capture_frames Finished tid w ->
  SimpleCamera.capture_frames reads tid s w = (s, w).
Proof.
  induction reads as [|r reads IH]; intros tid s w Hat; [done|].
  simpl. unfold SimpleCamera.worker_step. rewrite Hat. simpl. rewrite Hat. simpl.
  by apply IH.
Qed.

(** X21.  The capture loop of the plain camera, run against any
    sequence of reads, keeps the frame of the last read before the first
    one that fails (the frame held before, if the first read fails).
    If every read succeeds the worker is back at the head of its loop.
    Otherwise the worker has returned, and the camera still reports
    itself running and still hands out that frame: the picture is
    frozen.  Arrays that existed are unchanged. *)
Theorem camera_keeps_last_frame_before_failure reads : forall tid s w,
  stands_at SimpleCamera_capture_frames At_head tid w ->
  SimpleCamera.is_running s = true ->
  exists s' w',
    SimpleCamera.capture_frames reads tid s w = (s', w') /\
    stored (SimpleCamera.current_frame s') w' =
      match last (served reads) with
      | Some f => Some f
      | None => stored (SimpleCamera.current_frame s) w
      end /\
    arrays_kept w w' /\
    SimpleCamera.is_running s' = true /\
    stands_at SimpleCamera_capture_frames
      (if all_served reads then At_head else Finished) tid w'.
Proof.
  induction reads as [|r reads IH]; intros tid s w Hat Hrun.
  - exists s, w. split; [done|]. split; [done|]. split; [apply arrays_kept_refl|done].
  - destruct (camera_capture_turn r tid s w Hat Hrun)
      as (s1 & w1 & Hstep & Hk1 & Hrun1 & Hr).
    rewrite camera_capture_frames_cons, Hstep.
    destruct r as [f| |].
    + destruct Hr as [Hat1 Hs1].
      destruct (IH tid s1 w1 Hat1 Hrun1) as (s2 & w2 & Hloop & Hs2 & Hk2 & Hrun2 & Hat2).
      exists s2, w2. split; [done|]. split; [|split; [|split]]; try done.
      * rewrite Hs2, Hs1. simpl served. rewrite last_cons_default.
        by destruct (last (served reads)).
      * by eapply arrays_kept_trans.
    + destruct Hr as (Hat1 & -> & Hh).
      rewrite (camera_capture_finished reads tid s w1 Hat1).
      exists s, w1. split; [done|]. split; [|done].
      simpl. unfold stored. by rewrite Hh.
    + destruct Hr as (Hat1 & -> & Hh).
      rewrite (camera_capture_finished reads tid s w1 Hat1).
      exists s, w1. split; [done|]. split; [|done].
      simpl. unfold stored. by rewrite Hh.
Qed.

(** ** The helpers *)

Section HelpersSpec.
Import Helpers.

(** Microseconds since midnight. *)
Definition microsecond_of_day (t : datetime) : Z :=
  ((dt_hour t * 60 + dt_minute t) * 60 + dt_second t) * 1000000 + dt_microsecond t.

(** The fields of a [datetime] are in their ranges. *)
Definition time_in_range (t : datetime) : Prop :=
  0 <= dt_hour t < 24 /\ 0 <= dt_minute t < 60 /\ 0 <= dt_second t < 60 /\
  0 <= dt_microsecond t < 1000000.

(** X22.  [get_attendance_status] depends on the time of day alone:
    'Present' up to 09:00:00 sharp, 'Late' after that up to 09:15:00
    sharp, 'Absent' later, and 'Absent' without a time. *)
Theorem attendance_status_by_time_of_day t :
  time_in_range t ->
  get_attendance_status None = "Absent" /\
  get_attendance_status (Some t) =
    if microsecond_of_day t <=? 32400000000 then "Present"
    else if microsecond_of_day t <=? 33300000000 then "Late"
    else "Absent".
Proof.
  intros (Hh & Hm & Hs & Hu). split; [done|].
  unfold get_attendance_status, datetime_leb, datetime_key, microsecond_of_day.
  destruct t as [day h m s u]. simpl in *.
  rewrite !Z.ltb_irrefl, !Z.eqb_refl. simpl.
  repeat match goal with
         | |- context [?x <? ?y] => destruct (Z.ltb_spec x y)
         | |- context [?x =? ?y] => destruct (Z.eqb_spec x y)
         | |- context [?x <=? ?y] => destruct (Z.leb_spec x y)
         end; simpl; try done; lia.
Qed.

Lemma contains_app c s1 s2 :
  contains c (s1 +:+ s2) = contains c s1 || contains c s2.
Proof.
  induction s1 as [|c1 s1 IH]; simpl; [done|]. rewrite IH. by rewrite orb_assoc.
Qed.

Lemma after_last_dot_no_dot s current :
  contains "."%char s = false -> after_last_dot s current = current.
Proof.
  revert current. induction s as [|c s IH]; intros current; simpl; [done|].
  intros [Hc Hs]%orb_false_iff. rewrite bool_decide_eq_false in Hc.
  rewrite bool_decide_eq_false_2 by congruence. by apply IH.
Qed.

Lemma after_last_dot_app stem ext current :
  contains "."%char ext = false ->
  after_last_dot (stem +:+ "." +:+ ext) current = ext.
Proof.
  intros Hext. revert current. induction stem as [|c stem IH]; intros current; simpl.
  - by apply after_last_dot_no_dot.
  - destruct (bool_decide (c = "."%char)); apply IH.
Qed.

(** X23.  [allowed_file] looks at the text after the last dot only, and
    without regard to case: a name [stem.ext] whose [ext] has no dot is
    allowed exactly when [ext], in lower case, is one of png, jpg, jpeg
    and gif; a name without a dot is never allowed. *)
Theorem allowed_file_looks_at_last_extension :
  (forall stem ext,
     contains "."%char ext = false ->
     allowed_file (stem +:+ "." +:+ ext)
     = bool_decide (lower ext ∈ ["png"; "jpg"; "jpeg"; "gif"])) /\
  (forall name, contains "."%char name = false -> allowed_file name = false).
Proof.
  split.
  - intros stem ext Hext. unfold allowed_file.
    rewrite after_last_dot_app by done.
    rewrite contains_app. simpl. by rewrite orb_true_r.
  - intros name Hname. unfold allowed_file. by rewrite Hname.
Qed.

End HelpersSpec.

Section TimeOut.
Import Db Admin App.

(** X24.  A time out is written once: after a request of
    [mark_time_out] answered 200, the record carries that time with
    its other columns as they were, and the next such request for the
    record is answered 400, "Time out already marked for this record",
    and changes nothing. *)
Theorem time_out_is_marked_once id now1 now2 a :
  code (mark_time_out id now1 a).1 = 200 ->
  let a1 := (mark_time_out id now1 a).2 in
  (exists r, get_attendance id (db a) = Some r /\ a_time_out r = None /\
             get_attendance id (db a1) = Some (with_time_out now1 r)) /\
  mark_time_out id now2 a1 =
    (Reply 400 false "Time out already marked for this record" None, a1).
Proof.
  unfold mark_time_out at 1 2.
  destruct (get_attendance id (db a)) as [r|] eqn:Hget; [|done].
  destruct (a_time_out r) eqn:Hout; [done|]. simpl. intros _.
  assert (get_attendance id
            (commit (update_attendance id (with_time_out now1) (db a)))
          = Some (with_time_out now1 r)) as Hget1.
  { unfold get_attendance in *. rewrite all_attendance_commit.
    pose proof (rows_update_attendance id (with_time_out now1) (db a)) as Hrows.
    apply rows_snd in Hrows. rewrite Hrows, find_on_key by done. rewrite Hget. simpl.
    unfold on_key. apply find_elem_of in Hget as [_ Hid].
    by rewrite Hid. }
  split; [by exists r|].
  unfold mark_time_out. simpl. by rewrite Hget1.
Qed.

End TimeOut.

(* ===================================================================== *)
(** * Part V. Part IV at work on sample data                              *)
(* ===================================================================== *)

(** ** The detection loop *)

(** A session with a portrait stored and both workers at the head of
    their loops. *)
Definition looking_detector : FaceDetector.t :=
  FaceDetector.Make 0 (Some (Capture true [])) true (Some 1%positive) []
    [bob; ann] (Some 0%nat) (Some 1%nat).

Definition looking_world : world :=
  World {[ 1%positive := portrait ]}
        [Worker FaceDetector_capture_frames At_head;
         Worker FaceDetector_detect_faces At_head]
        true [].

Definition three_of_ann : list detection :=
  [Detection (Some 1) "Ann" lit_0_9 (0, 0, 1, 1) sample_now;
   Detection (Some 1) "Ann" lit_0_9 (0, 0, 2, 1) sample_now;
   Detection (Some 1) "Ann" lit_0_9 (0, 0, 1, 2) sample_now].

Lemma detection_turn_replaces_list_witness :
  stands_at FaceDetector_detect_faces At_head 1 looking_world /\
  exists w1 w2,
    @FaceDetector.worker_step sample_vision Read_fail sample_now 1
      looking_detector looking_world = (looking_detector, w1) /\
    @FaceDetector.worker_step sample_vision Read_fail later 1 looking_detector w1
      = (FaceDetector.set_detected_faces three_of_ann looking_detector, w2) /\
    trace w2 = [Ev_sleep 200].
Proof.
  split; [reflexivity|].
  assert (@FaceDetector.detect_cycle sample_vision
            (FaceDetector.known_faces looking_detector) portrait sample_now
          = Some three_of_ann) as Hcycle by (vm_compute; reflexivity).
  destruct (@detection_turn_replaces_list sample_vision Read_fail Read_fail sample_now
              later 1%nat looking_detector looking_world 1%positive portrait
              three_of_ann eq_refl eq_refl eq_refl eq_refl Hcycle)
    as (w1 & w2 & H1 & H2 & _ & _ & _ & _ & Htrace).
  exists w1, w2. split; [exact H1|]. split; [exact H2|exact Htrace].
Defined.

Lemma detection_turn_failure_keeps_list_witness :
  stands_at FaceDetector_detect_faces At_head 1 started.2 /\
  FaceDetector.is_running started.1.2 = true /\
  @FaceDetector.worker_step sample_vision Read_fail sample_now 1 started.1.2 started.2
    = (started.1.2, emit (Ev_sleep 100) started.2).
Proof.
  split; [reflexivity|]. split; [reflexivity|].
  apply (proj1 (@detection_turn_failure_keeps_list sample_vision Read_fail sample_now
                  1%nat started.1.2 started.2 eq_refl eq_refl)).
  reflexivity.
Defined.

Lemma published_detections_meet_auto_mark_test_witness :
  @FaceDetector.detect_cycle sample_vision [bob; ann] portrait sample_now
    = Some three_of_ann /\
  ((exists k, k ∈ [bob; ann] /\ det_student_id ann_face = Some (FaceDetector.kf_id k) /\
              det_name ann_face = FaceDetector.kf_name k /\
              IEEE.isnan (det_confidence ann_face) = false /\
              IEEE.gt (det_confidence ann_face) IEEE.lit_0_3 = true) \/
   (det_student_id ann_face = None /\ det_name ann_face = "Unknown" /\
    det_confidence ann_face = IEEE.zero /\
    forall today now' acc, App.auto_mark_face today now' acc ann_face = acc)).
Proof.
  assert (@FaceDetector.detect_cycle sample_vision [bob; ann] portrait sample_now
          = Some three_of_ann) as Hcycle by (vm_compute; reflexivity).
  split; [exact Hcycle|].
  apply (@published_detections_meet_auto_mark_test sample_vision [bob; ann] portrait
           sample_now three_of_ann Hcycle ann_face).
  apply elem_of_cons. left. reflexivity.
Defined.

Lemma worker_step_writes_its_own_slot_witness :
  threads busy_world !! 0%nat
    = Some (Worker FaceDetector_capture_frames (Got_read (Read_ok wall))) /\
  placed (Worker FaceDetector_capture_frames (Got_read (Read_ok wall))) /\
  same_wiring busy_detector
    (@FaceDetector.worker_step sample_vision Read_fail sample_now 0
       busy_detector busy_world).1 /\
  FaceDetector.detected_faces
    (@FaceDetector.worker_step sample_vision Read_fail sample_now 0
       busy_detector busy_world).1 = [ann_face].
Proof.
  split; [reflexivity|]. split; [exact I|].
  destruct (@worker_step_writes_its_own_slot sample_vision Read_fail sample_now 0%nat
              busy_detector busy_world
              (Worker FaceDetector_capture_frames (Got_read (Read_ok wall)))
              eq_refl I)
    as (Hwiring & _ & Hfaces & _).
  split; [exact Hwiring|]. exact (Hfaces eq_refl).
Defined.

Lemma detector_holds_latest_frame_witness :
  stands_at FaceDetector_capture_frames At_head 0 started.2 /\
  exists d' w',
    @FaceDetector.capture_frames sample_vision [Read_ok portrait; Read_ok wall; Read_fail]
      sample_now 0 started.1.2 started.2 = (d', w') /\
    stored (FaceDetector.current_frame d') w' = Some wall.
Proof.
  split; [reflexivity|].
  assert (is_Some (FaceDetector.cap started.1.2)) as Hcap by (eexists; reflexivity).
  destruct (@detector_holds_latest_frame sample_vision
              [Read_ok portrait; Read_ok wall; Read_fail]
              sample_now 0%nat started.1.2 started.2 eq_refl eq_refl Hcap)
    as (d' & w' & Hrun & Hstored & _).
  exists d', w'. split; [exact Hrun|exact Hstored].
Defined.

(** ** The store under a run of requests *)

(** Ann is marked by hand, Zed registers, Ann's record is set to
    'Late', Bob is soft-deleted and then marked from a detection, the
    camera is started, Ann is removed for good, and a status that does
    not exist is refused. *)
Definition sample_requests : list (request * date * datetime) :=
  [(Rq_mark (App.Manual (Some "S001")), sample_day, sample_now);
   (Rq_register (App.Registration false zed_form (Some face_upload)), sample_day, sample_now);
   (Rq_update_attendance_status (Some 1) (Some "Late"), sample_day, later);
   (Rq_delete_student 2, sample_day, later);
   (Rq_mark (App.Detected (Some 2) None), sample_day, later);
   (Rq_start_detection, sample_day, later);
   (Rq_mark_time_out 2, sample_day, later);
   (Rq_permanently_delete_student 1, sample_day, later);
   (Rq_mark_student_status 2 "Sick", sample_day, later)].

Definition after_requests : App.t :=
  @run sample_vision sample_disk same_name sample_requests sample_app.

Example after_requests_store :
  map Db.s_student_id (Db.all_students (App.db after_requests)) = ["S002"; "S009"] /\
  map Db.s_is_active (Db.all_students (App.db after_requests)) = [false; true] /\
  map (fun r => (Db.a_id r, Db.a_student_id r, Db.a_status r, Db.a_time_out r))
      (Db.all_attendance (App.db after_requests))
    = [(2, 2, "Present", Some later)] /\
  App.detection_active after_requests = true.
Proof. vm_compute. repeat split. Qed.

Lemma sample_db_keyed : keyed sample_db.
Proof.
  unfold keyed. simpl. repeat split; repeat (apply NoDup_cons; split);
    try apply NoDup_nil_2; rewrite ?elem_of_cons, ?elem_of_nil;
    intros H; repeat destruct H as [H|H]; done.
Qed.

Lemma requests_keep_one_record_per_day_witness :
  unique_per_day (App.db sample_app) /\ unique_per_day (App.db after_requests).
Proof.
  assert (unique_per_day (App.db sample_app)) as Huniq.
  { intros sid day. simpl. lia. }
  split; [exact Huniq|].
  exact (@requests_keep_one_record_per_day sample_vision sample_disk same_name sample_requests
           sample_app Huniq).
Defined.

Lemma requests_keep_records_linked_witness :
  linked (App.db sample_app) /\ linked (App.db after_requests).
Proof.
  assert (linked (App.db sample_app)) as Hlinked.
  { intros r Hr. simpl in Hr. by apply elem_of_nil in Hr. }
  split; [exact Hlinked|].
  exact (@requests_keep_records_linked sample_vision sample_disk same_name sample_requests
           sample_app Hlinked).
Defined.

Lemma requests_keep_statuses_valid_witness :
  statuses_valid (App.db sample_app) /\ statuses_valid (App.db after_requests).
Proof.
  assert (statuses_valid (App.db sample_app)) as Hvalid.
  { intros r Hr. simpl in Hr. by apply elem_of_nil in Hr. }
  split; [exact Hvalid|].
  exact (@requests_keep_statuses_valid sample_vision sample_disk same_name sample_requests
           sample_app Hvalid).
Defined.

Lemma requests_keep_keys_unique_witness :
  keyed (App.db sample_app) /\ keyed (App.db after_requests).
Proof.
  split; [exact sample_db_keyed|].
  exact (@requests_keep_keys_unique sample_vision sample_disk same_name sample_requests
           sample_app sample_db_keyed).
Defined.

(** ** The administrative routes *)

Example quick_mark_without_record :
  Admin.mark_student_status 1 "Absent" sample_day sample_app
  = (Admin.Reply 500 false "Error marking status: " None, sample_app).
Proof. reflexivity. Qed.

Example quick_mark_with_record :
  let a := (App.mark_manual_attendance (Some "S001") sample_day sample_now sample_app).2 in
  let '(r, a1) := Admin.mark_student_status 1 "Excused" sample_day a in
  r = Admin.Reply 200 true "Updated Ann status to Excused"
        (Some ("Updated Ann status to Excused", "success")) /\
  map Db.a_status (Db.all_attendance (App.db a1)) = ["Excused"].
Proof. vm_compute. repeat split. Qed.

Example update_status_refusals :
  (Admin.update_attendance_status None (Some "Late") sample_app).1
    = Admin.Reply 400 false "Record ID and status are required" None /\
  (Admin.update_attendance_status (Some 1) (Some "Sick") sample_app).1
    = Admin.Reply 400 false
        "Invalid status. Must be one of: Present, Absent, Late, Excused" None /\
  (Admin.update_attendance_status (Some 1) (Some "Late") sample_app).1
    = Admin.Reply 500 false "Error updating status: " None.
Proof. repeat split. Qed.

Lemma soft_deleted_student_still_marked_by_detection_witness :
  Db.get_student 2 (App.db sample_app) = Some bob_row /\
  App.mark_manual_attendance (Some "S002") sample_day later
    (Admin.delete_student 2 sample_app).2
  = (App.Redirect "mark_attendance" [("Student with ID S002 not found", "error")],
     (Admin.delete_student 2 sample_app).2) /\
  is_Some (Db.attendance_on 2 sample_day
             (App.db (App.mark_student_present (Some 2) None sample_day later
                        (Admin.delete_student 2 sample_app).2).2)).
Proof.
  split; [reflexivity|].
  assert (Db.s_student_id bob_row <> "") as Hsid by discriminate.
  assert ((2 : Z) <> 0) as Hid by discriminate.
  destruct (soft_deleted_student_still_marked_by_detection 2 sample_app bob_row
              sample_day later None eq_refl
              (proj1 (proj2 (proj2 sample_db_keyed))) Hsid Hid eq_refl)
    as (Hmanual & _ & _ & Hdetected).
  split; [exact Hmanual|exact Hdetected].
Defined.

(** Ann marked by hand on the sample day. *)
Definition ann_marked : App.t :=
  (App.mark_manual_attendance (Some "S001") sample_day sample_now sample_app).2.

Definition ann_record : Db.AttendanceRecord :=
  Db.MkAttendance 1 1 sample_day sample_now None "Present" (Some IEEE.lit_1_0).

Lemma deleted_record_can_be_marked_again_witness :
  unique_per_day (App.db ann_marked) /\
  Db.attendance_on 1 sample_day (App.db ann_marked) = Some ann_record /\
  App.mark_present (App.Manual (Some "S001")) sample_day later ann_marked
    = (App.Redirect "mark_attendance" [("Ann already marked present today", "warning")],
       ann_marked) /\
  length (Db.records_of 1 sample_day
            (App.db (App.mark_present (App.Manual (Some "S001")) sample_day later
                       (Admin.delete_attendance 1 ann_marked).2).2)) = 1%nat.
Proof.
  assert (unique_per_day (App.db ann_marked)) as Huniq.
  { apply (mark_present_unique (App.Manual (Some "S001"))).
    intros sid day. simpl. lia. }
  split; [exact Huniq|]. split; [reflexivity|].
  destruct (deleted_record_can_be_marked_again (App.Manual (Some "S001")) sample_day
              later ann_marked ann_row ann_record Huniq eq_refl eq_refl)
    as (Hbefore & _ & _ & Hafter).
  split; [exact Hbefore|exact Hafter].
Defined.

Lemma permanent_delete_leaves_no_trace_witness :
  Db.get_student 1 (App.db sample_app) = Some ann_row /\
  keyed (App.db sample_app) /\
  Db.get_student 1 (App.db (Admin.permanently_delete_student 1 sample_app).2) = None /\
  Db.student_by_student_id "S001"
    (App.db (Admin.permanently_delete_student 1 sample_app).2) = None.
Proof.
  split; [reflexivity|]. split; [exact sample_db_keyed|].
  destruct (permanent_delete_leaves_no_trace 1 sample_app ann_row eq_refl sample_db_keyed)
    as (Hgone & _ & Hfree & _).
  split; [exact Hgone|exact Hfree].
Defined.

Lemma time_out_is_marked_once_witness :
  Admin.code (Admin.mark_time_out 1 later ann_marked).1 = 200 /\
  Admin.mark_time_out 1 sample_now (Admin.mark_time_out 1 later ann_marked).2
  = (Admin.Reply 400 false "Time out already marked for this record" None,
     (Admin.mark_time_out 1 later ann_marked).2).
Proof.
  split; [reflexivity|].
  exact (proj2 (time_out_is_marked_once 1 later sample_now ann_marked eq_refl)).
Defined.

(** ** Sessions *)

Lemma sample_app_wired : @wired sample_app.
Proof.
  split; [split; [reflexivity|by intros d [= <-]]|].
  intros tid tg p Hth. simpl in Hth. by rewrite lookup_nil in Hth.
Qed.

(** The camera is started, reads a frame, is started again (refused),
    stopped and started; in between face recognition is started and a
    detection worker takes a step.  The stop waits for the two steps of
    its worker. *)
Definition sample_schedule : list action :=
  [Act_request Rq_start_detection sample_day sample_now;
   Act_camera_worker (Read_ok wall) 0;
   Act_request Rq_start_detection sample_day sample_now;
   Act_request Rq_start_face_recognition sample_day sample_now;
   Act_camera_worker (Read_ok wall) 0;
   Act_detector_worker Read_fail sample_now 2;
   Act_request (Rq_stop_detection [Read_fail; Read_fail]) sample_day later;
   Act_camera_worker (Read_ok portrait) 0;
   Act_request Rq_start_detection sample_day later].

Definition after_schedule : App.t :=
  @play sample_vision sample_disk same_name sample_schedule sample_app.

Example after_schedule_threads :
  patient sample_schedule = true /\
  threads (App.process after_schedule)
  = [Worker SimpleCamera_capture_frames Finished;
     Worker FaceDetector_capture_frames At_head;
     Worker FaceDetector_detect_faces At_head;
     Worker SimpleCamera_capture_frames At_head] /\
  App.detection_active after_schedule = true /\
  App.face_recognition_active after_schedule = true.
Proof. vm_compute. repeat split. Qed.

(** A stop whose wait ends before the worker has taken a step, then a
    start: the flags agree with the camera, but the worker of the first
    session is still there, holding the frame it has read, next to the
    worker of the second.  At its next step it stores that frame and is
    back at the head of the loop, the camera running again. *)
Definition hasty_schedule : list action :=
  [Act_request Rq_start_detection sample_day sample_now;
   Act_camera_worker (Read_ok wall) 0;
   Act_request (Rq_stop_detection []) sample_day later;
   Act_request Rq_start_detection sample_day later].

Example hasty_stop_two_workers :
  let a := @play sample_vision sample_disk same_name hasty_schedule sample_app in
  let a' := @act sample_vision sample_disk same_name (Act_camera_worker Read_fail 0) a in
  patient hasty_schedule = false /\
  threads (App.process a)
  = [Worker SimpleCamera_capture_frames (Got_read (Read_ok wall));
     Worker SimpleCamera_capture_frames At_head] /\
  App.detection_active a = true /\
  SimpleCamera.running (App.simple_camera a) = true /\
  threads (App.process a')
  = [Worker SimpleCamera_capture_frames At_head;
     Worker SimpleCamera_capture_frames At_head] /\
  stored (SimpleCamera.current_frame (App.simple_camera a')) (App.process a') = Some wall.
Proof. vm_compute. repeat split. Qed.

Lemma one_live_worker_per_loop_witness :
  @wired sample_app /\
  patient sample_schedule = true /\
  forall tid p,
    threads (App.process (@play sample_vision sample_disk same_name sample_schedule sample_app)) !! tid
      = Some (Worker SimpleCamera_capture_frames p) ->
    p <> Finished -> tid = 3%nat.
Proof.
  split; [exact sample_app_wired|]. split; [reflexivity|].
  intros tid p Hth Hp.
  assert (At_head <> Finished) as Hhead by discriminate.
  assert (threads (App.process (@play sample_vision sample_disk same_name sample_schedule sample_app))
            !! 3%nat
          = Some (Worker SimpleCamera_capture_frames At_head)) as Hlast
    by (vm_compute; reflexivity).
  exact (@one_live_worker_per_loop sample_vision sample_disk same_name sample_schedule sample_app
           tid 3%nat SimpleCamera_capture_frames p At_head
           sample_app_wired eq_refl Hth Hp Hlast Hhead).
Defined.

Lemma session_flags_agree_with_objects_witness :
  @wired sample_app /\
  patient sample_schedule = true /\
  App.detection_active (@play sample_vision sample_disk same_name sample_schedule sample_app)
    = SimpleCamera.running
        (App.simple_camera (@play sample_vision sample_disk same_name sample_schedule sample_app)) /\
  App.detection_active (@play sample_vision sample_disk same_name sample_schedule sample_app)
    = true.
Proof.
  split; [exact sample_app_wired|]. split; [reflexivity|].
  pose proof (@session_flags_agree_with_objects sample_vision sample_disk same_name
                sample_schedule sample_app sample_app_wired) as Hflags.
  cbv zeta in Hflags. destruct Hflags as (Hcam & _ & Hlive).
  split; [exact Hcam|].
  assert (At_head <> Finished) as Hhead by discriminate.
  assert (threads (App.process (@play sample_vision sample_disk same_name sample_schedule sample_app))
            !! 3%nat
          = Some (Worker SimpleCamera_capture_frames At_head)) as Hlast
    by (vm_compute; reflexivity).
  exact (Hlive eq_refl 3%nat SimpleCamera_capture_frames At_head Hlast Hhead).
Defined.

(** ** The plain camera and the feed *)

Definition camera_started : bool * SimpleCamera.t * world :=
  SimpleCamera.start_camera (SimpleCamera.init 0) idle_world.

Lemma camera_keeps_last_frame_before_failure_witness :
  stands_at SimpleCamera_capture_frames At_head 0 camera_started.2 /\
  SimpleCamera.is_running camera_started.1.2 = true /\
  exists s' w',
    SimpleCamera.capture_frames [Read_ok portrait; Read_ok wall; Read_fail; Read_ok portrait]
      0 camera_started.1.2 camera_started.2 = (s', w') /\
    stored (SimpleCamera.current_frame s') w' = Some wall /\
    SimpleCamera.is_running s' = true /\
    stands_at SimpleCamera_capture_frames Finished 0 w'.
Proof.
  split; [reflexivity|]. split; [reflexivity|].
  destruct (camera_keeps_last_frame_before_failure
              [Read_ok portrait; Read_ok wall; Read_fail; Read_ok portrait]
              0%nat camera_started.1.2 camera_started.2 eq_refl eq_refl)
    as (s' & w' & Hrun & Hstored & _ & Hstill & Hat).
  exists s', w'. split; [exact Hrun|]. split; [exact Hstored|].
  split; [exact Hstill|exact Hat].
Defined.

(** A stand-in for the large font and for the JPEG encoder: the text
    covers the first row, and the "encoding" tells, for each pixel of
    the last row, whether its blue channel is zero. *)
Definition first_row (text : string) (org : Z * Z) (x y : Z) : bool := y =? 0.

Definition blue_of_last_row (f : frame) : option (list Byte.byte) :=
  match last f with
  | Some row => Some (map (fun p : pixel => if p.1.1 =? 0 then Byte.x00 else Byte.x01) row)
  | None => None
  end.

(** Both sessions are on and hold the portrait; the recognition session
    has Ann detected on it. *)
Definition both_sessions : App.t :=
  App.Make true "student_images" (Some busy_detector)
    (SimpleCamera.Make 0 (Some (Capture true [])) true (Some 1%positive) (Some 0%nat))
    true true sample_db sample_fs busy_world.

Example feed_prefers_recognition :
  match @Feed.generate_frames_turn sample_vision first_row blue_of_last_row
          sample_now both_sessions with
  | Some (part, a) =>
      part = Some [Byte.x00; Byte.x00] /\
      heap (App.process a) !! 1%positive = Some portrait /\
      trace (App.process a) !! 0%nat = Some (Ev_sleep 33)
  | None => False
  end.
Proof. vm_compute. repeat split. Qed.

Example feed_falls_back_to_camera :
  match @Feed.generate_frames_turn sample_vision first_row blue_of_last_row
          sample_now (App.set_face_recognition_active false both_sessions) with
  | Some (part, a) =>
      part = Some [Byte.x01; Byte.x01] /\
      heap (App.process a) !! 1%positive = Some portrait /\
      heap (App.process a) !! 2%positive
        = Some [[(0, 255, 0); (0, 255, 0)]; [(30, 0, 0); (40, 0, 0)]]
  | None => False
  end.
Proof. vm_compute. repeat split. Qed.

Example feed_ends :
  @Feed.generate_frames_turn sample_vision first_row blue_of_last_row
    sample_now sample_app = None.
Proof. reflexivity. Qed.

(** ** Registration and the helpers *)

Definition twin_form : Helpers.student_data :=
  Helpers.StudentData (Some "S009") (Some "Zed") (Some "ann@example.org") None
    (Some "CS") None None.

Lemma duplicate_email_leaves_photo_on_disk_witness :
  @reaches_encoder sample_disk same_name
    (App.Registration false twin_form (Some face_upload)) sample_now sample_app
    face_upload /\
  (@App.register_student sample_vision sample_disk same_name
     (App.Registration false twin_form (Some face_upload)) sample_now sample_app).1
  = App.Render "register_student.html" [("Error registering student", "error")] /\
  App.fs (@App.register_student sample_vision sample_disk same_name
            (App.Registration false twin_form (Some face_upload)) sample_now sample_app).2
    !! "student_images/student_S009_20240311_100000_zed.png" = Some [Byte.x01].
Proof.
  assert (@reaches_encoder sample_disk same_name
            (App.Registration false twin_form (Some face_upload)) sample_now
            sample_app face_upload) as Hreach.
  { repeat split; try reflexivity. simpl. discriminate. }
  assert (App.FACE_RECOGNITION_AVAILABLE sample_app = true ->
          is_Some (@photo_encoding sample_vision (Helpers.up_content face_upload)))
    as Hface.
  { intros _. vm_compute. eexists. reflexivity. }
  assert (form_email (App.Registration false twin_form (Some face_upload))
          ∈ map Db.s_email (Db.all_students (App.db sample_app))) as Hemail.
  { apply elem_of_cons. left. reflexivity. }
  pose proof (@duplicate_email_leaves_photo_on_disk sample_vision sample_disk same_name
                (App.Registration false twin_form (Some face_upload)) sample_now
                sample_app face_upload Hreach Hface Hemail) as Hout.
  split; [exact Hreach|]. rewrite Hout. split; [reflexivity|].
  vm_compute. reflexivity.
Defined.

(** Zed's registration passes every check; the same form with an id
    that names a directory does not, whatever the photo. *)
Example zed_registration_acceptable :
  @acceptable sample_vision sample_disk same_name
    (App.Registration false zed_form (Some face_upload)) sample_now sample_app
    face_upload /\
  forall file,
    ~ @acceptable sample_vision sample_disk same_name
        (App.Registration false slash_form (Some face_upload)) sample_now sample_app
        file.
Proof.
  split.
  - split; [|split].
    + repeat split; try reflexivity. simpl. discriminate.
    + intros _. vm_compute. eexists. reflexivity.
    + simpl. rewrite !elem_of_cons, elem_of_nil. intros [H|[H|[]]]; discriminate H.
  - intros file ((_ & _ & _ & Himg & _ & _ & Hwrite) & _).
    simpl in Himg. injection Himg as <-. vm_compute in Hwrite. discriminate Hwrite.
Qed.

Lemma attendance_status_by_time_of_day_witness :
  time_in_range later /\ Helpers.get_attendance_status (Some later) = "Absent".
Proof.
  assert (time_in_range later) as Hrange.
  { unfold time_in_range. simpl. lia. }
  split; [exact Hrange|].
  exact (proj2 (attendance_status_by_time_of_day later Hrange)).
Defined.
